(** * WeensyOS handout kernel (kernels1/kernel.cc): shallow embedding

    The kernel of [src/kernels1/kernel.cc] is embedded as executable
    functions over an explicit kernel state.  Every C function of the file
    becomes a computation in a small state-and-outcome monad [K]; a fatal
    [assert]/[panic], the transfer of the CPU to a process
    ([exception_return]) and the endless loop of [schedule] are outcomes of
    their own, so that "does not return" is visible in the types.

    The headers [kernel.hh], [k-vmiter.hh], [x86-64.h] and [lib.hh] are not
    part of the sources at hand.  Their constants are the fields of a
    configuration [Config]; their few helpers are modelled where they are
    used and say so. *)

From Stdlib Require Import ZArith Lia Bool.
From stdpp Require Import base option list gmap strings.

Local Open Scope Z_scope.

(** ** Machine integers and arrays *)

(** [uintptr_t], [size_t] and [unsigned long] arithmetic wraps at 2^64. *)
Definition wrap64 (z : Z) : Z := z mod 2 ^ 64.

(** [round_down(x, m)] of [lib.hh]: the largest multiple of [m] that is
    at most [x]. *)
Definition round_down (x m : Z) : Z := x - x mod m.

(** C arrays are indexed by integers; an index outside the array has no
    element (the access is undefined behaviour in C). *)
Definition zlookup {A : Type} (l : list A) (i : Z) : option A :=
  if 0 <=? i then l !! Z.to_nat i else None.

Definition zinsert {A : Type} (i : Z) (x : A) (l : list A) : list A :=
  <[Z.to_nat i := x]> l.

(** ** Data model *)

(** [procstate_t] of [kernel.hh]. *)
Inductive procstate : Type := P_FREE | P_RUNNABLE | P_BLOCKED | P_FAULTED.

Definition procstate_eqb (a b : procstate) : bool :=
  match a, b with
  | P_FREE, P_FREE | P_RUNNABLE, P_RUNNABLE
  | P_BLOCKED, P_BLOCKED | P_FAULTED, P_FAULTED => true
  | _, _ => false
  end.

(** The registers of [regstate] that [kernel.cc] reads or writes. *)
Record regstate : Type := mkregs {
  reg_rax : Z;
  reg_rdi : Z;
  reg_rsi : Z;
  reg_rip : Z;
  reg_rsp : Z;
  reg_intno : Z;
  reg_errcode : Z
}.

(** [struct proc].  [pagetable] is a pointer: the address of a top-level
    page table, [0] for [nullptr].  The tables themselves live in the
    kernel state, so that two descriptors holding the same pointer share
    one table. *)
Record proc : Type := mkproc {
  pid : Z;
  state : procstate;
  regs : regstate;
  pagetable : Z
}.

(** A page table maps a virtual page number to the physical address and
    the permission bits of its entry. *)
Definition pte : Type := (Z * Z)%type.

(** One loadable segment of a program image, and the image. *)
Record segment : Type := mkseg {
  seg_va : Z;
  seg_size : Z;
  seg_data : list Z
}.

Definition seg_data_size (sg : segment) : Z := Z.of_nat (length (seg_data sg)).

Record image : Type := mkimage {
  img_segs : list segment;
  img_entry : Z
}.

(** The global variables of [kernel.cc], the page tables reachable from
    them, and physical memory ([mem], one byte per address).  [current] is
    the index of the descriptor [current] points to, [None] for the null
    pointer it holds before the first [run]. *)
Record kstate : Type := mkstate {
  ptable : list proc;
  current : option Z;
  physpages : list Z;
  next_alloc_pa : Z;
  pagetables : gmap Z (gmap Z pte);
  mem : Z -> Z;
  pipebuf : Z;
  pipebuf_len : Z;
  ticks : Z
}.

Definition set_ptable (v : list proc) (s : kstate) : kstate :=
  mkstate v (current s) (physpages s) (next_alloc_pa s) (pagetables s)
          (mem s) (pipebuf s) (pipebuf_len s) (ticks s).
Definition set_current (v : option Z) (s : kstate) : kstate :=
  mkstate (ptable s) v (physpages s) (next_alloc_pa s) (pagetables s)
          (mem s) (pipebuf s) (pipebuf_len s) (ticks s).
Definition set_physpages (v : list Z) (s : kstate) : kstate :=
  mkstate (ptable s) (current s) v (next_alloc_pa s) (pagetables s)
          (mem s) (pipebuf s) (pipebuf_len s) (ticks s).
Definition set_next_alloc_pa (v : Z) (s : kstate) : kstate :=
  mkstate (ptable s) (current s) (physpages s) v (pagetables s)
          (mem s) (pipebuf s) (pipebuf_len s) (ticks s).
Definition set_pagetables (v : gmap Z (gmap Z pte)) (s : kstate) : kstate :=
  mkstate (ptable s) (current s) (physpages s) (next_alloc_pa s) v
          (mem s) (pipebuf s) (pipebuf_len s) (ticks s).
Definition set_mem (v : Z -> Z) (s : kstate) : kstate :=
  mkstate (ptable s) (current s) (physpages s) (next_alloc_pa s)
          (pagetables s) v (pipebuf s) (pipebuf_len s) (ticks s).
Definition set_pipebuf (v : Z) (s : kstate) : kstate :=
  mkstate (ptable s) (current s) (physpages s) (next_alloc_pa s)
          (pagetables s) (mem s) v (pipebuf_len s) (ticks s).
Definition set_pipebuf_len (v : Z) (s : kstate) : kstate :=
  mkstate (ptable s) (current s) (physpages s) (next_alloc_pa s)
          (pagetables s) (mem s) (pipebuf s) v (ticks s).
Definition set_ticks (v : Z) (s : kstate) : kstate :=
  mkstate (ptable s) (current s) (physpages s) (next_alloc_pa s)
          (pagetables s) (mem s) (pipebuf s) (pipebuf_len s) v.

Definition set_state (v : procstate) (p : proc) : proc :=
  mkproc (pid p) v (regs p) (pagetable p).
Definition set_regs (v : regstate) (p : proc) : proc :=
  mkproc (pid p) (state p) v (pagetable p).
Definition set_pagetable (v : Z) (p : proc) : proc :=
  mkproc (pid p) (state p) (regs p) v.
Definition set_pid (v : Z) (p : proc) : proc :=
  mkproc v (state p) (regs p) (pagetable p).

Definition set_reg_rax (v : Z) (r : regstate) : regstate :=
  mkregs v (reg_rdi r) (reg_rsi r) (reg_rip r) (reg_rsp r)
         (reg_intno r) (reg_errcode r).
Definition set_reg_rip (v : Z) (r : regstate) : regstate :=
  mkregs (reg_rax r) (reg_rdi r) (reg_rsi r) v (reg_rsp r)
         (reg_intno r) (reg_errcode r).
Definition set_reg_rsp (v : Z) (r : regstate) : regstate :=
  mkregs (reg_rax r) (reg_rdi r) (reg_rsi r) (reg_rip r) v
         (reg_intno r) (reg_errcode r).

(** [memset(dst, c, n)] and [memcpy(dst, src, n)] with the source bytes
    given as a list. *)
Definition memset (dst c n : Z) (m : Z -> Z) : Z -> Z :=
  fun a => if (dst <=? a) && (a <? dst + n) then c else m a.

Definition memcpy (dst : Z) (src : list Z) (n : Z) (m : Z -> Z) : Z -> Z :=
  fun a =>
    if (dst <=? a) && (a <? dst + n)
    then match src !! Z.to_nat (a - dst) with Some b => b | None => m a end
    else m a.

(** [p[0] = b] for a [char* p]. *)
Definition store_byte (p b : Z) (m : Z -> Z) : Z -> Z :=
  fun a => if a =? p then b else m a.

(** ** Outcomes and the kernel monad *)

(** The ways the kernel stops the machine. *)
Inductive fatal : Type :=
  | assert_kfree                 (* kfree: assert(false) *)
  | assert_window                (* process_setup: a >= first_addr && a < last_addr *)
  | assert_segment_refcount      (* process_setup: segment page refcount == 0 *)
  | assert_stack_refcount        (* process_setup: stack page refcount == 0 *)
  | assert_page_alloc_refcount   (* syscall_page_alloc: refcount == 0 *)
  | assert_run_runnable          (* run: p->state == P_RUNNABLE *)
  | assert_check_pagetable       (* run: check_pagetable(p->pagetable) *)
  | panic_kernel_page_fault      (* exception: kernel page fault *)
  | panic_unexpected_exception   (* exception: default case *)
  | panic_unexpected_syscall     (* syscall: default case *)
  | panic_user.                  (* syscall: SYSCALL_PANIC, user_panic *)

(** What a call of a kernel function ends in:
    - [Ret a s]: it returns [a] to its caller;
    - [Resumed s]: it reached [exception_return]: the CPU now runs the
      process [current s] in user mode;
    - [Halted f s]: an assertion failed or [panic] was called;
    - [Spinning s]: [schedule] loops forever, no process being runnable;
    - [OutOfFuel]: a loop of the model ran out of its iteration budget;
      the budgets are shown to suffice ([kalloc_returns],
      [init_kernel_pagetable_spec], [init_ptable_foreach],
      [load_loop_foreach]);
    - [Undef]: undefined behaviour in C (an array index out of bounds, a
      null pointer dereferenced). *)
Inductive outcome (A : Type) : Type :=
  | Ret (a : A) (s : kstate)
  | Resumed (s : kstate)
  | Halted (f : fatal) (s : kstate)
  | Spinning (s : kstate)
  | OutOfFuel
  | Undef.

Arguments Ret {A} a s.
Arguments Resumed {A} s.
Arguments Halted {A} f s.
Arguments Spinning {A} s.
Arguments OutOfFuel {A}.
Arguments Undef {A}.

(** The assertion or panic an outcome stopped on, and whether a process
    was resumed. *)
Definition halted_on {A : Type} (o : outcome A) : option fatal :=
  match o with Halted e _ => Some e | _ => None end.

Definition is_resumed {A : Type} (o : outcome A) : bool :=
  match o with Resumed _ => true | _ => false end.

Definition K (A : Type) : Type := kstate -> outcome A.

Definition ret {A : Type} (a : A) : K A := fun s => Ret a s.

Definition bind {A B : Type} (m : K A) (f : A -> K B) : K B :=
  fun s =>
    match m s with
    | Ret a s' => f a s'
    | Resumed s' => Resumed s'
    | Halted e s' => Halted e s'
    | Spinning s' => Spinning s'
    | OutOfFuel => OutOfFuel
    | Undef => Undef
    end.

(** [K] is a monad in the sense of stdpp: [x ← m; k] runs [m] and, when it
    returns, continues with [k]; every other outcome ends the computation. *)
#[global] Instance K_ret : MRet K := @ret.
#[global] Instance K_bind : MBind K := fun A B f m => bind m f.
#[global] Instance K_fmap : FMap K := fun A B f m => bind m (fun a => ret (f a)).

Definition get : K kstate := fun s => Ret s s.
Definition modify (f : kstate -> kstate) : K unit := fun s => Ret tt (f s).
Definition panic {A : Type} (e : fatal) : K A := fun s => Halted e s.
Definition undef {A : Type} : K A := fun _ => Undef.

(** [assert(b)]. *)
Definition assert (b : bool) (e : fatal) : K unit :=
  if b then ret tt else panic e.

(** Reading through a pointer or an array index that may be invalid. *)
Definition must {A : Type} (o : option A) : K A :=
  match o with Some a => ret a | None => undef end.

(** A [[noreturn]] function has no value to return: its computations have
    type [K Empty_set], and can stand where any type is expected. *)
Definition noreturn {A : Type} (m : K Empty_set) : K A :=
  bind m (fun e : Empty_set => match e with end).

(** The process reached [exception_return]. *)
Definition exception_return : K Empty_set := fun s => Resumed s.

(** [foreach l body]: a range-based [for] over the elements of [l]. *)
Fixpoint foreach {A : Type} (l : list A) (body : A -> K unit) : K unit :=
  match l with
  | [] => mret tt
  | x :: l' => body x;; foreach l' body
  end.

(** [for (i = i0; cond(i); i = step(i)) body(i)], with an iteration
    budget. *)
Fixpoint for_loop (fuel : nat) (cond : Z -> bool) (step : Z -> Z)
    (body : Z -> K unit) (i : Z) : K unit :=
  match fuel with
  | O => fun _ => OutOfFuel
  | S n =>
      if cond i then body i;; for_loop n cond step body (step i)
      else mret tt
  end.

(** The bytes of a C string literal, with its terminating NUL. *)
Definition c_string (str : string) : list Z :=
  map (fun c => Z.of_nat (Ascii.nat_of_ascii c)) (String.list_ascii_of_string str)
  ++ [0].

(** [#define PROC_SIZE 0x40000] *)
Definition PROC_SIZE : Z := 0x40000.

(** ** Configuration

    What [kernel.cc] takes from the headers and files that are missing
    here: the constants of [kernel.hh] and [x86-64.h], and four helpers
    of [k-hardware.cc]. *)
Class Config : Type := {
  PAGESIZE : Z;
  MEMSIZE_PHYSICAL : Z;
  (** the length of [physpages] *)
  NPAGES : Z;
  (** the length of [ptable] *)
  NPROC : Z;
  PROC_START_ADDR : Z;
  CONSOLE_ADDR : Z;
  PTE_P : Z;
  PTE_W : Z;
  PTE_U : Z;
  INT_PF : Z;
  INT_IRQ : Z;
  IRQ_TIMER : Z;
  SYSCALL_GETPID : Z;
  SYSCALL_YIELD : Z;
  SYSCALL_PANIC : Z;
  SYSCALL_PAGE_ALLOC : Z;
  SYSCALL_GETSYSNAME : Z;
  SYSCALL_SPAWN : Z;
  SYSCALL_PIPEWRITE : Z;
  SYSCALL_PIPEREAD : Z;
  (** the address of the global [kernel_pagetable] *)
  kernel_pagetable : Z;
  (** [allocatable_physical_address(pa)] *)
  allocatable_physical_address : Z -> bool;
  (** [check_pagetable(pt)] asserts that a page table is well formed;
      this is the test its assertions make *)
  check_pagetable : gmap Z pte -> bool;
  (** the register file [init_process(p, flags)] gives a new process *)
  init_regs : Z -> regstate;
  (** the program images linked into the kernel, by name; [None] when
      [program_image(name).empty()] *)
  program_image : string -> option image;
  (** the default command of [obj/k-firstprocess.h] *)
  WEENSYOS_FIRST_PROCESS : string
}.

(** ** The kernel *)

Section Kernel.

Context {cfg : Config}.

(** *** Accessors *)

(** [ptable[i]] *)
Definition proc_at (i : Z) : K proc :=
  s ← get; must (zlookup (ptable s) i).

(** [ptable[i].field = ...] *)
Definition update_proc (i : Z) (f : proc -> proc) : K unit :=
  p ← proc_at i;
  modify (fun s => set_ptable (zinsert i (f p) (ptable s)) s).

(** The descriptor [current] points to. *)
Definition current_proc : K Z :=
  s ← get; must (current s).

(** [physpages[i].refcount] *)
Definition refcount (i : Z) : K Z :=
  s ← get; must (zlookup (physpages s) i).

(** [++physpages[i].refcount].  The counter's C type is declared in the
    missing [kernel.hh]; every increment of this file is guarded by
    [refcount == 0], so its width never matters and it is left unbounded. *)
Definition incr_refcount (i : Z) : K unit :=
  rc ← refcount i;
  modify (fun s => set_physpages (zinsert i (rc + 1) (physpages s)) s).

(** Modelled from the spec: [vmiter(pt, va).map(pa, perm)] of the missing
    [k-vmiter.hh].  The spec (4.2): map "installs or overwrites the mapping
    for the cursor's current virtual page".  The levels of the x86-64 table
    are not modelled: a table is the finite map from virtual page numbers to
    entries that the walk implements. *)
Definition vmiter_map (pt va pa perm : Z) : K unit :=
  s ← get;
  t ← must (pagetables s !! pt);
  modify (set_pagetables (<[pt := <[va / PAGESIZE := (pa, perm)]> t]> (pagetables s))).

(** Modelled from the spec: [vmiter(pt, va)] read access, the entry of the
    virtual page of [va] in the table at [pt]. *)
Definition vmiter_lookup (s : kstate) (pt va : Z) : option pte :=
  t ← pagetables s !! pt; t !! (va / PAGESIZE).

(** [init_process(p, flags)] of [k-hardware.cc]: resets the registers of
    the descriptor. *)
Definition init_process (p : Z) (flags : Z) : K unit :=
  update_proc p (set_regs (init_regs flags)).

(** *** kalloc, kfree *)

(** The [while] loop of [kalloc]. *)
Fixpoint kalloc_loop (fuel : nat) : K Z :=
  match fuel with
  | O => fun _ => OutOfFuel
  | S n =>
      s ← get;
      if next_alloc_pa s <? MEMSIZE_PHYSICAL then
        let pa := next_alloc_pa s in
        modify (set_next_alloc_pa (wrap64 (next_alloc_pa s + PAGESIZE)));;
        if allocatable_physical_address pa then
          rc ← refcount (pa / PAGESIZE);
          if rc =? 0 then
            incr_refcount (pa / PAGESIZE);;
            modify (fun s => set_mem (memset pa 0xCC PAGESIZE (mem s)) s);;
            mret pa
          else kalloc_loop n
        else kalloc_loop n
      else mret 0
  end.

(** The loop runs once per page between the cursor and the end of
    physical memory, and once more to leave. *)
Definition kalloc_budget (s : kstate) : nat :=
  S (Z.to_nat ((MEMSIZE_PHYSICAL - next_alloc_pa s) / PAGESIZE + 1)).

(** [void* kalloc(size_t sz)]; the null pointer is [0]. *)
Definition kalloc (sz : Z) : K Z :=
  if PAGESIZE <? sz then mret 0
  else s ← get; kalloc_loop (kalloc_budget s).

(** [void kfree(void* kptr)] *)
Definition kfree (kptr : Z) : K unit :=
  assert false assert_kfree.

(** *** run, schedule *)

(** [[[noreturn]] void run(proc* p)] *)
Definition run (p : Z) : K Empty_set :=
  d ← proc_at p;
  assert (procstate_eqb (state d) P_RUNNABLE) assert_run_runnable;;
  modify (set_current (Some p));;
  s ← get;
  t ← must (pagetables s !! pagetable d);
  assert (check_pagetable t) assert_check_pagetable;;
  exception_return.

(** The [for] loop of [schedule], [fuel] iterations of it.  The loop has
    no exit of its own: it is left through [run] only.  [check_keyboard]
    and [memshow] act on the keyboard and the console, which are not part
    of the kernel state. *)
Fixpoint schedule_loop (fuel : nat) (pid0 : Z) : K Empty_set :=
  match fuel with
  | O => fun s => Spinning s
  | S n =>
      let pid1 := Z.rem (pid0 + 1) NPROC in
      p ← proc_at pid1;
      if procstate_eqb (state p) P_RUNNABLE then run pid1
      else schedule_loop n pid1
  end.

(** [[[noreturn]] void schedule()].  Nothing the loop does changes the
    process table, so after [NPROC] iterations without a runnable slot
    the loop repeats itself forever ([schedule_spins_forever]). *)
Definition schedule : K Empty_set :=
  c ← current_proc;
  p ← proc_at c;
  schedule_loop (Z.to_nat NPROC) (pid p).

(** *** process_setup *)

(** The body of the inner loop of [process_setup] at page address [a]. *)
Definition load_page (pid first_addr last_addr a : Z) : K unit :=
  assert ((first_addr <=? a) && (a <? last_addr)) assert_window;;
  rc ← refcount (a / PAGESIZE);
  assert (rc =? 0) assert_segment_refcount;;
  incr_refcount (a / PAGESIZE);;
  p ← proc_at pid;
  vmiter_map (pagetable p) a a (Z.lor (Z.lor PTE_P PTE_W) PTE_U).

(** Every iteration that does not stop the machine stays inside the
    process window, so a window's worth of iterations (and the one that
    leaves or fails) is enough. *)
Definition window_budget : nat := S (Z.to_nat (PROC_SIZE / PAGESIZE + 1)).

(** [void process_setup(pid_t pid, const char* program_name)].  The
    function reads the segments and the entry point of the image without
    testing that the image exists; for a name without image this is left
    undefined. *)
Definition process_setup (pid : Z) (program_name : string) : K unit :=
  init_process pid 0;;
  let first_addr := wrap64 (PROC_START_ADDR + (pid - 1) * PROC_SIZE) in
  let last_addr := wrap64 (PROC_START_ADDR + pid * PROC_SIZE) in
  update_proc pid (set_pagetable kernel_pagetable);;
  pgm ← must (program_image program_name);
  foreach (img_segs pgm) (fun seg =>
    for_loop window_budget
      (fun a => a <? wrap64 (seg_va seg + seg_size seg))
      (fun a => wrap64 (a + PAGESIZE))
      (load_page pid first_addr last_addr)
      (round_down (seg_va seg) PAGESIZE));;
  foreach (img_segs pgm) (fun seg =>
    modify (fun s => set_mem (memset (seg_va seg) 0 (seg_size seg) (mem s)) s);;
    modify (fun s => set_mem (memcpy (seg_va seg) (seg_data seg)
                                     (seg_data_size seg) (mem s)) s));;
  update_proc pid (fun p => set_regs (set_reg_rip (img_entry pgm) (regs p)) p);;
  let stack_addr := wrap64 (last_addr - PAGESIZE) in
  rc ← refcount (stack_addr / PAGESIZE);
  assert (rc =? 0) assert_stack_refcount;;
  incr_refcount (stack_addr / PAGESIZE);;
  p ← proc_at pid;
  vmiter_map (pagetable p) stack_addr stack_addr (Z.lor (Z.lor PTE_P PTE_W) PTE_U);;
  update_proc pid (fun p =>
    set_regs (set_reg_rsp (wrap64 (stack_addr + PAGESIZE)) (regs p)) p);;
  update_proc pid (set_state P_RUNNABLE).

(** *** exception *)

(** The end of [exception]: "Return to the current process (or run
    something else)". *)
Definition resume_or_schedule : K Empty_set :=
  c ← current_proc;
  p ← proc_at c;
  if procstate_eqb (state p) P_RUNNABLE then run c else schedule.

(** [void exception(regstate* regs)].  It never returns to its caller.
    [console_show_cursor], [memshow], [check_keyboard], the interrupt
    controller and the printed messages act on devices only. *)
Definition exception (r : regstate) : K Empty_set :=
  c ← current_proc;
  update_proc c (set_regs r);;
  (if reg_intno r =? INT_IRQ + IRQ_TIMER then
     modify (fun s => set_ticks (wrap64 (ticks s + 1)) s);;
     noreturn schedule
   else if reg_intno r =? INT_PF then
     (if Z.land (reg_errcode r) PTE_U =? 0
      then panic panic_kernel_page_fault
      else mret tt);;
     update_proc c (set_state P_FAULTED)
   else panic panic_unexpected_exception);;
  resume_or_schedule.

(** The classification [exception] prints for a page fault. *)
Definition fault_operation (r : regstate) : string :=
  if Z.land (reg_errcode r) PTE_W =? 0 then "read" else "write".
Definition fault_problem (r : regstate) : string :=
  if Z.land (reg_errcode r) PTE_P =? 0 then "missing page" else "protection problem".

(** *** System calls *)

(** [int syscall_page_alloc(uintptr_t addr)] *)
Definition syscall_page_alloc (addr : Z) : K Z :=
  rc ← refcount (addr / PAGESIZE);
  assert (rc =? 0) assert_page_alloc_refcount;;
  incr_refcount (addr / PAGESIZE);;
  modify (fun s => set_mem (memset addr 0 PAGESIZE (mem s)) s);;
  mret 0.

(** [pid_t syscall_spawn(const char* command)] *)
Definition syscall_spawn (command : Z) : K Z := mret (-1).

(** [ssize_t syscall_pipewrite(const char* buf, size_t sz)] *)
Definition syscall_pipewrite (buf sz : Z) : K Z :=
  s ← get;
  if sz =? 0 then mret 0
  else if pipebuf_len s =? 1 then mret (-1)
  else
    modify (set_pipebuf (mem s buf));;
    modify (set_pipebuf_len 1);;
    mret 1.

(** [ssize_t syscall_piperead(char* buf, size_t sz)] *)
Definition syscall_piperead (buf sz : Z) : K Z :=
  s ← get;
  if sz =? 0 then mret 0
  else if pipebuf_len s =? 0 then mret (-1)
  else
    modify (set_mem (store_byte buf (pipebuf s) (mem s)));;
    modify (set_pipebuf_len 0);;
    mret 1.

(** [uintptr_t syscall(regstate* regs)]: the value returned goes to the
    process in [%rax]; results of signed type are converted to
    [uintptr_t]. *)
Definition syscall (r : regstate) : K Z :=
  c ← current_proc;
  update_proc c (set_regs r);;
  if reg_rax r =? SYSCALL_PANIC then panic panic_user
  else if reg_rax r =? SYSCALL_GETPID then
    p ← proc_at c; mret (wrap64 (pid p))
  else if reg_rax r =? SYSCALL_YIELD then
    update_proc c (fun p => set_regs (set_reg_rax 0 (regs p)) p);;
    noreturn schedule
  else if reg_rax r =? SYSCALL_PAGE_ALLOC then
    wrap64 <$> syscall_page_alloc (reg_rdi r)
  else if reg_rax r =? SYSCALL_GETSYSNAME then
    p ← proc_at c;
    let osname := c_string "DemoOS 61.61" in
    modify (fun s => set_mem (memcpy (reg_rdi (regs p)) osname
                                     (Z.of_nat (length osname)) (mem s)) s);;
    mret 0
  else if reg_rax r =? SYSCALL_SPAWN then
    wrap64 <$> syscall_spawn (reg_rdi r)
  else if reg_rax r =? SYSCALL_PIPEWRITE then
    wrap64 <$> syscall_pipewrite (reg_rdi r) (reg_rsi r)
  else if reg_rax r =? SYSCALL_PIPEREAD then
    wrap64 <$> syscall_piperead (reg_rdi r) (reg_rsi r)
  else panic panic_unexpected_syscall.

(** *** kernel_start *)

(** "(re-)initialize kernel page table": the first loop of
    [kernel_start]. *)
Definition init_kernel_pagetable : K unit :=
  for_loop (S (Z.to_nat (MEMSIZE_PHYSICAL / PAGESIZE + 1)))
    (fun va => va <? MEMSIZE_PHYSICAL)
    (fun va => wrap64 (va + PAGESIZE))
    (fun va =>
       if va =? CONSOLE_ADDR then
         vmiter_map kernel_pagetable va va (Z.lor (Z.lor PTE_P PTE_W) PTE_U)
       else if negb (va =? 0) then
         vmiter_map kernel_pagetable va va (Z.lor PTE_P PTE_W)
       else
         vmiter_map kernel_pagetable va va 0)
    0.

(** "set up process descriptors": the second loop of [kernel_start]. *)
Definition init_ptable : K unit :=
  for_loop (S (Z.to_nat NPROC))
    (fun i => i <? NPROC)
    (fun i => i + 1)
    (fun i =>
       update_proc i (set_pid i);;
       update_proc i (set_state P_FREE))
    0.

(** [void kernel_start(const char* command)]; [None] is the null
    pointer.  [init_hardware], [init_timer] and [console_clear] act on
    devices only. *)
Definition kernel_start (command : option string) : K Empty_set :=
  modify (set_ticks 1);;
  init_kernel_pagetable;;
  init_ptable;;
  let command := default WEENSYOS_FIRST_PROCESS command in
  (if program_image command is Some _ then
     process_setup 1 command
   else if bool_decide (command = "pipe") then
     process_setup 1 "pipewriter";;
     process_setup 2 "pipereader"
   else
     process_setup 1 "alice";;
     process_setup 2 "eve");;
  run 1.

(** *** memshow *)

(** The variables of [memshow]: the global [show_memory] and its two
    [static] locals. *)
Record memviewer : Type := mkviewer {
  show_memory : bool;
  last_ticks : Z;
  showing : Z
}.

(** The [for] loop of [memshow], [n] being the number of iterations
    left before [search] reaches [NPROC].  The result is the value of
    [showing] after the loop and the slot [p] points to, [None] for the
    null pointer; there is no result when [ptable] is indexed out of
    bounds. *)
Fixpoint memshow_search (n : nat) (s : kstate) (showing : Z) : option (Z * option Z) :=
  match n with
  | O => Some (showing, None)
  | S n' =>
      p ← zlookup (ptable s) showing;
      if negb (procstate_eqb (state p) P_FREE) && negb (pagetable p =? 0)
      then Some (showing, Some showing)
      else memshow_search n' s (Z.rem (showing + 1) NPROC)
  end.

(** [void memshow()].  [HZ] is a constant of the missing [kernel.hh];
    [ticks] and [last_ticks] are [unsigned long], [showing] is an [int].
    The function reads the kernel state and changes its own variables
    only.  The result is the new value of the variables and the
    argument of the call of [console_memviewer], when it is called. *)
Definition memshow (HZ : Z) (v : memviewer) (s : kstate)
    : option (memviewer * option (option Z)) :=
  if show_memory v then
    let switch :=
      (last_ticks v =? 0)
      || (wrap64 (Z.quot HZ 2) <=? wrap64 (ticks s - last_ticks v)) in
    let last_ticks' := if switch then ticks s else last_ticks v in
    let showing' := if switch then Z.rem (showing v + 1) NPROC else showing v in
    '(showing'', p) ← memshow_search (Z.to_nat NPROC) s showing';
    Some (mkviewer true last_ticks' showing'', Some p)
  else Some (v, None).

(** ** Vocabulary of the statements *)

(** The memory viewer can show slot [x]: the slot is not FREE and has a
    page table. *)
Definition showable (s : kstate) (x : Z) : Prop :=
  exists p, zlookup (ptable s) x = Some p
    /\ state p <> P_FREE /\ pagetable p <> 0.

(** The reference count of the physical page that holds address [pa]. *)
Definition refcount_of (s : kstate) (pa : Z) : option Z :=
  zlookup (physpages s) (pa / PAGESIZE).

(** The values [lo], [lo + d], [lo + 2d], ... below [hi]: what the
    variable of [for (x = lo; x < hi; x += d)] runs through. *)
Definition range (lo hi d : Z) : list Z :=
  (fun k => lo + Z.of_nat k * d) <$> seq 0 (Z.to_nat ((hi - lo + d - 1) / d)).

(** [PTE_P | PTE_W | PTE_U] *)
Definition PTE_PWU : Z := Z.lor (Z.lor PTE_P PTE_W) PTE_U.

(** The window of process [pid], and the page of its stack. *)
Definition first_addr (pid : Z) : Z := PROC_START_ADDR + (pid - 1) * PROC_SIZE.
Definition last_addr (pid : Z) : Z := PROC_START_ADDR + pid * PROC_SIZE.
Definition stack_addr (pid : Z) : Z := last_addr pid - PAGESIZE.

(** The page addresses the loader visits for a segment, with the loop
    bounds of [process_setup], and for all segments of an image in
    order. *)
Definition seg_pages (sg : segment) : list Z :=
  range (round_down (seg_va sg) PAGESIZE) (wrap64 (seg_va sg + seg_size sg)) PAGESIZE.

Definition image_pages (pgm : image) : list Z :=
  concat (seg_pages <$> img_segs pgm).

(** The permissions the first loop of [kernel_start] gives the page at
    [va], and what the bits of an entry say. *)
Definition kernel_perm (va : Z) : Z :=
  if va =? CONSOLE_ADDR then PTE_PWU
  else if negb (va =? 0) then Z.lor PTE_P PTE_W
  else 0.

Definition present (perm : Z) : Prop := Z.land perm PTE_P <> 0.
Definition writable (perm : Z) : Prop := Z.land perm PTE_W <> 0.
Definition user_accessible (perm : Z) : Prop := Z.land perm PTE_U <> 0.

(** A page table after [map] was called for the pages of [l] in order,
    page [va] getting the entry [f va]. *)
Definition mapped_all (f : Z -> pte) (l : list Z) (t : gmap Z pte) : gmap Z pte :=
  foldl (fun t va => <[va / PAGESIZE := f va]> t) t l.

(** [ptable[i] = p] *)
Definition with_proc (i : Z) (p : proc) (s : kstate) : kstate :=
  set_ptable (zinsert i p (ptable s)) s.

(** The state after the page at [a] got its reference count and its
    identity mapping for user access in the table at [pt]. *)
Definition page_loaded (pt a : Z) (s : kstate) : kstate :=
  set_pagetables
    (<[pt := <[a / PAGESIZE := (a, PTE_PWU)]> (default ∅ (pagetables s !! pt))]>
       (pagetables s))
    (set_physpages (zinsert (a / PAGESIZE) 1 (physpages s)) s).

Definition pages_loaded (pt : Z) (l : list Z) (s : kstate) : kstate :=
  foldl (fun s a => page_loaded pt a s) s l.

(** Memory after the second loop of [process_setup]. *)
Definition segments_copied (segs : list segment) (s : kstate) : kstate :=
  foldl (fun s sg =>
           set_mem (memcpy (seg_va sg) (seg_data sg) (seg_data_size sg)
                      (memset (seg_va sg) 0 (seg_size sg) (mem s))) s)
        s segs.

(** The descriptor [process_setup] builds. *)
Definition proc_ready (i : Z) (pgm : image) (p : proc) : proc :=
  mkproc (pid p) P_RUNNABLE
         (set_reg_rsp (last_addr i) (set_reg_rip (img_entry pgm) (init_regs 0)))
         kernel_pagetable.

(** The state [process_setup] returns in when all its assertions hold. *)
Definition setup_done (i : Z) (pgm : image) (p : proc) (s : kstate) : kstate :=
  with_proc i (proc_ready i pgm p)
    (page_loaded kernel_pagetable (stack_addr i)
       (segments_copied (img_segs pgm)
          (pages_loaded kernel_pagetable (image_pages pgm) s))).

(** The pages of [l] are free in state [s] and are different pages; they
    lie in the window of process [i]. *)
Definition pages_free (s : kstate) (l : list Z) : Prop :=
  Forall (fun a => refcount_of s a = Some 0) l
  /\ NoDup ((fun a => a / PAGESIZE) <$> l).

Definition in_window (i : Z) (l : list Z) : Prop :=
  Forall (fun a => first_addr i <= a < last_addr i) l.

(** The precondition of a successful [process_setup]: every page of
    every segment lies in the window, and the pages of the segments and
    the stack page are free and pairwise different. *)
Definition setup_ok (i : Z) (pgm : image) (s : kstate) : Prop :=
  in_window i (image_pages pgm)
  /\ pages_free s (image_pages pgm ++ [stack_addr i]).

(** The state of slot [x] of the process table, and whether it is
    RUNNABLE. *)
Definition slot_state (s : kstate) (x : Z) : option procstate :=
  state <$> zlookup (ptable s) x.

Definition runnable (s : kstate) (x : Z) : Prop :=
  slot_state s x = Some P_RUNNABLE.

(** Every slot holds its own index as [pid], as [kernel_start] sets it. *)
Definition pids_are_indices (s : kstate) : Prop :=
  forall x p, zlookup (ptable s) x = Some p -> pid p = x.

(** The page table of every RUNNABLE process exists and passes
    [check_pagetable]. *)
Definition pagetables_checked (s : kstate) : Prop :=
  forall x p, zlookup (ptable s) x = Some p -> state p = P_RUNNABLE ->
    exists t, pagetables s !! pagetable p = Some t /\ check_pagetable t = true.

(** The slots that [n] calls of [schedule] in a row transfer the CPU to,
    each call made in the state the one before it resumed in. *)
Fixpoint schedule_trace (n : nat) (s : kstate) : list Z :=
  match n with
  | O => []
  | S n' =>
      match schedule s with
      | Resumed s' =>
          match current s' with
          | Some c => c :: schedule_trace n' s'
          | None => []
          end
      | _ => []
      end
  end.

#[global] Instance setup_ok_dec (i : Z) (pgm : image) (s : kstate) :
  Decision (setup_ok i pgm s).
Proof. unfold setup_ok, in_window, pages_free. apply _. Defined.

(** [pagetables_checked] as a test on the process table. *)
Definition pagetables_checkedb (s : kstate) : bool :=
  forallb (fun p =>
             if procstate_eqb (state p) P_RUNNABLE then
               match pagetables s !! pagetable p with
               | Some t => check_pagetable t
               | None => false
               end
             else true)
          (ptable s).

(** The part of a well-formed state the loader relies on: the arrays
    have their lengths and the kernel page table exists. *)
Definition wf_tables (s : kstate) : Prop :=
  Z.of_nat (length (ptable s)) = NPROC
  /\ Z.of_nat (length (physpages s)) = NPAGES
  /\ is_Some (pagetables s !! kernel_pagetable).

(** The test of [kalloc]'s loop on the page at [pa]. *)
Definition qualifies (s : kstate) (pa : Z) : Prop :=
  allocatable_physical_address pa = true /\ refcount_of s pa = Some 0.

(** The state [kalloc] leaves when it hands out the page at [pa]. *)
Definition allocated (pa : Z) (s : kstate) : kstate :=
  set_mem (memset pa 0xCC PAGESIZE (mem s))
    (set_physpages (zinsert (pa / PAGESIZE) 1 (physpages s))
       (set_next_alloc_pa (pa + PAGESIZE) s)).

(** What a run of [kalloc]'s loop from state [s] ends in: it skips the
    [k] pages from the cursor on that do not qualify, and either hands out
    the first page that does, or runs off the end of physical memory and
    returns the null pointer. *)
Definition kalloc_outcome (s : kstate) (o : outcome Z) : Prop :=
  exists k : Z,
    0 <= k
    /\ (forall j, 0 <= j < k ->
          next_alloc_pa s + j * PAGESIZE < MEMSIZE_PHYSICAL
          /\ ~ qualifies s (next_alloc_pa s + j * PAGESIZE))
    /\ let pa := next_alloc_pa s + k * PAGESIZE in
       (pa < MEMSIZE_PHYSICAL /\ qualifies s pa /\ o = Ret pa (allocated pa s))
       \/ (MEMSIZE_PHYSICAL <= pa /\ o = Ret 0 (set_next_alloc_pa pa s)).

(** The allocator's part of a well-formed state: [next_alloc_pa] is an
    unsigned multiple of the page size (it starts at 0 and moves by
    pages) and [physpages] has its [NPAGES] entries. *)
Definition wf_alloc (s : kstate) : Prop :=
  0 <= next_alloc_pa s
  /\ next_alloc_pa s mod PAGESIZE = 0
  /\ Z.of_nat (length (physpages s)) = NPAGES.

(** The machine when [kernel_start] is entered.  The globals of
    [kernel.cc] are zero-initialised; the kernel page table exists, with
    whatever entries [pt] the boot code left in it; memory holds [m]. *)
Definition boot_state (pt : gmap Z pte) (m : Z -> Z) : kstate :=
  mkstate (replicate (Z.to_nat NPROC) (mkproc 0 P_FREE (mkregs 0 0 0 0 0 0 0) 0))
          None (replicate (Z.to_nat NPAGES) 0) 0
          {[ kernel_pagetable := pt ]} m 0 0 0.

(** The states the kernel can be in while a process runs: after
    [kernel_start] has resumed the first process, after an exception or a
    system call has resumed or returned to a process, after the process
    has written to memory, and after kernel code has called [kalloc]. *)
Inductive reachable : kstate -> Prop :=
  | reach_start cmd pt m s :
      kernel_start cmd (boot_state pt m) = Resumed s -> reachable s
  | reach_exception s r s' :
      reachable s -> exception r s = Resumed s' -> reachable s'
  | reach_syscall_return s r v s' :
      reachable s -> syscall r s = Ret v s' -> reachable s'
  | reach_syscall_switch s r s' :
      reachable s -> syscall r s = Resumed s' -> reachable s'
  | reach_user_write s m :
      reachable s -> reachable (set_mem m s)
  | reach_kalloc s sz pa s' :
      reachable s -> kalloc sz s = Ret pa s' -> reachable s'.

(** The page at [pa] is eligible for allocation in state [s]: some run
    of calls of [kalloc] from [s] returns it. *)
Inductive eligible : kstate -> Z -> Prop :=
  | eligible_now s sz pa s' :
      kalloc sz s = Ret pa s' -> pa <> 0 -> eligible s pa
  | eligible_later s sz pa0 s' pa :
      kalloc sz s = Ret pa0 s' -> eligible s' pa -> eligible s pa.

(** An outcome that respects the contract of [run]: the assertion of
    [run] has not failed, and if a process was resumed, it is the
    current one and its state is RUNNABLE. *)
Definition run_safe {A : Type} (o : outcome A) : Prop :=
  match o with
  | Halted e _ => e <> assert_run_runnable
  | Resumed s' => exists c, current s' = Some c /\ runnable s' c
  | _ => True
  end.

(** A computation that never reaches [run]: it resumes no process and
    does not fail the assertion of [run]. *)
Definition plain {A : Type} (m : K A) : Prop :=
  forall s, match m s with
            | Resumed _ => False
            | Halted e _ => e <> assert_run_runnable
            | _ => True
            end.

(** [m] keeps the invariant [I], whatever it ends in. *)
Definition preserves {A : Type} (I : kstate -> Prop) (m : K A) : Prop :=
  forall s, I s ->
    match m s with
    | Ret _ s' | Resumed s' | Halted _ s' | Spinning s' => I s'
    | _ => True
    end.

(** [m] keeps the invariant [I] when it returns to its caller. *)
Definition keeps {A : Type} (I : kstate -> Prop) (m : K A) : Prop :=
  forall s a s', I s -> m s = Ret a s' -> I s'.

(** Slot [c] is the current process and is RUNNABLE. *)
Definition running (c : Z) (s : kstate) : Prop :=
  current s = Some c /\ runnable s c.

(** When [m] returns, [Q] holds. *)
Definition ensures {A : Type} (m : K A) (Q : kstate -> Prop) : Prop :=
  forall s a s', m s = Ret a s' -> Q s'.

(** *** Weakest preconditions and the invariant of the kernel *)

(** [wp m Q E s]: when [m] is run in state [s] and returns, [Q] holds of
    its value and the state it returns in; when it ends in any other
    way, [E] holds of that outcome. *)
Definition wp {A : Type} (m : K A) (Q : A -> kstate -> Prop)
    (E : outcome Empty_set -> Prop) (s : kstate) : Prop :=
  match m s with
  | Ret a s' => Q a s'
  | Resumed s' => E (Resumed s')
  | Halted e s' => E (Halted e s')
  | Spinning s' => E (Spinning s')
  | OutOfFuel => E OutOfFuel
  | Undef => E Undef
  end.

(** [I] holds of the state in which the kernel stops, resumes a process
    or spins; and [I] holds of the state in which a process is
    resumed. *)
Definition stops (I : kstate -> Prop) (o : outcome Empty_set) : Prop :=
  match o with
  | Resumed s | Halted _ s | Spinning s => I s
  | _ => True
  end.

Definition resumes (I : kstate -> Prop) (o : outcome Empty_set) : Prop :=
  match o with
  | Resumed s => I s
  | _ => True
  end.


(** What holds of the descriptor in slot [x]: no process is ever
    BLOCKED, only the slots 1 and 2 are ever used, and a slot in use has
    the kernel page table as its page table. *)
Definition slot_ok (x : Z) (p : proc) : Prop :=
  state p <> P_BLOCKED
  /\ (state p <> P_FREE -> (x = 1 \/ x = 2) /\ pagetable p = kernel_pagetable).

(** The invariant of the kernel.  The arrays have their lengths; every
    descriptor is [slot_ok]; every reference count is 0 or 1; the kernel
    page table is the only page table; the pipe holds no or one byte.
    Once [kernel_start] has set up the process table ([booted]), every
    slot holds its index as [pid] and the current process is not FREE;
    before, there is no current process. *)
Definition kernel_inv_at (booted : bool) (s : kstate) : Prop :=
  length (ptable s) = Z.to_nat NPROC
  /\ length (physpages s) = Z.to_nat NPAGES
  /\ (forall x p, zlookup (ptable s) x = Some p ->
        slot_ok x p /\ (booted = true -> pid p = x))
  /\ (if booted
      then forall c, current s = Some c ->
             exists p, zlookup (ptable s) c = Some p /\ state p <> P_FREE
      else current s = None)
  /\ (forall i rc, zlookup (physpages s) i = Some rc -> rc = 0 \/ rc = 1)
  /\ (forall pt, is_Some (pagetables s !! pt) <-> pt = kernel_pagetable)
  /\ (pipebuf_len s = 0 \/ pipebuf_len s = 1).

Definition kernel_inv : kstate -> Prop := kernel_inv_at true.

(** The invariant while [process_setup] loads slot [i]: the descriptor
    already has the kernel page table as its page table. *)
Definition setup_inv (i : Z) (s : kstate) : Prop :=
  kernel_inv s
  /\ forall p, zlookup (ptable s) i = Some p -> pagetable p = kernel_pagetable.

(** The invariant while [init_ptable] runs, the slots of [done] being
    set up. *)
Definition init_inv (done : list Z) (s : kstate) : Prop :=
  kernel_inv_at false s
  /\ forall x p, x ∈ done -> zlookup (ptable s) x = Some p -> pid p = x.

(** How [schedule] ends in a state that has the invariant: it spins, no
    slot being RUNNABLE, or it calls [run] for a RUNNABLE slot [x], which
    resumes the process unless [check_pagetable] stops the machine. *)
Definition scheduled (s : kstate) (o : outcome Empty_set) : Prop :=
  (o = Spinning s /\ forall x, ~ runnable s x)
  \/ exists x, runnable s x
       /\ (o = Resumed (set_current (Some x) s)
           \/ o = Halted assert_check_pagetable (set_current (Some x) s)).

(** One step of the machine while processes run: an exception or a
    system call that resumes a process, a system call that returns to
    its caller, a write of the running process to memory, a call of
    [kalloc] by kernel code. *)
Inductive kstep : kstate -> kstate -> Prop :=
  | step_exception s r s' :
      exception r s = Resumed s' -> kstep s s'
  | step_syscall_return s r v s' :
      syscall r s = Ret v s' -> kstep s s'
  | step_syscall_switch s r s' :
      syscall r s = Resumed s' -> kstep s s'
  | step_user_write s m :
      kstep s (set_mem m s)
  | step_kalloc s sz pa s' :
      kalloc sz s = Ret pa s' -> kstep s s'.

(** The address [a] is a byte of segment [sg] once it is loaded: one of
    the [seg_size] bytes [process_setup] clears, or of the bytes of data
    it copies.  The byte a loaded segment has there: its data, followed
    by zeroes. *)
Definition seg_touches (sg : segment) (a : Z) : Prop :=
  seg_va sg <= a < seg_va sg + seg_size sg
  \/ seg_va sg <= a < seg_va sg + seg_data_size sg.

Definition seg_byte (sg : segment) (a : Z) : Z :=
  default 0 (seg_data sg !! Z.to_nat (a - seg_va sg)).

(** The programs [kernel_start] loads for a command, as process 1 and,
    if there is one, as process 2. *)
Definition first_programs (command : string) : string * option string :=
  if program_image command is Some _ then (command, None)
  else if bool_decide (command = "pipe") then ("pipewriter", Some "pipereader")
  else ("alice", Some "eve").

(** Slot [i] holds the process loaded from the image called [name]: it
    is RUNNABLE and its [%rip] is the entry point of the image. *)
Definition loaded_from (i : Z) (name : string) (s : kstate) : Prop :=
  exists pgm, program_image name = Some pgm
    /\ forall p, zlookup (ptable s) i = Some p ->
         state p = P_RUNNABLE /\ reg_rip (regs p) = img_entry pgm.

(** What [kernel_start] has not touched when it resumes the first
    process, and the same before it has set [current]. *)
Definition untouched (cur : option Z) (s : kstate) : Prop :=
  ticks s = 1 /\ next_alloc_pa s = 0 /\ pipebuf_len s = 0 /\ current s = cur.

(** What no step of the machine undoes, [s'] being a state after [s]:
    the state of a slot is what it was or FAULTED, the page tables are
    what they were, and no reference count is smaller. *)
Definition later (s s' : kstate) : Prop :=
  (forall x, slot_state s' x = slot_state s x \/ slot_state s' x = Some P_FAULTED)
  /\ pagetables s' = pagetables s
  /\ (forall i rc, zlookup (physpages s) i = Some rc ->
        exists rc', zlookup (physpages s') i = Some rc' /\ rc <= rc').

(** The case labels of the [switch] of [syscall]; being case labels of
    one [switch], they are different numbers. *)
Definition syscall_numbers : list Z :=
  [SYSCALL_PANIC; SYSCALL_GETPID; SYSCALL_YIELD; SYSCALL_PAGE_ALLOC;
   SYSCALL_GETSYSNAME; SYSCALL_SPAWN; SYSCALL_PIPEWRITE; SYSCALL_PIPEREAD].

End Kernel.

(** ** A concrete configuration

    The values of the WeensyOS headers for the layout drawn at the top of
    [kernel.cc] (PROC_START_ADDR = 0x100000, one process every 0x40000
    bytes), with small program images.  The development is generic in
    [Config]; this module is used to run the model on concrete inputs. *)
Module WeensyOS.

(** Two pages of code and data at the start of the process window. *)
Definition two_page_image (start : Z) : image :=
  mkimage [mkseg start 0x1800 [0x55; 0x48; 0x89; 0xe5]] (start + 0x10).

(** An image for process 1 whose only segment is the topmost page of
    the window of process 1, the page [process_setup] takes for the
    stack. *)
Definition top_page_image : image :=
  mkimage [mkseg 0x13F000 0x1000 [0x90]] 0x13F000.

Definition images (name : string) : option image :=
  if bool_decide (name = "alice") then Some (two_page_image 0x100000)
  else if bool_decide (name = "eve") then Some (two_page_image 0x140000)
  else if bool_decide (name = "pipewriter") then Some (two_page_image 0x100000)
  else if bool_decide (name = "pipereader") then Some (two_page_image 0x140000)
  else if bool_decide (name = "toppage") then Some top_page_image
  else None.

(** Everything from the first process window upwards may be handed out. *)
Definition allocatable (pa : Z) : bool :=
  (0x100000 <=? pa) && (pa <? 0x200000).

(** The page of the kernel's code (0x40000) must be mapped. *)
Definition kernel_text_mapped (t : gmap Z pte) : bool :=
  bool_decide (is_Some (t !! 0x40)).

Definition config : Config := {|
  PAGESIZE := 4096;
  MEMSIZE_PHYSICAL := 0x200000;
  NPAGES := 512;
  NPROC := 16;
  PROC_START_ADDR := 0x100000;
  CONSOLE_ADDR := 0xB8000;
  PTE_P := 1;
  PTE_W := 2;
  PTE_U := 4;
  INT_PF := 14;
  INT_IRQ := 32;
  IRQ_TIMER := 0;
  SYSCALL_GETPID := 1;
  SYSCALL_YIELD := 2;
  SYSCALL_PANIC := 3;
  SYSCALL_PAGE_ALLOC := 4;
  SYSCALL_GETSYSNAME := 5;
  SYSCALL_SPAWN := 6;
  SYSCALL_PIPEWRITE := 7;
  SYSCALL_PIPEREAD := 8;
  kernel_pagetable := 0x1000;
  allocatable_physical_address := allocatable;
  check_pagetable := kernel_text_mapped;
  init_regs := fun _ => mkregs 0 0 0 0 0 0 0;
  program_image := images;
  WEENSYOS_FIRST_PROCESS := "default"
|}.

(** The machine when [kernel_start] is entered: the kernel page table is
    empty and the byte at address [a] is [a mod 251]. *)
Definition boot : kstate :=
  boot_state (cfg := config) ∅ (fun a => a mod 251).

(** The machine once [kernel_start] has run without a command: no image
    is called "default", so it has loaded "alice" as process 1 and "eve"
    as process 2, and resumed process 1. *)
Definition started : kstate :=
  match kernel_start (cfg := config) None boot with
  | Resumed s => s
  | _ => boot
  end.

(** A descriptor as it is at boot. *)
Definition free_proc : proc := mkproc 0 P_FREE (mkregs 0 0 0 0 0 0 0) 0.

(** The states after loading "alice" as process 1 and then "eve" as
    process 2 from [boot]. *)
Definition alice_loaded : kstate :=
  setup_done (cfg := config) 1 (two_page_image 0x100000) free_proc boot.
Definition eve_loaded : kstate :=
  setup_done (cfg := config) 2 (two_page_image 0x140000) free_proc alice_loaded.

(** The descriptor of process 1 in [started]. *)
Definition alice : proc :=
  mkproc 1 P_RUNNABLE (mkregs 0 0 0 0x100010 0x140000 0 0) 0x1000.

(** The registers at a page fault (interrupt 14) of a user process that
    wrote to a missing page (error code: user and write bits). *)
Definition user_fault : regstate := mkregs 0 0 0 0x100020 0x13FFF0 14 6.

(** A machine without a process: every slot is FREE, and [current]
    points to slot 1. *)
Definition idle : kstate := set_current (Some 1) boot.

(** The machine after the page fault [user_fault] of process 1. *)
Definition faulted : kstate :=
  match exception (cfg := config) user_fault started with
  | Resumed s => s
  | _ => started
  end.

(** The machine after a first call [kalloc(100)], and a machine whose
    allocator has reached the end of physical memory. *)
Definition after_kalloc : kstate :=
  match kalloc (cfg := config) 100 boot with
  | Ret _ s => s
  | _ => boot
  end.

Definition exhausted : kstate := set_next_alloc_pa 0x200000 boot.

(** The registers at a system call of process 1: [sys_getpid()],
    [sys_yield()], [sys_getsysname(0x110000)] and
    [sys_page_alloc(0x200000)], and at a timer interrupt. *)
Definition at_syscall (rax rdi : Z) : regstate :=
  mkregs rax rdi 0 0x100020 0x13FFF0 0 0.
Definition getpid_regs : regstate := at_syscall 1 0.
Definition yield_regs : regstate := at_syscall 2 0.
Definition timer_regs : regstate := mkregs 0 0 0 0x100020 0x13FFF0 32 0.

(** The memory viewer switched on, before its first call. *)
Definition viewer : memviewer := mkviewer true 0 0.

End WeensyOS.

(** ** Reasoning about [K] *)

Ltac kunfold :=
  unfold noreturn, exception_return, mbind, mret, fmap, K_bind, K_ret, K_fmap,
    bind, ret, get, modify, assert, panic, must, undef in *.

Section Proofs.

Context {cfg : Config}.

(** Assumptions on the constants, each used only where it is named:
    pages are not empty, [physpages] has one entry per page of physical
    memory, and physical addresses are far from the end of [uintptr_t]. *)
Hypothesis PAGESIZE_pos : 0 < PAGESIZE.
Hypothesis MEMSIZE_pages : MEMSIZE_PHYSICAL = NPAGES * PAGESIZE.
Hypothesis MEMSIZE_fits : MEMSIZE_PHYSICAL + PAGESIZE <= 2 ^ 64.

Lemma bind_Ret {A B : Type} (m : K A) (f : A -> K B) (s s' : kstate) (a : A) :
  m s = Ret a s' -> (m ≫= f) s = f a s'.
Proof. intros H. kunfold. rewrite H. reflexivity. Qed.

Lemma bind_Halted {A B : Type} (m : K A) (f : A -> K B) (s s' : kstate) (e : fatal) :
  m s = Halted e s' -> (m ≫= f) s = Halted e s'.
Proof. intros H. kunfold. rewrite H. reflexivity. Qed.

Lemma assert_true (b : bool) (e : fatal) (s : kstate) :
  b = true -> assert b e s = Ret tt s.
Proof. intros ->. reflexivity. Qed.

Lemma assert_false (b : bool) (e : fatal) (s : kstate) :
  b = false -> assert b e s = Halted e s.
Proof. intros ->. reflexivity. Qed.

(** *** The pipe *)

(** C2.  The one-byte pipe, for every state [s] and all buffers [wbuf],
    [rbuf] with sizes [wsz], [rsz] of at least 1.  A write or read of size
    0 returns 0 and changes nothing.  On an empty pipe ([pipebuf_len = 0])
    the write returns 1 and stores exactly the first byte of the caller's
    buffer, [mem s wbuf], whatever [wsz] is; the read that follows returns
    1, stores that byte at [rbuf], changes no other byte of memory and
    leaves the pipe empty.  On a full pipe ([pipebuf_len = 1]) the write
    returns -1 and changes nothing; on an empty pipe the read returns -1
    and changes nothing. *)
Theorem pipe_write_read (s : kstate) (wbuf rbuf wsz rsz : Z)
    (Hw : 1 <= wsz) (Hr : 1 <= rsz) :
  (syscall_pipewrite wbuf 0 s = Ret 0 s /\ syscall_piperead rbuf 0 s = Ret 0 s)
  /\ (pipebuf_len s = 0 ->
      let s1 := set_pipebuf_len 1 (set_pipebuf (mem s wbuf) s) in
      syscall_pipewrite wbuf wsz s = Ret 1 s1
      /\ exists s2,
          syscall_piperead rbuf rsz s1 = Ret 1 s2
          /\ mem s2 rbuf = mem s wbuf
          /\ (forall a, a <> rbuf -> mem s2 a = mem s a)
          /\ pipebuf_len s2 = 0)
  /\ (pipebuf_len s = 1 -> syscall_pipewrite wbuf wsz s = Ret (-1) s)
  /\ (pipebuf_len s = 0 -> syscall_piperead rbuf rsz s = Ret (-1) s).
Proof.
  assert (Hwz : (wsz =? 0) = false) by lia.
  assert (Hrz : (rsz =? 0) = false) by lia.
  split; [split; reflexivity|].
  split; [|split].
  - intros Hlen s1. split.
    + unfold syscall_pipewrite. kunfold. rewrite Hwz, Hlen. reflexivity.
    + unfold syscall_piperead. kunfold. rewrite Hrz. simpl.
      eexists. split; [reflexivity|]. simpl. unfold store_byte.
      split; [|split].
      * rewrite Z.eqb_refl. reflexivity.
      * intros a Ha. replace (a =? rbuf) with false by lia. reflexivity.
      * reflexivity.
  - intros Hlen. unfold syscall_pipewrite. kunfold.
    rewrite Hwz, Hlen. reflexivity.
  - intros Hlen. unfold syscall_piperead. kunfold.
    rewrite Hrz, Hlen. reflexivity.
Qed.

(** *** kalloc *)

Lemma zlookup_Some {A : Type} (l : list A) (i : Z) :
  0 <= i < Z.of_nat (length l) -> exists x, zlookup l i = Some x.
Proof.
  intros Hi. unfold zlookup.
  replace (0 <=? i) with true by lia.
  apply lookup_lt_is_Some_2. lia.
Qed.

Lemma zlookup_zinsert_eq {A : Type} (l : list A) (i : Z) (x : A) :
  0 <= i < Z.of_nat (length l) -> zlookup (zinsert i x l) i = Some x.
Proof.
  intros Hi. unfold zlookup, zinsert.
  replace (0 <=? i) with true by lia.
  apply list_lookup_insert_eq. lia.
Qed.

Lemma zlookup_zinsert_ne {A : Type} (l : list A) (i j : Z) (x : A) :
  0 <= i -> i <> j -> zlookup (zinsert i x l) j = zlookup l j.
Proof.
  intros Hi Hne. unfold zlookup, zinsert.
  destruct (0 <=? j) eqn:Hj; [|reflexivity].
  apply list_lookup_insert_ne. lia.
Qed.

Lemma zlookup_bounds {A : Type} (l : list A) (i : Z) (x : A) :
  zlookup l i = Some x -> 0 <= i < Z.of_nat (length l).
Proof.
  unfold zlookup. destruct (0 <=? i) eqn:Hi; [|discriminate].
  intros H. apply lookup_lt_Some in H. lia.
Qed.

Lemma length_zinsert {A : Type} (l : list A) (i : Z) (x : A) :
  length (zinsert i x l) = length l.
Proof. apply length_insert. Qed.

Lemma wrap64_small (z : Z) : 0 <= z < 2 ^ 64 -> wrap64 z = z.
Proof. intros H. unfold wrap64. apply Z.mod_small. exact H. Qed.

Lemma set_next_alloc_pa_id (s : kstate) :
  set_next_alloc_pa (next_alloc_pa s) s = s.
Proof. destruct s. reflexivity. Qed.

Lemma page_index_bounds (pa : Z) :
  0 <= pa < MEMSIZE_PHYSICAL -> 0 <= pa / PAGESIZE < NPAGES.
Proof.
  intros H. split.
  - apply Z.div_pos; lia.
  - apply Z.div_lt_upper_bound; lia.
Qed.

(** Skipping the page at the cursor. *)
Lemma kalloc_outcome_skip (s : kstate) (o : outcome Z) :
  next_alloc_pa s < MEMSIZE_PHYSICAL ->
  ~ qualifies s (next_alloc_pa s) ->
  kalloc_outcome (set_next_alloc_pa (next_alloc_pa s + PAGESIZE) s) o ->
  kalloc_outcome s o.
Proof.
  intros Hlt Hnq (k & Hk & Hskip & Hres). simpl in Hskip, Hres.
  exists (k + 1). split; [lia|]. split.
  - intros j Hj. destruct (decide (j = 0)) as [->|Hj0].
    + rewrite Z.mul_0_l, Z.add_0_r. auto.
    + specialize (Hskip (j - 1) ltac:(lia)).
      replace (next_alloc_pa s + PAGESIZE + (j - 1) * PAGESIZE)
        with (next_alloc_pa s + j * PAGESIZE) in Hskip by lia.
      exact Hskip.
  - replace (next_alloc_pa s + (k + 1) * PAGESIZE)
      with (next_alloc_pa s + PAGESIZE + k * PAGESIZE) by lia.
    exact Hres.
Qed.

Lemma aligned_add (a k : Z) :
  a mod PAGESIZE = 0 -> (a + k * PAGESIZE) mod PAGESIZE = 0.
Proof. intros H. rewrite Z_mod_plus_full. exact H. Qed.

Lemma kalloc_loop_spec (fuel : nat) (s : kstate) :
  wf_alloc s ->
  (1 <= fuel)%nat ->
  MEMSIZE_PHYSICAL - next_alloc_pa s <= (Z.of_nat fuel - 1) * PAGESIZE ->
  kalloc_outcome s (kalloc_loop fuel s).
Proof.
  revert s. induction fuel as [|n IH]; intros s (Hc & Hal & Hlen) Hfuel Hrem; [lia|].
  simpl kalloc_loop. kunfold.
  destruct (next_alloc_pa s <? MEMSIZE_PHYSICAL) eqn:Hlt.
  2:{ exists 0. split; [lia|]. split; [intros; lia|]. right.
      split; [lia|]. rewrite Z.mul_0_l, Z.add_0_r, set_next_alloc_pa_id.
      reflexivity. }
  apply Z.ltb_lt in Hlt.
  rewrite wrap64_small by lia.
  set (s1 := set_next_alloc_pa (next_alloc_pa s + PAGESIZE) s).
  assert (Hrec : kalloc_outcome s1 (kalloc_loop n s1)).
  { apply IH; [|nia|simpl; lia].
    split; [simpl; lia|]. split; [|exact Hlen].
    simpl. rewrite <- (Z.mul_1_l PAGESIZE) at 1. apply aligned_add, Hal. }
  destruct (zlookup_Some (physpages s) (next_alloc_pa s / PAGESIZE)) as [rc Hrc].
  { rewrite Hlen. apply page_index_bounds. lia. }
  destruct (allocatable_physical_address (next_alloc_pa s)) eqn:Ha.
  - unfold refcount. kunfold. simpl. rewrite Hrc. kunfold.
    destruct (rc =? 0) eqn:Hz.
    + apply Z.eqb_eq in Hz. subst rc.
      exists 0. split; [lia|]. split; [intros; lia|]. left.
      rewrite Z.mul_0_l, Z.add_0_r.
      split; [lia|]. split; [split; assumption|].
      unfold incr_refcount, refcount. kunfold. simpl. rewrite Hrc.
      reflexivity.
    + apply kalloc_outcome_skip; [lia| |exact Hrec].
      intros [_ Hq]. unfold refcount_of in Hq. rewrite Hrc in Hq.
      injection Hq as ->. discriminate.
  - apply kalloc_outcome_skip; [lia| |exact Hrec].
    intros [Hq _]. congruence.
Qed.

Lemma kalloc_budget_enough (s : kstate) :
  MEMSIZE_PHYSICAL - next_alloc_pa s
  <= (Z.of_nat (kalloc_budget s) - 1) * PAGESIZE.
Proof.
  unfold kalloc_budget.
  assert (Hne : PAGESIZE <> 0) by lia.
  pose proof (Z.div_mod (MEMSIZE_PHYSICAL - next_alloc_pa s) PAGESIZE Hne) as Hdm.
  pose proof (Z.mod_pos_bound (MEMSIZE_PHYSICAL - next_alloc_pa s) PAGESIZE PAGESIZE_pos) as Hm.
  nia.
Qed.

Lemma kalloc_small (s : kstate) (sz : Z) :
  wf_alloc s -> sz <= PAGESIZE -> kalloc_outcome s (kalloc sz s).
Proof.
  intros Hwf Hsz. unfold kalloc.
  replace (PAGESIZE <? sz) with false by lia.
  kunfold. apply kalloc_loop_spec; [exact Hwf|unfold kalloc_budget; lia|].
  apply kalloc_budget_enough.
Qed.

Lemma kalloc_big (s : kstate) (sz : Z) :
  PAGESIZE < sz -> kalloc sz s = Ret 0 s.
Proof.
  intros Hsz. unfold kalloc.
  replace (PAGESIZE <? sz) with true by lia. reflexivity.
Qed.

Lemma refcount_of_allocated (s : kstate) (pa : Z) :
  wf_alloc s -> 0 <= pa < MEMSIZE_PHYSICAL ->
  refcount_of (allocated pa s) pa = Some 1.
Proof.
  intros (_ & _ & Hlen) Hpa. unfold refcount_of, allocated. simpl.
  apply zlookup_zinsert_eq. rewrite Hlen. apply page_index_bounds. exact Hpa.
Qed.

Lemma wf_alloc_allocated (s : kstate) (pa : Z) :
  wf_alloc s -> 0 <= pa -> pa mod PAGESIZE = 0 -> wf_alloc (allocated pa s).
Proof.
  intros (Hc & Hal & Hlen) Hpa Hpal. split; [simpl; lia|]. split; simpl.
  - rewrite <- (Z.mul_1_l PAGESIZE) at 1. apply aligned_add, Hpal.
  - rewrite length_zinsert. exact Hlen.
Qed.

(** A call of [kalloc] that returns a page: what the page and the new
    state are. *)
Lemma kalloc_success (s : kstate) (sz pa : Z) (s' : kstate) :
  wf_alloc s -> kalloc sz s = Ret pa s' -> pa <> 0 ->
  sz <= PAGESIZE
  /\ next_alloc_pa s <= pa < MEMSIZE_PHYSICAL
  /\ pa mod PAGESIZE = 0
  /\ qualifies s pa
  /\ s' = allocated pa s.
Proof.
  intros Hwf Hk Hpa.
  destruct (Z.ltb_spec PAGESIZE sz) as [Hbig|Hsmall].
  { rewrite kalloc_big in Hk by exact Hbig. congruence. }
  split; [exact Hsmall|].
  destruct (kalloc_small s sz Hwf Hsmall) as (k & Hk0 & _ & [(Hlt & Hq & Hr)|(_ & Hr)]);
    rewrite Hk in Hr; injection Hr as Hpa' Hs'; [|congruence].
  subst pa. destruct Hwf as (Hc & Hal & _).
  split; [nia|]. split; [apply aligned_add, Hal|]. split; [exact Hq|exact Hs'].
Qed.

(** [kalloc] always returns, in a well-formed state, with the cursor
    where it was or further on. *)
Lemma kalloc_returns (s : kstate) (sz : Z) :
  wf_alloc s ->
  exists pa s', kalloc sz s = Ret pa s'
                /\ wf_alloc s' /\ next_alloc_pa s <= next_alloc_pa s'.
Proof.
  intros Hwf.
  destruct (Z.ltb_spec PAGESIZE sz) as [Hbig|Hsmall].
  { exists 0, s. rewrite kalloc_big by exact Hbig. repeat split; try apply Hwf. lia. }
  destruct (kalloc_small s sz Hwf Hsmall) as (k & Hk0 & _ & [(Hlt & Hq & Hr)|(Hge & Hr)]);
    rewrite Hr; eexists _, _; (split; [reflexivity|]).
  - destruct Hwf as (Hc & Hal & Hlen). split; [|simpl; nia].
    apply wf_alloc_allocated; [repeat split; assumption|nia|apply aligned_add, Hal].
  - destruct Hwf as (Hc & Hal & Hlen). split; [|simpl; nia].
    split; [simpl; nia|]. split; [apply aligned_add, Hal|exact Hlen].
Qed.

(** C3.  [kalloc] in a state whose allocator part is well formed.
    (1) A request of more than a page returns the null pointer and changes
    nothing.  (2) Every call returns: it neither stops the machine nor runs
    forever, and it never moves the cursor back.  (3) When no page from
    the cursor to the end of physical memory qualifies, in particular
    when the cursor has reached the end, the call returns the null
    pointer and leaves reference counts and memory as they are.  (4) A
    call that returns a page [pa] was asked for at most a page; [pa] is
    a page-aligned address at or after the cursor, allocatable and with
    reference count 0; its count is 1 afterwards and each of its
    [PAGESIZE] bytes is 0xCC; and a call that follows and returns a page
    returns a different physical page. *)
Theorem kalloc_spec (s : kstate) (sz : Z) (Hwf : wf_alloc s) :
  (PAGESIZE < sz -> kalloc sz s = Ret 0 s)
  /\ (exists pa s', kalloc sz s = Ret pa s'
                    /\ wf_alloc s' /\ next_alloc_pa s <= next_alloc_pa s')
  /\ ((forall pa, next_alloc_pa s <= pa < MEMSIZE_PHYSICAL -> ~ qualifies s pa) ->
      exists s', kalloc sz s = Ret 0 s'
                 /\ physpages s' = physpages s /\ mem s' = mem s)
  /\ (forall pa s', kalloc sz s = Ret pa s' -> pa <> 0 ->
        sz <= PAGESIZE
        /\ (next_alloc_pa s <= pa < MEMSIZE_PHYSICAL /\ pa mod PAGESIZE = 0)
        /\ allocatable_physical_address pa = true
        /\ refcount_of s pa = Some 0
        /\ refcount_of s' pa = Some 1
        /\ (forall a, pa <= a < pa + PAGESIZE -> mem s' a = 0xCC)
        /\ (forall sz2 pa2 s2, kalloc sz2 s' = Ret pa2 s2 -> pa2 <> 0 ->
              pa2 / PAGESIZE <> pa / PAGESIZE)).
Proof.
  split; [apply kalloc_big|].
  split; [|split].
  - apply kalloc_returns, Hwf.
  - intros Hnone.
    destruct (Z.ltb_spec PAGESIZE sz) as [Hbig|Hsmall].
    { exists s. rewrite kalloc_big by exact Hbig. auto. }
    destruct (kalloc_small s sz Hwf Hsmall) as (k & Hk0 & _ & [(Hlt & Hq & Hr)|(Hge & Hr)]).
    + exfalso. apply (Hnone (next_alloc_pa s + k * PAGESIZE)); [nia|exact Hq].
    + rewrite Hr. eexists. split; [reflexivity|]. split; reflexivity.
  - intros pa s' Hk Hpa.
    destruct (kalloc_success s sz pa s' Hwf Hk Hpa) as (Hsz & Hrange & Hpal & [Ha Hrc] & ->).
    assert (Hpa0 : 0 <= pa < MEMSIZE_PHYSICAL) by (destruct Hwf; lia).
    split; [exact Hsz|]. split; [split; assumption|].
    split; [exact Ha|]. split; [exact Hrc|].
    split; [apply refcount_of_allocated; assumption|]. split.
    + intros a Ha'. simpl. unfold memset.
      replace ((pa <=? a) && (a <? pa + PAGESIZE)) with true by lia.
      reflexivity.
    + intros sz2 pa2 s2 Hk2 Hpa2 Heq.
      assert (Hwf' : wf_alloc (allocated pa s))
        by (apply wf_alloc_allocated; [exact Hwf|lia|exact Hpal]).
      destruct (kalloc_success _ sz2 pa2 s2 Hwf' Hk2 Hpa2) as (_ & _ & _ & [_ Hrc2] & _).
      unfold refcount_of in Hrc2. rewrite Heq in Hrc2.
      pose proof (refcount_of_allocated s pa Hwf Hpa0) as H1.
      unfold refcount_of in H1. congruence.
Qed.

(** *** Loops *)

Lemma range_nil (lo hi d : Z) : 0 < d -> hi <= lo -> range lo hi d = [].
Proof.
  intros Hd Hle. unfold range.
  replace (Z.to_nat ((hi - lo + d - 1) / d)) with 0%nat; [reflexivity|].
  assert ((hi - lo + d - 1) / d < 1) by (apply Z.div_lt_upper_bound; lia).
  lia.
Qed.

Lemma range_cons (lo hi d : Z) :
  0 < d -> lo < hi -> range lo hi d = lo :: range (lo + d) hi d.
Proof.
  intros Hd Hlt. unfold range.
  replace (hi - lo + d - 1) with ((hi - (lo + d) + d - 1) + 1 * d) by lia.
  rewrite Z.div_add by lia.
  assert (0 <= (hi - (lo + d) + d - 1) / d) by (apply Z.div_pos; lia).
  replace (Z.to_nat ((hi - (lo + d) + d - 1) / d + 1))
    with (S (Z.to_nat ((hi - (lo + d) + d - 1) / d))) by lia.
  simpl. f_equal; [lia|].
  rewrite <- fmap_S_seq, <- list_fmap_compose.
  apply list_fmap_ext. intros _ k _. simpl. lia.
Qed.

Lemma elem_of_range (lo hi d a : Z) :
  0 < d ->
  a ∈ range lo hi d <-> exists k, 0 <= k /\ a = lo + k * d /\ a < hi.
Proof.
  intros Hd. unfold range. rewrite list_elem_of_fmap. split.
  - intros (k & -> & Hk). apply elem_of_seq in Hk.
    exists (Z.of_nat k). split; [lia|]. split; [reflexivity|].
    assert (Z.of_nat k < (hi - lo + d - 1) / d) as Hlt by lia.
    apply Z.lt_le_pred in Hlt.
    assert (d * Z.of_nat k <= hi - lo - 1); [|lia].
    transitivity (d * Z.pred ((hi - lo + d - 1) / d)); [nia|].
    pose proof (Z.mul_div_le (hi - lo + d - 1) d Hd). lia.
  - intros (k & Hk & -> & Hlt). exists (Z.to_nat k).
    split; [lia|]. apply elem_of_seq. split; [lia|]. simpl.
    assert (k < (hi - lo + d - 1) / d); [|lia].
    assert (k + 1 <= (hi - lo + d - 1) / d); [|lia].
    apply Z.div_le_lower_bound; [lia|nia].
Qed.

Lemma foreach_app {A : Type} (l1 l2 : list A) (body : A -> K unit) (s : kstate) :
  foreach (l1 ++ l2) body s = (foreach l1 body;; foreach l2 body) s.
Proof.
  revert s. induction l1 as [|x l1 IH]; intros s; simpl; kunfold.
  - reflexivity.
  - destruct (body x s); try reflexivity. apply IH.
Qed.

Lemma foreach_ext {A : Type} (l : list A) (f g : A -> K unit) (s : kstate) :
  (forall x s, f x s = g x s) -> foreach l f s = foreach l g s.
Proof.
  intros Hfg. revert s. induction l as [|x l IH]; intros s; simpl; kunfold.
  - reflexivity.
  - rewrite Hfg. destruct (g x s); try reflexivity. apply IH.
Qed.

(** A counting loop whose budget covers its range runs its body on the
    values of the range, in order. *)
Lemma for_loop_range (fuel : nat) (hi d : Z) (step : Z -> Z)
    (body : Z -> K unit) (a : Z) (s : kstate) :
  0 < d ->
  (forall x, a <= x < hi -> step x = x + d) ->
  (1 <= fuel)%nat ->
  hi - a <= (Z.of_nat fuel - 1) * d ->
  for_loop fuel (fun x => x <? hi) step body a s = foreach (range a hi d) body s.
Proof.
  intros Hd. revert a s.
  induction fuel as [|n IH]; intros a s Hstep Hfuel Hrem; [lia|].
  simpl. destruct (Z.ltb_spec a hi) as [Hlt|Hge].
  - rewrite range_cons by lia. simpl. kunfold.
    destruct (body a s); try reflexivity.
    rewrite Hstep by lia. apply IH; [intros; apply Hstep; lia|nia|lia].
  - rewrite range_nil by lia. reflexivity.
Qed.

(** *** Page tables *)

Lemma vmiter_map_spec (pt va pa perm : Z) (s : kstate) (t : gmap Z pte) :
  pagetables s !! pt = Some t ->
  vmiter_map pt va pa perm s
  = Ret tt (set_pagetables (<[pt := <[va / PAGESIZE := (pa, perm)]> t]> (pagetables s)) s).
Proof. intros Ht. unfold vmiter_map. kunfold. rewrite Ht. reflexivity. Qed.

Lemma foreach_map (pt : Z) (f : Z -> pte) (l : list Z) (s : kstate) (t : gmap Z pte) :
  pagetables s !! pt = Some t ->
  foreach l (fun va => vmiter_map pt va (f va).1 (f va).2) s
  = Ret tt (set_pagetables (<[pt := mapped_all f l t]> (pagetables s)) s).
Proof.
  revert s t. induction l as [|va l IH]; intros s t Ht; simpl.
  - unfold mapped_all. simpl. rewrite insert_id by exact Ht.
    destruct s; reflexivity.
  - kunfold. rewrite (vmiter_map_spec _ _ _ _ _ t Ht).
    erewrite IH by (simpl; apply lookup_insert_eq).
    simpl. rewrite insert_insert_eq. rewrite <- surjective_pairing.
    reflexivity.
Qed.

Lemma mapped_all_other (f : Z -> pte) (l : list Z) (t : gmap Z pte) (k : Z) :
  k ∉ (fun a => a / PAGESIZE) <$> l -> mapped_all f l t !! k = t !! k.
Proof.
  revert t. induction l as [|x l IH]; intros t Hk; [reflexivity|].
  simpl in *. apply not_elem_of_cons in Hk as [Hx Hl].
  unfold mapped_all in *. simpl. rewrite IH by exact Hl.
  apply lookup_insert_ne. congruence.
Qed.

(** The entry of a page that [l] names once is the one given for it. *)
Lemma mapped_all_lookup (f : Z -> pte) (l : list Z) (t : gmap Z pte) (v : Z) :
  v ∈ l ->
  (forall v', v' ∈ l -> v' / PAGESIZE = v / PAGESIZE -> v' = v) ->
  mapped_all f l t !! (v / PAGESIZE) = Some (f v).
Proof.
  revert t. induction l as [|x l IH]; intros t Hin Huniq.
  - inversion Hin.
  - unfold mapped_all in *. simpl.
    destruct (decide (v ∈ l)) as [Hl|Hl].
    + apply IH; [exact Hl|]. intros v' Hv'. apply Huniq. right. exact Hv'.
    + apply elem_of_cons in Hin as [->|Hin]; [|contradiction].
      fold (mapped_all f l (<[x / PAGESIZE := f x]> t)).
      rewrite mapped_all_other; [apply lookup_insert_eq|].
      intros Hk. apply list_elem_of_fmap in Hk as (v' & Heq & Hv').
      apply Hl. rewrite <- (Huniq v'); [exact Hv'|right; exact Hv'|congruence].
Qed.

Lemma budget_enough (x : Z) : x <= Z.of_nat (Z.to_nat (x / PAGESIZE + 1)) * PAGESIZE.
Proof.
  assert (Hne : PAGESIZE <> 0) by lia.
  pose proof (Z.div_mod x PAGESIZE Hne) as Hdm.
  pose proof (Z.mod_pos_bound x PAGESIZE PAGESIZE_pos) as Hm.
  nia.
Qed.

Lemma round_down_spec (x : Z) :
  round_down x PAGESIZE = x / PAGESIZE * PAGESIZE
  /\ round_down x PAGESIZE <= x < round_down x PAGESIZE + PAGESIZE.
Proof.
  unfold round_down.
  assert (Hne : PAGESIZE <> 0) by lia.
  pose proof (Z.div_mod x PAGESIZE Hne) as Hdm.
  pose proof (Z.mod_pos_bound x PAGESIZE PAGESIZE_pos) as Hm.
  lia.
Qed.

Lemma land_lor_l (a b : Z) : Z.land (Z.lor a b) a = a.
Proof.
  apply Z.bits_inj'. intros n _. rewrite Z.land_spec, Z.lor_spec.
  destruct (Z.testbit a n), (Z.testbit b n); reflexivity.
Qed.

Lemma land_lor_r (a b : Z) : Z.land (Z.lor a b) b = b.
Proof. rewrite Z.lor_comm. apply land_lor_l. Qed.

(** The first loop of [kernel_start] maps every page below
    [MEMSIZE_PHYSICAL] to itself with the permissions [kernel_perm]. *)
Lemma init_kernel_pagetable_spec (s : kstate) (t : gmap Z pte) :
  pagetables s !! kernel_pagetable = Some t ->
  init_kernel_pagetable s
  = Ret tt (set_pagetables
              (<[kernel_pagetable :=
                   mapped_all (fun va => (va, kernel_perm va))
                     (range 0 MEMSIZE_PHYSICAL PAGESIZE) t]> (pagetables s)) s).
Proof.
  intros Ht. unfold init_kernel_pagetable.
  rewrite for_loop_range with (d := PAGESIZE).
  - rewrite <- (foreach_map _ (fun va => (va, kernel_perm va)) _ _ _ Ht).
    apply foreach_ext. intros va s0. unfold kernel_perm, PTE_PWU. simpl.
    destruct (va =? CONSOLE_ADDR); [reflexivity|].
    destruct (va =? 0); reflexivity.
  - exact PAGESIZE_pos.
  - intros x Hx. apply wrap64_small. lia.
  - lia.
  - pose proof (budget_enough MEMSIZE_PHYSICAL). lia.
Qed.

(** The second loop of [kernel_start] visits the slots 0, 1, ... below
    [NPROC]. *)
Lemma init_ptable_foreach (s : kstate) :
  init_ptable s
  = foreach (range 0 NPROC 1)
      (fun i => update_proc i (set_pid i);; update_proc i (set_state P_FREE)) s.
Proof.
  unfold init_ptable. apply for_loop_range; [lia|reflexivity|lia|lia].
Qed.

(** C7.  After the first loop of [kernel_start], every address [va]
    below [MEMSIZE_PHYSICAL] is mapped to itself: the entry of its page
    holds the page's own address.  The page at address 0 has no
    permission bit at all; the console page is present, writable and
    user-accessible; every other page is present and writable and not
    user-accessible.  Assumed: the kernel page table exists, the console
    is a page of physical memory other than page 0, and the three
    permission bits are non-zero with the user bit apart from the other
    two. *)
Theorem kernel_pagetable_identity (s : kstate)
    (Hpt : is_Some (pagetables s !! kernel_pagetable))
    (Hconsole : 0 < CONSOLE_ADDR < MEMSIZE_PHYSICAL /\ CONSOLE_ADDR mod PAGESIZE = 0)
    (Hbits : PTE_P <> 0 /\ PTE_W <> 0 /\ PTE_U <> 0
             /\ Z.land PTE_P PTE_U = 0 /\ Z.land PTE_W PTE_U = 0) :
  exists s',
    init_kernel_pagetable s = Ret tt s'
    /\ forall va, 0 <= va < MEMSIZE_PHYSICAL ->
        let page := round_down va PAGESIZE in
        exists perm,
          vmiter_lookup s' kernel_pagetable va = Some (page, perm)
          /\ (page = 0 -> perm = 0)
          /\ (page = CONSOLE_ADDR ->
               present perm /\ writable perm /\ user_accessible perm)
          /\ (page <> 0 -> page <> CONSOLE_ADDR ->
               present perm /\ writable perm /\ ~ user_accessible perm).
Proof.
  destruct Hpt as [t Ht]. destruct Hconsole as [Hc Hcal].
  destruct Hbits as (HP & HW & HU & HPU & HWU).
  eexists. split; [apply init_kernel_pagetable_spec, Ht|].
  intros va Hva page.
  destruct (round_down_spec va) as [Hpage Hrange]. fold page in Hpage, Hrange.
  assert (Hdiv : page / PAGESIZE = va / PAGESIZE).
  { rewrite Hpage. apply Z.div_mul. lia. }
  exists (kernel_perm page). split.
  - unfold vmiter_lookup. simpl. rewrite lookup_insert_eq. simpl.
    rewrite <- Hdiv.
    apply (mapped_all_lookup (fun va => (va, kernel_perm va))).
    + apply elem_of_range; [exact PAGESIZE_pos|].
      exists (va / PAGESIZE). split; [apply Z.div_pos; lia|]. lia.
    + intros v' Hv' Heq.
      apply elem_of_range in Hv' as (k & Hk & -> & _); [|exact PAGESIZE_pos].
      rewrite Z.add_0_l, Z.div_mul in Heq by lia. lia.
  - unfold kernel_perm, present, writable, user_accessible, PTE_PWU.
    split; [|split].
    + intros H0. rewrite H0.
      replace (0 =? CONSOLE_ADDR) with false by lia. reflexivity.
    + intros ->. rewrite Z.eqb_refl.
      rewrite land_lor_r.
      rewrite (Z.land_lor_distr_l (Z.lor PTE_P PTE_W) PTE_U PTE_P), land_lor_l.
      rewrite (Z.land_lor_distr_l (Z.lor PTE_P PTE_W) PTE_U PTE_W), land_lor_r.
      split; [|split]; try assumption.
      * intros H. apply Z.lor_eq_0_iff in H as [H _]. contradiction.
      * intros H. apply Z.lor_eq_0_iff in H as [H _]. contradiction.
    + intros H0 Hcon.
      replace (page =? CONSOLE_ADDR) with false by lia.
      replace (page =? 0) with false by lia. simpl.
      rewrite land_lor_l, land_lor_r, Z.land_lor_distr_l, HPU, HWU.
      split; [|split]; try assumption. intros H. apply H. reflexivity.
Qed.

(** *** The process table *)

Lemma update_proc_spec (i : Z) (f : proc -> proc) (s : kstate) (p : proc) :
  zlookup (ptable s) i = Some p ->
  update_proc i f s = Ret tt (with_proc i (f p) s).
Proof. intros Hp. unfold update_proc, proc_at. kunfold. rewrite Hp. reflexivity. Qed.

Lemma proc_at_spec (i : Z) (s : kstate) (p : proc) :
  zlookup (ptable s) i = Some p -> proc_at i s = Ret p s.
Proof. intros Hp. unfold proc_at. kunfold. rewrite Hp. reflexivity. Qed.

Lemma with_proc_lookup (i : Z) (p q : proc) (s : kstate) :
  zlookup (ptable s) i = Some q -> zlookup (ptable (with_proc i p s)) i = Some p.
Proof. intros Hq. simpl. apply zlookup_zinsert_eq. eapply zlookup_bounds, Hq. Qed.

Lemma with_proc_lookup_ne (i j : Z) (p : proc) (s : kstate) :
  0 <= i -> i <> j -> zlookup (ptable (with_proc i p s)) j = zlookup (ptable s) j.
Proof. intros Hi Hne. simpl. apply zlookup_zinsert_ne; assumption. Qed.

Lemma with_proc_twice (i : Z) (p q : proc) (s : kstate) :
  with_proc i p (with_proc i q s) = with_proc i p s.
Proof.
  unfold with_proc, set_ptable, zinsert. simpl.
  rewrite list_insert_insert_eq. reflexivity.
Qed.

(** *** Loading pages *)

Lemma refcount_spec (i : Z) (s : kstate) (rc : Z) :
  zlookup (physpages s) i = Some rc -> refcount i s = Ret rc s.
Proof. intros H. unfold refcount. kunfold. rewrite H. reflexivity. Qed.

Lemma incr_refcount_spec (i : Z) (s : kstate) (rc : Z) :
  zlookup (physpages s) i = Some rc ->
  incr_refcount i s = Ret tt (set_physpages (zinsert i (rc + 1) (physpages s)) s).
Proof.
  intros H. unfold incr_refcount. kunfold.
  rewrite (refcount_spec _ _ _ H). reflexivity.
Qed.

Lemma load_page_ok (i f l a pt : Z) (s : kstate) (p : proc) :
  zlookup (ptable s) i = Some p -> pagetable p = pt ->
  is_Some (pagetables s !! pt) ->
  f <= a < l -> refcount_of s a = Some 0 ->
  load_page i f l a s = Ret tt (page_loaded pt a s).
Proof.
  intros Hp Hpt [t Ht] Hwin Hrc. unfold load_page.
  erewrite bind_Ret by (apply assert_true; lia).
  erewrite bind_Ret by (apply refcount_spec, Hrc).
  erewrite bind_Ret by (apply assert_true; reflexivity).
  erewrite bind_Ret by (apply incr_refcount_spec, Hrc).
  erewrite bind_Ret by (apply proc_at_spec; simpl; exact Hp).
  rewrite Hpt. erewrite vmiter_map_spec by (simpl; exact Ht).
  unfold page_loaded. rewrite Ht. reflexivity.
Qed.

Lemma load_page_window (i f l a : Z) (s : kstate) :
  ~ (f <= a < l) -> load_page i f l a s = Halted assert_window s.
Proof.
  intros Hwin. unfold load_page.
  apply bind_Halted, assert_false. lia.
Qed.

Lemma load_page_owned (i f l a rc : Z) (s : kstate) :
  f <= a < l -> refcount_of s a = Some rc -> rc <> 0 ->
  load_page i f l a s = Halted assert_segment_refcount s.
Proof.
  intros Hwin Hrc Hne. unfold load_page.
  erewrite bind_Ret by (apply assert_true; lia).
  erewrite bind_Ret by (apply refcount_spec, Hrc).
  apply bind_Halted, assert_false. lia.
Qed.

Lemma refcount_of_page_loaded (pt a b : Z) (s : kstate) :
  0 <= a / PAGESIZE < Z.of_nat (length (physpages s)) ->
  refcount_of (page_loaded pt a s) b
  = if decide (b / PAGESIZE = a / PAGESIZE) then Some 1 else refcount_of s b.
Proof.
  intros Ha. unfold refcount_of, page_loaded. simpl.
  destruct (decide (b / PAGESIZE = a / PAGESIZE)) as [->|Hne].
  - apply zlookup_zinsert_eq. exact Ha.
  - apply zlookup_zinsert_ne; [lia|congruence].
Qed.

Lemma pages_free_cons (pt a : Z) (l : list Z) (s : kstate) :
  0 <= a / PAGESIZE < Z.of_nat (length (physpages s)) ->
  pages_free s (a :: l)
  <-> refcount_of s a = Some 0 /\ pages_free (page_loaded pt a s) l.
Proof.
  intros Ha. unfold pages_free. rewrite Forall_cons, fmap_cons, NoDup_cons.
  rewrite !Forall_forall.
  setoid_rewrite refcount_of_page_loaded; [|exact Ha..].
  rewrite list_elem_of_fmap. split.
  - intros ((Hrc & Hall) & Hnin & Hnd). split; [exact Hrc|]. split; [|exact Hnd].
    intros b Hb. destruct (decide (b / PAGESIZE = a / PAGESIZE)) as [Heq|Hne].
    + exfalso. apply Hnin. exists b. split; [congruence|exact Hb].
    + apply Hall, Hb.
  - intros (Hrc & Hall & Hnd). split; [split; [exact Hrc|]|split; [|exact Hnd]].
    + intros b Hb. specialize (Hall b Hb).
      destruct (decide (b / PAGESIZE = a / PAGESIZE)); [discriminate|exact Hall].
    + intros (b & Heq & Hb). specialize (Hall b Hb).
      destruct (decide (b / PAGESIZE = a / PAGESIZE)); [discriminate|congruence].
Qed.

Lemma window_page_index (i a : Z) (s : kstate) :
  0 <= first_addr i -> last_addr i <= MEMSIZE_PHYSICAL ->
  Z.of_nat (length (physpages s)) = NPAGES ->
  first_addr i <= a < last_addr i ->
  0 <= a / PAGESIZE < Z.of_nat (length (physpages s)).
Proof. intros Hf Hl Hlen Ha. rewrite Hlen. apply page_index_bounds. lia. Qed.

(** Loading the pages of [l] one after the other either succeeds, when
    they lie in the window and are free and different, or stops at the
    first page that is not, on the assertion that page fails. *)
Lemma load_pages_spec (i pt : Z) (p : proc) (l : list Z) (s : kstate) :
  0 <= first_addr i -> last_addr i <= MEMSIZE_PHYSICAL ->
  zlookup (ptable s) i = Some p -> pagetable p = pt ->
  is_Some (pagetables s !! pt) ->
  Z.of_nat (length (physpages s)) = NPAGES ->
  (in_window i l /\ pages_free s l
   /\ foreach l (load_page i (first_addr i) (last_addr i)) s
      = Ret tt (pages_loaded pt l s))
  \/ (~ (in_window i l /\ pages_free s l)
      /\ exists e s',
          foreach l (load_page i (first_addr i) (last_addr i)) s = Halted e s'
          /\ (e = assert_window \/ e = assert_segment_refcount)
          /\ ptable s' = ptable s).
Proof.
  intros Hf Hl. revert s.
  induction l as [|a l IH]; intros s Hp Hpt Hstore Hlen.
  { left. split; [apply Forall_nil_2|]. split; [|reflexivity].
    split; [apply Forall_nil_2|apply NoDup_nil_2]. }
  simpl foreach.
  destruct (decide (first_addr i <= a < last_addr i)) as [Hwin|Hwin].
  2:{ right. split.
      - intros [Hw _]. apply Forall_cons in Hw as [Hw _]. contradiction.
      - exists assert_window, s. split; [|auto].
        apply bind_Halted, load_page_window, Hwin. }
  pose proof (window_page_index i a s Hf Hl Hlen Hwin) as Hidx.
  destruct (zlookup_Some (physpages s) (a / PAGESIZE) Hidx) as [rc Hrc].
  destruct (decide (rc = 0)) as [->|Hne].
  2:{ right. split.
      - intros [_ [Hfree _]]. apply Forall_cons in Hfree as [Hfree _].
        unfold refcount_of in Hfree. congruence.
      - exists assert_segment_refcount, s. split; [|auto].
        eapply bind_Halted, load_page_owned; eassumption. }
  erewrite bind_Ret by (eapply load_page_ok; eassumption).
  destruct (IH (page_loaded pt a s)) as [(Hw & Hfree & Hrun)|(Hbad & e & s' & Hrun & He & Hpt')].
  - exact Hp.
  - exact Hpt.
  - simpl. rewrite lookup_insert_eq. eauto.
  - simpl. rewrite length_zinsert. exact Hlen.
  - left. split; [apply Forall_cons; split; assumption|].
    split; [apply (pages_free_cons pt); [exact Hidx|split; assumption]|].
    exact Hrun.
  - right. split.
    + intros [Hw Hfree]. apply Hbad.
      apply Forall_cons in Hw as [_ Hw]. split; [exact Hw|].
      apply (pages_free_cons pt) in Hfree; [tauto|exact Hidx].
    + exists e, s'. split; [exact Hrun|]. split; [exact He|exact Hpt'].
Qed.

(** The inner loop of [process_setup] runs [load_page] on the pages of
    the segment, whatever the segment is: an iteration that returns has
    stayed inside the window. *)
Lemma load_loop_foreach (fuel : nat) (i hi a : Z) (s : kstate) :
  0 <= first_addr i -> last_addr i + PAGESIZE <= 2 ^ 64 ->
  (1 <= fuel)%nat ->
  (first_addr i <= a < last_addr i ->
   last_addr i - a <= (Z.of_nat fuel - 1) * PAGESIZE) ->
  for_loop fuel (fun x => x <? hi) (fun x => wrap64 (x + PAGESIZE))
    (load_page i (first_addr i) (last_addr i)) a s
  = foreach (range a hi PAGESIZE) (load_page i (first_addr i) (last_addr i)) s.
Proof.
  intros Hf Hl. revert a s.
  induction fuel as [|n IH]; intros a s Hfuel Hrem; [lia|].
  simpl. destruct (Z.ltb_spec a hi) as [Hlt|Hge].
  2:{ rewrite range_nil by lia. reflexivity. }
  rewrite range_cons by lia. simpl.
  destruct (decide (first_addr i <= a < last_addr i)) as [Hwin|Hwin].
  - specialize (Hrem Hwin). rewrite wrap64_small by lia. kunfold.
    destruct (load_page _ _ _ a s); try reflexivity.
    apply IH; [nia|lia].
  - rewrite !(bind_Halted _ _ _ _ _ (load_page_window i _ _ a s Hwin)).
    reflexivity.
Qed.

Lemma foreach_concat {A B : Type} (g : A -> list B) (body : B -> K unit)
    (l : list A) (s : kstate) :
  foreach l (fun x => foreach (g x) body) s = foreach (concat (g <$> l)) body s.
Proof.
  revert s. induction l as [|x l IH]; intros s; [reflexivity|].
  simpl. rewrite foreach_app. kunfold.
  destruct (foreach (g x) body s); try reflexivity. apply IH.
Qed.

Lemma pages_loaded_with_proc (pt i : Z) (q : proc) (l : list Z) (s : kstate) :
  pages_loaded pt l (with_proc i q s) = with_proc i q (pages_loaded pt l s).
Proof.
  revert s. induction l as [|a l IH]; intros s; [reflexivity|].
  simpl. rewrite <- IH. reflexivity.
Qed.

Lemma segments_copied_with_proc (i : Z) (q : proc) (segs : list segment) (s : kstate) :
  segments_copied segs (with_proc i q s) = with_proc i q (segments_copied segs s).
Proof.
  revert s. induction segs as [|sg segs IH]; intros s; [reflexivity|].
  simpl. rewrite <- IH. reflexivity.
Qed.

Lemma pages_loaded_fields (pt : Z) (l : list Z) (s : kstate) :
  ptable (pages_loaded pt l s) = ptable s
  /\ length (physpages (pages_loaded pt l s)) = length (physpages s)
  /\ next_alloc_pa (pages_loaded pt l s) = next_alloc_pa s
  /\ current (pages_loaded pt l s) = current s
  /\ (is_Some (pagetables s !! pt) -> is_Some (pagetables (pages_loaded pt l s) !! pt)).
Proof.
  revert s. induction l as [|a l IH]; intros s; [auto|].
  simpl. destruct (IH (page_loaded pt a s)) as (H1 & H2 & H3 & H4 & H5).
  rewrite H1, H2, H3, H4. simpl. rewrite length_zinsert.
  repeat split. intros _. apply H5. simpl. rewrite lookup_insert_eq. eauto.
Qed.

Lemma segments_copied_fields (segs : list segment) (s : kstate) :
  ptable (segments_copied segs s) = ptable s
  /\ physpages (segments_copied segs s) = physpages s
  /\ pagetables (segments_copied segs s) = pagetables s
  /\ next_alloc_pa (segments_copied segs s) = next_alloc_pa s
  /\ current (segments_copied segs s) = current s.
Proof.
  revert s. induction segs as [|sg segs IH]; intros s; [auto|].
  simpl. destruct (IH (set_mem (memcpy (seg_va sg) (seg_data sg) (seg_data_size sg)
                         (memset (seg_va sg) 0 (seg_size sg) (mem s))) s))
    as (H1 & H2 & H3 & H4 & H5).
  rewrite H1, H2, H3, H4, H5. auto.
Qed.

Lemma copy_segments_spec (segs : list segment) (s : kstate) :
  foreach segs (fun seg =>
    modify (fun s => set_mem (memset (seg_va seg) 0 (seg_size seg) (mem s)) s);;
    modify (fun s => set_mem (memcpy (seg_va seg) (seg_data seg)
                                     (seg_data_size seg) (mem s)) s)) s
  = Ret tt (segments_copied segs s).
Proof.
  revert s. induction segs as [|sg segs IH]; intros s; [reflexivity|].
  simpl. kunfold. simpl. rewrite IH. reflexivity.
Qed.

Lemma pages_free_app (pt : Z) (l l2 : list Z) (s : kstate) :
  Forall (fun a => 0 <= a / PAGESIZE < Z.of_nat (length (physpages s))) l ->
  pages_free s (l ++ l2)
  <-> pages_free s l /\ pages_free (pages_loaded pt l s) l2.
Proof.
  revert s. induction l as [|a l IH]; intros s Hidx.
  - simpl. split; [intros H; split; [|exact H]|tauto].
    split; [apply Forall_nil_2|apply NoDup_nil_2].
  - apply Forall_cons in Hidx as [Ha Hidx]. simpl.
    rewrite !(pages_free_cons pt) by exact Ha.
    rewrite IH; [tauto|].
    simpl. rewrite length_zinsert. exact Hidx.
Qed.

(** *** process_setup *)

Lemma image_loop_foreach (i : Z) (pgm : image) (s : kstate) :
  0 <= first_addr i -> last_addr i <= MEMSIZE_PHYSICAL ->
  foreach (img_segs pgm) (fun seg =>
    for_loop window_budget
      (fun a => a <? wrap64 (seg_va seg + seg_size seg))
      (fun a => wrap64 (a + PAGESIZE))
      (load_page i (first_addr i) (last_addr i))
      (round_down (seg_va seg) PAGESIZE)) s
  = foreach (image_pages pgm) (load_page i (first_addr i) (last_addr i)) s.
Proof.
  intros Hf Hl. unfold image_pages. rewrite <- foreach_concat.
  apply foreach_ext. intros sg s0. unfold seg_pages.
  apply load_loop_foreach; [exact Hf|lia|unfold window_budget; lia|].
  intros Hwin. unfold window_budget.
  pose proof (budget_enough PROC_SIZE).
  unfold first_addr, last_addr in *. lia.
Qed.

(** What [process_setup] does, in a state where the descriptor [i] and
    the kernel page table exist and the window of [i] is physical
    memory: it returns in the state [setup_done] when [setup_ok] holds,
    and otherwise stops on one of its three assertions, the state of
    the descriptor being what it was. *)
Lemma process_setup_cases (i : Z) (name : string) (pgm : image) (p : proc) (s : kstate) :
  PAGESIZE <= PROC_SIZE ->
  0 <= first_addr i -> last_addr i <= MEMSIZE_PHYSICAL ->
  wf_tables s ->
  zlookup (ptable s) i = Some p ->
  program_image name = Some pgm ->
  (setup_ok i pgm s /\ process_setup i name s = Ret tt (setup_done i pgm p s))
  \/ (~ setup_ok i pgm s
      /\ exists e s',
          process_setup i name s = Halted e s'
          /\ (e = assert_window \/ e = assert_segment_refcount
              \/ e = assert_stack_refcount)
          /\ state <$> zlookup (ptable s') i = Some (state p)).
Proof.
  intros Hps Hf Hl (Hnproc & Hnpages & Hkpt) Hp Himg.
  assert (Hfl : last_addr i = first_addr i + PROC_SIZE)
    by (unfold first_addr, last_addr; lia).
  unfold process_setup, init_process.
  erewrite bind_Ret by (apply update_proc_spec, Hp).
  fold (first_addr i) (last_addr i).
  rewrite (wrap64_small (first_addr i)), (wrap64_small (last_addr i)) by lia.
  erewrite bind_Ret by (eapply update_proc_spec, with_proc_lookup, Hp).
  rewrite with_proc_twice. rewrite Himg.
  erewrite bind_Ret by reflexivity.
  set (p2 := set_pagetable kernel_pagetable (set_regs (init_regs 0) p)).
  set (s2 := with_proc i p2 s).
  assert (Hp2 : zlookup (ptable s2) i = Some p2) by (eapply with_proc_lookup, Hp).
  change (last_addr i - PAGESIZE) with (stack_addr i).
  assert (Hst : first_addr i <= stack_addr i < last_addr i)
    by (unfold stack_addr; lia).
  rewrite (wrap64_small (stack_addr i)) by lia.
  replace (stack_addr i + PAGESIZE) with (last_addr i) by (unfold stack_addr; lia).
  rewrite (wrap64_small (last_addr i)) by lia.
  pose proof (image_loop_foreach i pgm s2 Hf Hl) as Hloop.
  set (L := image_pages pgm) in *.
  assert (Hrange : in_window i L ->
            Forall (fun a => 0 <= a / PAGESIZE < Z.of_nat (length (physpages s))) L).
  { intros Hw. eapply Forall_impl; [exact Hw|].
    intros a Ha. apply (window_page_index i); assumption. }
  destruct (load_pages_spec i kernel_pagetable p2 L s2 Hf Hl Hp2 eq_refl Hkpt Hnpages)
    as [(Hw & Hfree & Hrun)|(Hbad & e & s' & Hrun & He & Hpt')];
    rewrite <- Hloop in Hrun.
  2:{ right. split.
      - intros [Hw Hfree]. apply Hbad. split; [exact Hw|].
        apply (pages_free_app kernel_pagetable) in Hfree; [|apply Hrange, Hw].
        apply Hfree.
      - exists e, s'. split; [apply bind_Halted, Hrun|]. split; [tauto|].
        rewrite Hpt', Hp2. reflexivity. }
  erewrite bind_Ret by exact Hrun.
  erewrite bind_Ret by apply copy_segments_spec.
  unfold s2. rewrite pages_loaded_with_proc, segments_copied_with_proc.
  set (S4 := segments_copied (img_segs pgm) (pages_loaded kernel_pagetable L s)).
  destruct (segments_copied_fields (img_segs pgm) (pages_loaded kernel_pagetable L s))
    as (Hc1 & Hc2 & Hc3 & _).
  destruct (pages_loaded_fields kernel_pagetable L s) as (Hl1 & Hl2 & _ & _ & Hl5).
  fold S4 in Hc1, Hc2, Hc3.
  assert (Hp4 : zlookup (ptable S4) i = Some p) by (rewrite Hc1, Hl1; exact Hp).
  erewrite bind_Ret by (eapply update_proc_spec, with_proc_lookup, Hp4).
  rewrite with_proc_twice.
  set (p3 := set_regs _ p2).
  destruct (zlookup_Some (physpages S4) (stack_addr i / PAGESIZE)) as [rc Hrc].
  { rewrite Hc2, Hl2. apply (window_page_index i); assumption. }
  erewrite bind_Ret by (apply refcount_spec; simpl; exact Hrc).
  assert (Hstack : pages_free s (L ++ [stack_addr i]) <-> rc = 0).
  { rewrite (pages_free_app kernel_pagetable) by (apply Hrange, Hw).
    split.
    - intros [_ [Hrc' _]]. apply Forall_cons in Hrc' as [Hrc' _].
      unfold refcount_of in Hrc'. rewrite <- Hc2, Hrc in Hrc'. congruence.
    - intros ->. split; [exact Hfree|]. split.
      + apply Forall_cons. split; [|apply Forall_nil_2].
        unfold refcount_of. rewrite <- Hc2. exact Hrc.
      + apply NoDup_singleton. }
  destruct (decide (rc = 0)) as [->|Hne].
  2:{ right. split.
      - intros [_ Hfree']. apply Hne, Hstack, Hfree'.
      - eexists _, _. split.
        + apply bind_Halted, assert_false. lia.
        + split; [tauto|]. erewrite with_proc_lookup by exact Hp4. reflexivity. }
  left. split; [split; [exact Hw|apply Hstack; reflexivity]|].
  erewrite bind_Ret by (apply assert_true; reflexivity).
  erewrite bind_Ret by (apply incr_refcount_spec; simpl; exact Hrc).
  erewrite bind_Ret by (apply proc_at_spec; simpl; eapply with_proc_lookup, Hp4).
  destruct (Hl5 Hkpt) as [t4 Ht4]. rewrite <- Hc3 in Ht4.
  erewrite bind_Ret by (apply vmiter_map_spec; simpl; exact Ht4).
  assert (Hi : 0 <= i < Z.of_nat (length (ptable S4))) by (eapply zlookup_bounds, Hp4).
  erewrite bind_Ret
    by (apply update_proc_spec; simpl; apply zlookup_zinsert_eq; exact Hi).
  erewrite update_proc_spec
    by (simpl; apply zlookup_zinsert_eq; rewrite length_zinsert; exact Hi).
  f_equal. unfold setup_done. fold L S4.
  unfold with_proc, page_loaded, set_ptable, set_pagetables, set_physpages, zinsert.
  simpl. rewrite !list_insert_insert_eq, Ht4. reflexivity.
Qed.

(** The state [setup_done], field by field. *)

Lemma pages_loaded_snoc (pt a : Z) (l : list Z) (s : kstate) :
  pages_loaded pt (l ++ [a]) s = page_loaded pt a (pages_loaded pt l s).
Proof. unfold pages_loaded. rewrite foldl_app. reflexivity. Qed.

Lemma pages_loaded_store (pt : Z) (l : list Z) (s : kstate) (t : gmap Z pte) :
  pagetables s !! pt = Some t ->
  pagetables (pages_loaded pt l s)
  = <[pt := mapped_all (fun a => (a, PTE_PWU)) l t]> (pagetables s).
Proof.
  revert s t. induction l as [|a l IH]; intros s t Ht.
  - simpl. rewrite insert_id by exact Ht. reflexivity.
  - simpl. erewrite IH by (simpl; apply lookup_insert_eq).
    simpl. rewrite Ht. simpl. rewrite insert_insert_eq. reflexivity.
Qed.

Lemma refcount_of_pages_loaded (pt : Z) (l : list Z) (s : kstate) (b : Z) :
  Forall (fun a => 0 <= a / PAGESIZE < Z.of_nat (length (physpages s))) l ->
  refcount_of (pages_loaded pt l s) b
  = if decide (b / PAGESIZE ∈ (fun a => a / PAGESIZE) <$> l) then Some 1
    else refcount_of s b.
Proof.
  revert s. induction l as [|a l IH]; intros s Hidx.
  - reflexivity.
  - apply Forall_cons in Hidx as [Ha Hidx]. simpl.
    rewrite IH by (simpl; rewrite length_zinsert; exact Hidx).
    rewrite refcount_of_page_loaded by exact Ha.
    repeat case_decide; try reflexivity; exfalso;
      rewrite elem_of_cons in *; tauto.
Qed.

Lemma setup_done_as_pages_loaded (i : Z) (pgm : image) (p : proc) (s : kstate) :
  setup_done i pgm p s
  = with_proc i (proc_ready i pgm p)
      (segments_copied (img_segs pgm)
         (pages_loaded kernel_pagetable (image_pages pgm ++ [stack_addr i]) s)).
Proof.
  unfold setup_done. rewrite pages_loaded_snoc. f_equal.
  generalize (pages_loaded kernel_pagetable (image_pages pgm) s) as s0.
  induction (img_segs pgm) as [|sg segs IH]; intros s0; [reflexivity|].
  simpl. rewrite IH. reflexivity.
Qed.

Lemma setup_done_pagetables (i : Z) (pgm : image) (p : proc) (s : kstate)
    (t : gmap Z pte) :
  pagetables s !! kernel_pagetable = Some t ->
  pagetables (setup_done i pgm p s)
  = <[kernel_pagetable :=
        mapped_all (fun a => (a, PTE_PWU)) (image_pages pgm ++ [stack_addr i]) t]>
      (pagetables s).
Proof.
  intros Ht. rewrite setup_done_as_pages_loaded. simpl.
  destruct (segments_copied_fields (img_segs pgm)
              (pages_loaded kernel_pagetable (image_pages pgm ++ [stack_addr i]) s))
    as (_ & _ & -> & _).
  apply pages_loaded_store, Ht.
Qed.

Lemma setup_done_refcount (i : Z) (pgm : image) (p : proc) (s : kstate) (b : Z) :
  Forall (fun a => 0 <= a / PAGESIZE < Z.of_nat (length (physpages s)))
         (image_pages pgm ++ [stack_addr i]) ->
  refcount_of (setup_done i pgm p s) b
  = if decide (b / PAGESIZE ∈ (fun a => a / PAGESIZE) <$> (image_pages pgm ++ [stack_addr i]))
    then Some 1 else refcount_of s b.
Proof.
  intros Hidx. rewrite setup_done_as_pages_loaded.
  rewrite <- (refcount_of_pages_loaded kernel_pagetable) by exact Hidx.
  unfold refcount_of. simpl.
  destruct (segments_copied_fields (img_segs pgm)
              (pages_loaded kernel_pagetable (image_pages pgm ++ [stack_addr i]) s))
    as (_ & -> & _). reflexivity.
Qed.

Lemma setup_done_fields (i : Z) (pgm : image) (p : proc) (s : kstate) :
  ptable (setup_done i pgm p s) = zinsert i (proc_ready i pgm p) (ptable s)
  /\ length (physpages (setup_done i pgm p s)) = length (physpages s)
  /\ next_alloc_pa (setup_done i pgm p s) = next_alloc_pa s
  /\ current (setup_done i pgm p s) = current s.
Proof.
  rewrite setup_done_as_pages_loaded. simpl.
  destruct (segments_copied_fields (img_segs pgm)
              (pages_loaded kernel_pagetable (image_pages pgm ++ [stack_addr i]) s))
    as (-> & -> & _ & -> & ->).
  destruct (pages_loaded_fields kernel_pagetable (image_pages pgm ++ [stack_addr i]) s)
    as (-> & -> & -> & -> & _).
  auto.
Qed.

(** The pages a successful [process_setup] touches are pages of physical
    memory, are mapped for user access, and no two of them share a page
    table entry. *)
Lemma setup_ok_pages (i : Z) (pgm : image) (s : kstate) :
  PAGESIZE <= PROC_SIZE ->
  0 <= first_addr i -> last_addr i <= MEMSIZE_PHYSICAL ->
  Z.of_nat (length (physpages s)) = NPAGES ->
  setup_ok i pgm s ->
  Forall (fun a => 0 <= a / PAGESIZE < Z.of_nat (length (physpages s)))
         (image_pages pgm ++ [stack_addr i]).
Proof.
  intros Hps Hf Hl Hlen [Hw _]. apply Forall_app. split.
  - eapply Forall_impl; [exact Hw|].
    intros a Ha. apply (window_page_index i); assumption.
  - apply Forall_cons. split; [|apply Forall_nil_2].
    apply (window_page_index i); try assumption.
    unfold stack_addr, first_addr, last_addr in *. lia.
Qed.

Lemma setup_done_lookup (i : Z) (pgm : image) (p : proc) (s : kstate) (a : Z) :
  is_Some (pagetables s !! kernel_pagetable) ->
  setup_ok i pgm s ->
  a ∈ image_pages pgm ++ [stack_addr i] ->
  vmiter_lookup (setup_done i pgm p s) kernel_pagetable a = Some (a, PTE_PWU).
Proof.
  intros [t Ht] [_ [_ Hnd]] Ha. unfold vmiter_lookup.
  rewrite (setup_done_pagetables _ _ _ _ _ Ht), lookup_insert_eq. simpl.
  apply (mapped_all_lookup (fun a => (a, PTE_PWU))); [exact Ha|].
  intros a' Ha' Heq.
  apply list_elem_of_lookup in Ha as [n Hn], Ha' as [n' Hn'].
  assert (n' = n); [|congruence].
  eapply NoDup_lookup; [exact Hnd| |]; rewrite list_lookup_fmap.
  - rewrite Hn'. reflexivity.
  - rewrite Hn. simpl. f_equal. symmetry. exact Heq.
Qed.

Lemma setup_done_lookup_other (i : Z) (pgm : image) (p : proc) (s : kstate) (a : Z) :
  is_Some (pagetables s !! kernel_pagetable) ->
  a / PAGESIZE ∉ (fun a => a / PAGESIZE) <$> (image_pages pgm ++ [stack_addr i]) ->
  vmiter_lookup (setup_done i pgm p s) kernel_pagetable a
  = vmiter_lookup s kernel_pagetable a.
Proof.
  intros [t Ht] Ha. unfold vmiter_lookup.
  rewrite (setup_done_pagetables _ _ _ _ _ Ht), lookup_insert_eq, Ht. simpl.
  apply mapped_all_other, Ha.
Qed.

(** C4, as amended.  [process_setup] for a process [i] whose descriptor
    exists and whose window is physical memory, on the image [pgm].
    If every page of every segment lies in the window of [i], and these
    pages and the topmost page of the window are free (reference count 0)
    and pairwise different pages ([setup_ok]), the call returns with the
    descriptor RUNNABLE, its [%rip] the entry point of the image, its
    [%rsp] the end of the window, and the topmost page of the window
    mapped to itself for user access with reference count 1.  If not,
    the call stops the machine on one of its three assertions and the
    state of the descriptor is what it was before the call. *)
Theorem process_setup_runnable (i : Z) (name : string) (pgm : image)
    (p : proc) (s : kstate)
    (Hps : PAGESIZE <= PROC_SIZE)
    (Hf : 0 <= first_addr i) (Hl : last_addr i <= MEMSIZE_PHYSICAL)
    (Hwf : wf_tables s)
    (Hp : zlookup (ptable s) i = Some p)
    (Himg : program_image name = Some pgm) :
  (setup_ok i pgm s ->
   exists s' p',
     process_setup i name s = Ret tt s'
     /\ zlookup (ptable s') i = Some p'
     /\ state p' = P_RUNNABLE
     /\ reg_rip (regs p') = img_entry pgm
     /\ reg_rsp (regs p') = last_addr i
     /\ stack_addr i + PAGESIZE = last_addr i
     /\ vmiter_lookup s' (pagetable p') (stack_addr i) = Some (stack_addr i, PTE_PWU)
     /\ refcount_of s' (stack_addr i) = Some 1)
  /\ (~ setup_ok i pgm s ->
      exists e s',
        process_setup i name s = Halted e s'
        /\ (e = assert_window \/ e = assert_segment_refcount
            \/ e = assert_stack_refcount)
        /\ state <$> zlookup (ptable s') i = Some (state p)).
Proof.
  destruct (process_setup_cases i name pgm p s Hps Hf Hl Hwf Hp Himg)
    as [[Hok Hrun]|[Hbad Hrun]]; split; intros H; try contradiction.
  2:{ exact Hrun. }
  destruct Hwf as (_ & Hlen & Hkpt).
  exists (setup_done i pgm p s), (proc_ready i pgm p).
  split; [exact Hrun|].
  split.
  { destruct (setup_done_fields i pgm p s) as (-> & _).
    apply zlookup_zinsert_eq. eapply zlookup_bounds, Hp. }
  split; [reflexivity|]. split; [reflexivity|]. split; [reflexivity|].
  split; [unfold stack_addr; lia|].
  split.
  - apply setup_done_lookup; [exact Hkpt|exact Hok|].
    apply elem_of_app. right. apply list_elem_of_singleton. reflexivity.
  - rewrite setup_done_refcount by (apply setup_ok_pages; assumption).
    rewrite decide_True; [reflexivity|].
    rewrite fmap_app. apply elem_of_app. right.
    apply list_elem_of_singleton. reflexivity.
Qed.

(** C10.  Two processes [i] and [j] loaded one after the other by
    [process_setup]: both descriptors hold the pointer
    [kernel_pagetable], so both use the one kernel page table, and in
    it every page loaded for either of them (the pages of its segments
    and its stack page) is mapped to itself with the permissions
    [PTE_P | PTE_W | PTE_U], which are present, writable and
    user-accessible when these bits are not zero: each process can read
    and write the pages of the other. *)
Theorem shared_kernel_pagetable (i j : Z) (name1 name2 : string)
    (pgm1 pgm2 : image) (p q : proc) (s s1 s2 : kstate)
    (Hps : PAGESIZE <= PROC_SIZE)
    (Hfi : 0 <= first_addr i) (Hli : last_addr i <= MEMSIZE_PHYSICAL)
    (Hfj : 0 <= first_addr j) (Hlj : last_addr j <= MEMSIZE_PHYSICAL)
    (Hij : i <> j)
    (Hwf : wf_tables s)
    (Hp : zlookup (ptable s) i = Some p)
    (Hq : zlookup (ptable s) j = Some q)
    (Himg1 : program_image name1 = Some pgm1)
    (Himg2 : program_image name2 = Some pgm2)
    (Hrun1 : process_setup i name1 s = Ret tt s1)
    (Hrun2 : process_setup j name2 s1 = Ret tt s2) :
  exists pi pj,
    zlookup (ptable s2) i = Some pi /\ zlookup (ptable s2) j = Some pj
    /\ pagetable pi = kernel_pagetable /\ pagetable pj = kernel_pagetable
    /\ (forall a,
          a ∈ (image_pages pgm1 ++ [stack_addr i])
              ++ (image_pages pgm2 ++ [stack_addr j]) ->
          vmiter_lookup s2 (pagetable pi) a = Some (a, PTE_PWU)
          /\ vmiter_lookup s2 (pagetable pj) a = Some (a, PTE_PWU))
    /\ (PTE_P <> 0 -> PTE_W <> 0 -> PTE_U <> 0 ->
        present PTE_PWU /\ writable PTE_PWU /\ user_accessible PTE_PWU).
Proof.
  destruct (process_setup_cases i name1 pgm1 p s Hps Hfi Hli Hwf Hp Himg1)
    as [[Hok1 Hr1]|[_ (e & s' & Hr1 & _)]]; [|congruence].
  rewrite Hr1 in Hrun1. injection Hrun1 as <-.
  destruct Hwf as (Hnproc & Hlen & Hkpt).
  destruct (setup_done_fields i pgm1 p s) as (Hpt1 & Hlen1 & _).
  assert (Hi : 0 <= i < Z.of_nat (length (ptable s))) by (eapply zlookup_bounds, Hp).
  assert (Hj : 0 <= j < Z.of_nat (length (ptable s))) by (eapply zlookup_bounds, Hq).
  assert (Hkpt1 : is_Some (pagetables (setup_done i pgm1 p s) !! kernel_pagetable)).
  { destruct Hkpt as [t Ht].
    rewrite (setup_done_pagetables _ _ _ _ _ Ht), lookup_insert_eq. eauto. }
  assert (Hwf1 : wf_tables (setup_done i pgm1 p s)).
  { split; [rewrite Hpt1, length_zinsert; exact Hnproc|].
    split; [rewrite Hlen1; exact Hlen|exact Hkpt1]. }
  assert (Hq1 : zlookup (ptable (setup_done i pgm1 p s)) j = Some q).
  { rewrite Hpt1, zlookup_zinsert_ne by lia. exact Hq. }
  destruct (process_setup_cases j name2 pgm2 q _ Hps Hfj Hlj Hwf1 Hq1 Himg2)
    as [[Hok2 Hr2]|[_ (e & s' & Hr2 & _)]]; [|congruence].
  rewrite Hr2 in Hrun2. injection Hrun2 as <-.
  destruct (setup_done_fields j pgm2 q (setup_done i pgm1 p s)) as (Hpt2 & _).
  exists (proc_ready i pgm1 p), (proc_ready j pgm2 q).
  split.
  { rewrite Hpt2, zlookup_zinsert_ne, Hpt1 by lia.
    apply zlookup_zinsert_eq. exact Hi. }
  split.
  { rewrite Hpt2. apply zlookup_zinsert_eq.
    rewrite Hpt1, length_zinsert. exact Hj. }
  split; [reflexivity|]. split; [reflexivity|]. split.
  - intros a Ha. simpl.
    assert (vmiter_lookup (setup_done j pgm2 q (setup_done i pgm1 p s))
              kernel_pagetable a = Some (a, PTE_PWU)); [|auto].
    destruct (decide (a ∈ image_pages pgm2 ++ [stack_addr j])) as [Ha2|Ha2].
    { apply setup_done_lookup; assumption. }
    apply elem_of_app in Ha as [Ha1|Ha2']; [|contradiction].
    rewrite setup_done_lookup_other; [apply setup_done_lookup; assumption|exact Hkpt1|].
    intros Hkey. apply list_elem_of_fmap in Hkey as (b & Heq & Hb).
    destruct Hok2 as [_ [Hfree2 _]].
    rewrite Forall_forall in Hfree2. specialize (Hfree2 b Hb).
    rewrite setup_done_refcount in Hfree2 by (apply setup_ok_pages; assumption).
    rewrite decide_True in Hfree2; [discriminate|].
    rewrite <- Heq. apply list_elem_of_fmap. exists a. auto.
  - intros HP HW HU. unfold present, writable, user_accessible, PTE_PWU.
    rewrite land_lor_r.
    rewrite (Z.land_lor_distr_l (Z.lor PTE_P PTE_W) PTE_U PTE_P), land_lor_l.
    rewrite (Z.land_lor_distr_l (Z.lor PTE_P PTE_W) PTE_U PTE_W), land_lor_r.
    split; [|split]; [| |exact HU];
      intros H; apply Z.lor_eq_0_iff in H as [H _]; contradiction.
Qed.

(** *** run and schedule *)

Lemma procstate_eqb_eq (a b : procstate) : procstate_eqb a b = true <-> a = b.
Proof. destruct a, b; simpl; split; intros H; congruence. Qed.

Lemma run_runnable (x : Z) (s : kstate) (p : proc) (t : gmap Z pte) :
  zlookup (ptable s) x = Some p -> state p = P_RUNNABLE ->
  pagetables s !! pagetable p = Some t -> check_pagetable t = true ->
  run x s = Resumed (set_current (Some x) s).
Proof.
  intros Hp Hst Ht Hck. unfold run.
  erewrite bind_Ret by (apply proc_at_spec, Hp).
  erewrite bind_Ret by (apply assert_true; rewrite Hst; reflexivity).
  erewrite bind_Ret by reflexivity.
  erewrite bind_Ret by reflexivity.
  erewrite bind_Ret by (simpl; rewrite Ht; reflexivity).
  erewrite bind_Ret by (apply assert_true, Hck).
  reflexivity.
Qed.

Lemma run_not_runnable (x : Z) (s : kstate) (p : proc) :
  zlookup (ptable s) x = Some p -> state p <> P_RUNNABLE ->
  run x s = Halted assert_run_runnable s.
Proof.
  intros Hp Hst. unfold run.
  erewrite bind_Ret by (apply proc_at_spec, Hp).
  apply bind_Halted, assert_false.
  destruct (procstate_eqb (state p) P_RUNNABLE) eqn:E; [|reflexivity].
  apply procstate_eqb_eq in E. contradiction.
Qed.

(** [fuel] iterations of the loop of [schedule] from slot [k]: the CPU
    goes to the first RUNNABLE slot among [k+1], [k+2], ... (modulo
    [NPROC]), or none of the [fuel] slots after [k] is RUNNABLE. *)
Lemma schedule_loop_spec (fuel : nat) (k : Z) (s : kstate) :
  0 < NPROC -> Z.of_nat (length (ptable s)) = NPROC -> 0 <= k < NPROC ->
  (exists d, 1 <= d <= Z.of_nat fuel
     /\ runnable s ((k + d) mod NPROC)
     /\ (forall d', 1 <= d' < d -> ~ runnable s ((k + d') mod NPROC))
     /\ schedule_loop fuel k s = run ((k + d) mod NPROC) s)
  \/ ((forall d', 1 <= d' <= Z.of_nat fuel -> ~ runnable s ((k + d') mod NPROC))
      /\ schedule_loop fuel k s = Spinning s).
Proof.
  intros HN Hlen. revert k. induction fuel as [|n IH]; intros k Hk.
  { right. split; [intros; lia|reflexivity]. }
  simpl schedule_loop.
  rewrite Z.rem_mod_nonneg by lia.
  pose proof (Z.mod_pos_bound (k + 1) NPROC HN) as Hk1.
  destruct (zlookup_Some (ptable s) ((k + 1) mod NPROC)) as [p Hp]; [lia|].
  erewrite bind_Ret by (apply proc_at_spec, Hp).
  destruct (procstate_eqb (state p) P_RUNNABLE) eqn:E.
  - apply procstate_eqb_eq in E. left. exists 1.
    split; [lia|]. split; [|split; [intros; lia|reflexivity]].
    unfold runnable, slot_state. rewrite Hp. simpl. congruence.
  - assert (Hnr : ~ runnable s ((k + 1) mod NPROC)).
    { unfold runnable, slot_state. rewrite Hp. simpl. intros [= H].
      rewrite H in E. discriminate. }
    assert (Hshift : forall d, ((k + 1) mod NPROC + d) mod NPROC = (k + (d + 1)) mod NPROC).
    { intros d. rewrite Zplus_mod_idemp_l. f_equal. lia. }
    destruct (IH ((k + 1) mod NPROC) Hk1) as [(d & Hd & Hr & Hmin & Hrun)|(Hnone & Hrun)].
    + left. exists (d + 1). rewrite <- Hshift.
      split; [lia|]. split; [exact Hr|]. split; [|exact Hrun].
      intros d' Hd'. destruct (decide (d' = 1)) as [->|Hne]; [exact Hnr|].
      replace d' with ((d' - 1) + 1) by lia. rewrite <- Hshift.
      apply Hmin. lia.
    + right. split; [|exact Hrun].
      intros d' Hd'. destruct (decide (d' = 1)) as [->|Hne]; [exact Hnr|].
      replace d' with ((d' - 1) + 1) by lia. rewrite <- Hshift.
      apply Hnone. lia.
Qed.

(** When no slot is RUNNABLE, no number of iterations leaves the loop of
    [schedule]: the outcome [Spinning] stands for a loop that does not
    end. *)
Lemma schedule_spins_forever (k : Z) (s : kstate) :
  0 < NPROC -> Z.of_nat (length (ptable s)) = NPROC -> 0 <= k < NPROC ->
  (forall x, ~ runnable s x) ->
  forall fuel, schedule_loop fuel k s = Spinning s.
Proof.
  intros HN Hlen Hk Hnone fuel.
  destruct (schedule_loop_spec fuel k s HN Hlen Hk) as [(d & _ & Hr & _)|[_ H]].
  - exfalso. eapply Hnone, Hr.
  - exact H.
Qed.

Lemma runnable_inv (s : kstate) (x : Z) :
  runnable s x -> exists p, zlookup (ptable s) x = Some p /\ state p = P_RUNNABLE.
Proof.
  unfold runnable, slot_state. destruct (zlookup (ptable s) x) as [p|]; [|discriminate].
  simpl. intros [= H]. eauto.
Qed.

Lemma schedule_next (s : kstate) (c : Z) (pc : proc) :
  0 < NPROC -> Z.of_nat (length (ptable s)) = NPROC ->
  current s = Some c -> zlookup (ptable s) c = Some pc ->
  0 <= pid pc < NPROC ->
  pagetables_checked s ->
  (exists x, runnable s x) ->
  exists d,
    1 <= d <= NPROC
    /\ runnable s ((pid pc + d) mod NPROC)
    /\ (forall d', 1 <= d' < d -> ~ runnable s ((pid pc + d') mod NPROC))
    /\ schedule s = Resumed (set_current (Some ((pid pc + d) mod NPROC)) s).
Proof.
  intros HN Hlen Hcur Hpc Hk Hck [x Hx]. unfold schedule.
  erewrite bind_Ret by (unfold current_proc; kunfold; rewrite Hcur; reflexivity).
  erewrite bind_Ret by (apply proc_at_spec, Hpc).
  destruct (schedule_loop_spec (Z.to_nat NPROC) (pid pc) s HN Hlen Hk)
    as [(d & Hd & Hr & Hmin & Hrun)|(Hnone & _)].
  - exists d. split; [lia|]. split; [exact Hr|]. split; [exact Hmin|].
    rewrite Hrun. destruct (runnable_inv _ _ Hr) as (p & Hp & Hst).
    destruct (Hck _ _ Hp Hst) as (t & Ht & Hok).
    eapply run_runnable; eassumption.
  - exfalso. destruct (runnable_inv _ _ Hx) as (p & Hp & _).
    apply zlookup_bounds in Hp.
    apply (Hnone (if decide (x <= pid pc) then x - pid pc + NPROC else x - pid pc)).
    + case_decide; lia.
    + case_decide.
      * replace (pid pc + (x - pid pc + NPROC)) with (x + 1 * NPROC) by lia.
        rewrite Z_mod_plus_full, Z.mod_small by lia. exact Hx.
      * replace (pid pc + (x - pid pc)) with x by lia.
        rewrite Z.mod_small by lia. exact Hx.
Qed.

Lemma mod_inj (N a b : Z) :
  0 < N -> a mod N = b mod N -> - N < a - b < N -> a = b.
Proof.
  intros HN Heq Hd.
  assert (HNn : N <> 0) by lia.
  pose proof (Z.div_mod a N HNn) as Ha. pose proof (Z.div_mod b N HNn) as Hb.
  rewrite Heq in Ha.
  assert (Hq : a - b = N * (a / N - b / N)) by lia.
  assert (a / N - b / N = 0) by nia. lia.
Qed.

(** With every slot RUNNABLE, [n] calls of [schedule] in a row run the
    [n] slots after the current one, in order. *)
Lemma schedule_trace_all (n : nat) (s : kstate) (c : Z) :
  0 < NPROC -> Z.of_nat (length (ptable s)) = NPROC ->
  pids_are_indices s -> pagetables_checked s ->
  (forall x, 0 <= x < NPROC -> runnable s x) ->
  current s = Some c -> 0 <= c < NPROC ->
  schedule_trace n s = (fun d => (c + 1 + Z.of_nat d) mod NPROC) <$> seq 0 n.
Proof.
  intros HN. revert s c.
  induction n as [|n IH]; intros s c Hlen Hpid Hck Hall Hcur Hc; [reflexivity|].
  destruct (zlookup_Some (ptable s) c) as [pc Hpc]; [lia|].
  assert (Hk : pid pc = c) by (apply Hpid, Hpc).
  destruct (schedule_next s c pc HN Hlen Hcur Hpc) as (d & Hd & _ & Hmin & Hrun).
  { lia. } { exact Hck. } { exists c. apply Hall, Hc. }
  assert (d = 1) as ->.
  { destruct (decide (d = 1)) as [|Hne]; [assumption|].
    exfalso. apply (Hmin 1); [lia|]. apply Hall, Z.mod_pos_bound, HN. }
  rewrite Hk in Hrun. simpl schedule_trace. rewrite Hrun. simpl current.
  rewrite (IH _ ((c + 1) mod NPROC)); try assumption.
  - simpl. f_equal; [f_equal; lia|].
    rewrite <- fmap_S_seq, <- list_fmap_compose.
    apply list_fmap_ext. intros _ d _. simpl.
    replace ((c + 1) mod NPROC + 1 + Z.of_nat d)
      with ((c + 1) mod NPROC + (1 + Z.of_nat d)) by lia.
    rewrite Zplus_mod_idemp_l. f_equal. lia.
  - reflexivity.
  - apply Z.mod_pos_bound, HN.
Qed.

(** C6.  [schedule] in a state whose process table has its [NPROC]
    slots, whose current slot [c] holds a [pid] below [NPROC], and where
    the page tables of RUNNABLE processes pass [check_pagetable].  If some
    slot is RUNNABLE, the call transfers the CPU to the slot
    [(pid + d) mod NPROC] for the least [d >= 1] that names a RUNNABLE
    slot: the first RUNNABLE slot after the current one, wrapping around
    the table (the current slot itself being the last candidate).  If
    every slot is RUNNABLE and holds its index as [pid], [NPROC] calls in
    a row run the slots [c+1], [c+2], ... modulo [NPROC]: every slot of
    the table exactly once. *)
Theorem schedule_round_robin (s : kstate) (c : Z) (pc : proc)
    (HN : 0 < NPROC)
    (Hlen : Z.of_nat (length (ptable s)) = NPROC)
    (Hcur : current s = Some c)
    (Hpc : zlookup (ptable s) c = Some pc)
    (Hk : 0 <= pid pc < NPROC)
    (Hck : pagetables_checked s) :
  ((exists x, runnable s x) ->
   exists d,
     1 <= d <= NPROC
     /\ runnable s ((pid pc + d) mod NPROC)
     /\ (forall d', 1 <= d' < d -> ~ runnable s ((pid pc + d') mod NPROC))
     /\ schedule s = Resumed (set_current (Some ((pid pc + d) mod NPROC)) s))
  /\ ((forall x, 0 <= x < NPROC -> runnable s x) -> pids_are_indices s ->
      let trace := schedule_trace (Z.to_nat NPROC) s in
      trace = (fun d => (c + 1 + Z.of_nat d) mod NPROC) <$> seq 0 (Z.to_nat NPROC)
      /\ NoDup trace
      /\ (forall x, 0 <= x < NPROC -> x ∈ trace)).
Proof.
  split; [apply (schedule_next s c pc); assumption|].
  intros Hall Hpid trace.
  assert (Hc : 0 <= c < NPROC) by (rewrite <- Hlen; eapply zlookup_bounds, Hpc).
  assert (Htr : trace = (fun d => (c + 1 + Z.of_nat d) mod NPROC) <$> seq 0 (Z.to_nat NPROC))
    by (apply schedule_trace_all; assumption).
  split; [exact Htr|]. rewrite Htr. split.
  - apply NoDup_fmap_2_strong; [|apply NoDup_seq].
    intros d1 d2 H1 H2 Heq. apply elem_of_seq in H1, H2.
    apply mod_inj in Heq; lia.
  - intros x Hx. apply list_elem_of_fmap.
    exists (Z.to_nat ((x - c - 1) mod NPROC)).
    pose proof (Z.mod_pos_bound (x - c - 1) NPROC HN) as Hm.
    split; [|apply elem_of_seq; lia].
    rewrite Z2Nat.id by lia. rewrite Zplus_mod_idemp_r.
    replace (c + 1 + (x - c - 1)) with x by lia.
    rewrite Z.mod_small by lia. reflexivity.
Qed.

(** *** exception *)

Lemma current_proc_spec (s : kstate) (c : Z) :
  current s = Some c -> current_proc s = Ret c s.
Proof. intros H. unfold current_proc. kunfold. rewrite H. reflexivity. Qed.

Lemma resume_or_schedule_spec (s : kstate) (c : Z) (p : proc) :
  current s = Some c -> zlookup (ptable s) c = Some p ->
  resume_or_schedule s
  = if procstate_eqb (state p) P_RUNNABLE then run c s else schedule s.
Proof.
  intros Hc Hp. unfold resume_or_schedule.
  erewrite bind_Ret by (apply current_proc_spec, Hc).
  erewrite bind_Ret by (apply proc_at_spec, Hp).
  destruct (procstate_eqb (state p) P_RUNNABLE); reflexivity.
Qed.

(** C5.  [exception] with the registers [r], the current process being
    slot [c] (timer and page fault being different interrupt numbers).
    [saved] is the state once the registers are stored in the descriptor,
    [faulted] the state with the descriptor marked P_FAULTED as well.
    (1) A page fault whose error code has the user bit clear stops the
    machine.  (2) A page fault with the user bit set marks the current
    descriptor P_FAULTED, leaves every other slot as it is, and goes on
    to the scheduler: the process is not resumed.  The printed
    classification is read off the error code.  (3) Any interrupt other
    than the timer and page fault stops the machine.  (4) The timer
    interrupt counts a tick and calls the scheduler.  (5) The end of the
    handler resumes the current process when its state is RUNNABLE and
    calls the scheduler otherwise. *)
Theorem exception_dispatch (s : kstate) (c : Z) (pc : proc) (r : regstate)
    (Hcur : current s = Some c)
    (Hpc : zlookup (ptable s) c = Some pc)
    (Hints : INT_PF <> INT_IRQ + IRQ_TIMER) :
  let saved := with_proc c (set_regs r pc) s in
  let faulted := with_proc c (set_state P_FAULTED (set_regs r pc)) s in
  (reg_intno r = INT_PF -> Z.land (reg_errcode r) PTE_U = 0 ->
   exception r s = Halted panic_kernel_page_fault saved)
  /\ (reg_intno r = INT_PF -> Z.land (reg_errcode r) PTE_U <> 0 ->
      exception r s = resume_or_schedule faulted
      /\ exception r s = schedule faulted
      /\ slot_state faulted c = Some P_FAULTED
      /\ (forall x, x <> c -> zlookup (ptable faulted) x = zlookup (ptable s) x)
      /\ fault_operation r
         = (if Z.land (reg_errcode r) PTE_W =? 0 then "read" else "write")
      /\ fault_problem r
         = (if Z.land (reg_errcode r) PTE_P =? 0 then "missing page"
            else "protection problem"))
  /\ (reg_intno r <> INT_PF -> reg_intno r <> INT_IRQ + IRQ_TIMER ->
      exception r s = Halted panic_unexpected_exception saved)
  /\ (reg_intno r = INT_IRQ + IRQ_TIMER ->
      exception r s = schedule (set_ticks (wrap64 (ticks s + 1)) saved))
  /\ (forall s0 c0 p0,
        current s0 = Some c0 -> zlookup (ptable s0) c0 = Some p0 ->
        (state p0 = P_RUNNABLE -> resume_or_schedule s0 = run c0 s0)
        /\ (state p0 <> P_RUNNABLE -> resume_or_schedule s0 = schedule s0)).
Proof.
  intros saved faulted.
  assert (Hi : 0 <= c < Z.of_nat (length (ptable s))) by (eapply zlookup_bounds, Hpc).
  split; [|split; [|split; [|split]]].
  - intros Hno Hu. unfold exception.
    erewrite bind_Ret by (apply current_proc_spec, Hcur).
    erewrite bind_Ret by (apply update_proc_spec, Hpc). fold saved.
    replace (reg_intno r =? INT_IRQ + IRQ_TIMER) with false by lia.
    replace (reg_intno r =? INT_PF) with true by lia.
    replace (Z.land (reg_errcode r) PTE_U =? 0) with true by lia.
    reflexivity.
  - intros Hno Hu.
    assert (Hsaved : zlookup (ptable saved) c = Some (set_regs r pc))
      by (eapply with_proc_lookup, Hpc).
    assert (Hfaulted : zlookup (ptable faulted) c = Some (set_state P_FAULTED (set_regs r pc)))
      by (eapply with_proc_lookup, Hpc).
    assert (Hrun : exception r s = resume_or_schedule faulted).
    { unfold exception.
      erewrite bind_Ret by (apply current_proc_spec, Hcur).
      erewrite bind_Ret by (apply update_proc_spec, Hpc). fold saved.
      replace (reg_intno r =? INT_IRQ + IRQ_TIMER) with false by lia.
      replace (reg_intno r =? INT_PF) with true by lia.
      replace (Z.land (reg_errcode r) PTE_U =? 0) with false by lia.
      erewrite bind_Ret.
      2:{ erewrite bind_Ret by reflexivity.
          apply update_proc_spec, Hsaved. }
      unfold saved. rewrite with_proc_twice. reflexivity. }
    split; [exact Hrun|]. split.
    { rewrite Hrun. erewrite resume_or_schedule_spec by (simpl; eassumption).
      reflexivity. }
    split; [unfold slot_state; rewrite Hfaulted; reflexivity|].
    split; [intros x Hx; apply with_proc_lookup_ne; lia|].
    split; reflexivity.
  - intros Hpf Htimer. unfold exception.
    erewrite bind_Ret by (apply current_proc_spec, Hcur).
    erewrite bind_Ret by (apply update_proc_spec, Hpc). fold saved.
    replace (reg_intno r =? INT_IRQ + IRQ_TIMER) with false by lia.
    replace (reg_intno r =? INT_PF) with false by lia.
    reflexivity.
  - intros Htimer. unfold exception.
    erewrite bind_Ret by (apply current_proc_spec, Hcur).
    erewrite bind_Ret by (apply update_proc_spec, Hpc). fold saved.
    replace (reg_intno r =? INT_IRQ + IRQ_TIMER) with true by lia.
    kunfold. simpl. unfold bind.
    destruct (schedule _) as [[]| | | | |]; reflexivity.
  - intros s0 c0 p0 Hc0 Hp0.
    rewrite (resume_or_schedule_spec s0 c0 p0 Hc0 Hp0). split.
    + intros ->. reflexivity.
    + intros Hne. destruct (procstate_eqb (state p0) P_RUNNABLE) eqn:E;
        [|reflexivity].
      apply procstate_eqb_eq in E. contradiction.
Qed.

(** *** Invariants of computations *)

Lemma preserves_bind {A B : Type} (I : kstate -> Prop) (m : K A) (f : A -> K B) :
  preserves I m -> (forall a, preserves I (f a)) -> preserves I (m ≫= f).
Proof.
  intros Hm Hf s Hs. specialize (Hm s Hs). kunfold.
  destruct (m s); try exact Hm. apply Hf, Hm.
Qed.

Lemma preserves_ret {A : Type} (I : kstate -> Prop) (a : A) : preserves I (mret a).
Proof. intros s Hs. exact Hs. Qed.

Lemma preserves_fmap {A B : Type} (I : kstate -> Prop) (g : A -> B) (m : K A) :
  preserves I m -> preserves I (g <$> m).
Proof.
  intros Hm. apply (preserves_bind I m (fun a => mret (g a))); [exact Hm|].
  intros a. apply preserves_ret.
Qed.

Lemma preserves_get (I : kstate -> Prop) : preserves I get.
Proof. intros s Hs. exact Hs. Qed.

Lemma preserves_modify (I : kstate -> Prop) (g : kstate -> kstate) :
  (forall s, I s -> I (g s)) -> preserves I (modify g).
Proof. intros Hg s Hs. apply Hg, Hs. Qed.

Lemma preserves_must {A : Type} (I : kstate -> Prop) (o : option A) :
  preserves I (must o).
Proof. intros s Hs. destruct o; simpl; [exact Hs|exact Logic.I]. Qed.

Lemma preserves_assert (I : kstate -> Prop) (b : bool) (e : fatal) :
  preserves I (assert b e).
Proof. intros s Hs. destruct b; exact Hs. Qed.

Lemma preserves_panic {A : Type} (I : kstate -> Prop) (e : fatal) :
  preserves I (panic e : K A).
Proof. intros s Hs. exact Hs. Qed.

Lemma preserves_noreturn {A : Type} (I : kstate -> Prop) (m : K Empty_set) :
  preserves I m -> preserves I (noreturn m : K A).
Proof.
  intros Hm. apply preserves_bind; [exact Hm|]. intros [].
Qed.

Lemma preserves_exception_return (I : kstate -> Prop) : preserves I exception_return.
Proof. intros s Hs. exact Hs. Qed.

Lemma preserves_foreach {A : Type} (I : kstate -> Prop) (l : list A)
    (body : A -> K unit) :
  (forall x, preserves I (body x)) -> preserves I (foreach l body).
Proof.
  intros Hb. induction l as [|x l IH]; simpl.
  - apply preserves_ret.
  - apply preserves_bind; [apply Hb|]. intros _. exact IH.
Qed.

Lemma preserves_for_loop (I : kstate -> Prop) (fuel : nat) (cond : Z -> bool)
    (step : Z -> Z) (body : Z -> K unit) (i : Z) :
  (forall x, preserves I (body x)) -> preserves I (for_loop fuel cond step body i).
Proof.
  intros Hb. revert i. induction fuel as [|n IH]; intros i; simpl.
  - intros s Hs. exact Logic.I.
  - destruct (cond i); [|apply preserves_ret].
    apply preserves_bind; [apply Hb|]. intros _. apply IH.
Qed.

(** One step of a proof that a computation keeps an invariant; [tac]
    shows that a state update keeps it. *)
Ltac preserves_step tac :=
  lazymatch goal with
  | |- preserves _ (mbind _ _) => apply preserves_bind; [|intro]
  | |- preserves _ (mret _) => apply preserves_ret
  | |- preserves _ (fmap _ _) => apply preserves_fmap
  | |- preserves _ get => apply preserves_get
  | |- preserves _ (must _) => apply preserves_must
  | |- preserves _ (assert _ _) => apply preserves_assert
  | |- preserves _ (panic _) => apply preserves_panic
  | |- preserves _ (noreturn _) => apply preserves_noreturn
  | |- preserves _ exception_return => apply preserves_exception_return
  | |- preserves _ (foreach _ _) => apply preserves_foreach; intro
  | |- preserves _ (for_loop _ _ _ _ _) => apply preserves_for_loop; intro
  | |- preserves _ (modify _) => apply preserves_modify; intros ? ?; tac
  | |- preserves _ (if ?b then _ else _) => destruct b
  | |- preserves _ (match ?o with Some _ => _ | None => _ end) => destruct o
  | |- preserves _ (let _ := _ in _) => cbv zeta
  end.

Lemma preserves_schedule_loop (I : kstate -> Prop) (fuel : nat) (k : Z) :
  (forall x, preserves I (run x)) -> preserves I (schedule_loop fuel k).
Proof.
  intros Hrun. revert k. induction fuel as [|n IH]; intros k; simpl.
  - intros s Hs. exact Hs.
  - unfold proc_at. repeat preserves_step idtac; [apply Hrun|apply IH].
Qed.

(** Every entry point of the kernel keeps an invariant that the updates
    of the process table, of the reference counts (which keep the length
    of [physpages]), of the page tables, of memory, of the pipe and of the
    tick counter keep. *)
Lemma preserves_kernel (I : kstate -> Prop) :
  (forall s v, I s -> I (set_ptable v s)) ->
  (forall s v, I s -> I (set_current v s)) ->
  (forall s i v, I s -> I (set_physpages (zinsert i v (physpages s)) s)) ->
  (forall s v, I s -> I (set_pagetables v s)) ->
  (forall s v, I s -> I (set_mem v s)) ->
  (forall s v, I s -> I (set_pipebuf v s)) ->
  (forall s v, I s -> I (set_pipebuf_len v s)) ->
  (forall s v, I s -> I (set_ticks v s)) ->
  (forall i name, preserves I (process_setup i name))
  /\ (forall r, preserves I (exception r))
  /\ (forall r, preserves I (syscall r))
  /\ (forall cmd, preserves I (kernel_start cmd)).
Proof.
  intros Hpt Hcur Hpp Hpts Hmem Hpb Hpl Htk.
  assert (Hrun : forall x, preserves I (run x)).
  { intros x. unfold run, proc_at. repeat preserves_step ltac:(auto). }
  assert (Hsched : preserves I schedule).
  { unfold schedule, current_proc, proc_at.
    repeat preserves_step ltac:(auto). apply preserves_schedule_loop, Hrun. }
  assert (Hsetup : forall i name, preserves I (process_setup i name)).
  { intros i name.
    unfold process_setup, init_process, load_page, update_proc, proc_at,
      incr_refcount, refcount, vmiter_map.
    repeat preserves_step ltac:(auto). }
  split; [exact Hsetup|]. split; [|split].
  - intros r.
    unfold exception, resume_or_schedule, update_proc, current_proc, proc_at.
    repeat preserves_step ltac:(auto); first [apply Hsched|apply Hrun].
  - intros r.
    unfold syscall, syscall_page_alloc, syscall_spawn, syscall_pipewrite,
      syscall_piperead, update_proc, current_proc, proc_at,
      incr_refcount, refcount.
    repeat preserves_step ltac:(auto); apply Hsched.
  - intros cmd.
    unfold kernel_start, init_kernel_pagetable, init_ptable, vmiter_map,
      update_proc, proc_at.
    repeat preserves_step ltac:(auto); first [apply Hsetup|apply Hrun].
Qed.

Lemma wf_alloc_boot (pt : gmap Z pte) (m : Z -> Z) :
  0 <= NPAGES -> wf_alloc (boot_state pt m).
Proof.
  intros Hn. split; [simpl; lia|]. split; [apply Z.mod_0_l; lia|].
  simpl. rewrite length_replicate. lia.
Qed.

(** Reachable states are well formed for the allocator. *)
Lemma reachable_wf_alloc (s : kstate) :
  0 <= NPAGES -> reachable s -> wf_alloc s.
Proof.
  intros Hn Hr.
  destruct (preserves_kernel wf_alloc) as (_ & Hexc & Hsys & Hstart);
    try (intros; assumption).
  { intros s0 i v (H1 & H2 & H3). split; [exact H1|]. split; [exact H2|].
    simpl. rewrite length_zinsert. exact H3. }
  induction Hr as [cmd pt m s Hrun|s r s' _ IH Hrun|s r v s' _ IH Hrun
                  |s r s' _ IH Hrun|s m _ IH|s sz pa s' _ IH Hrun].
  - pose proof (Hstart cmd _ (wf_alloc_boot pt m Hn)) as H.
    rewrite Hrun in H. exact H.
  - pose proof (Hexc r _ IH) as H. rewrite Hrun in H. exact H.
  - pose proof (Hsys r _ IH) as H. rewrite Hrun in H. exact H.
  - pose proof (Hsys r _ IH) as H. rewrite Hrun in H. exact H.
  - exact IH.
  - destruct (kalloc_returns s sz IH) as (pa' & s'' & Hk & Hwf & _).
    rewrite Hrun in Hk. injection Hk as _ <-. exact Hwf.
Qed.

(** *** Reference counts and eligibility *)

Lemma page_index_ne (a b : Z) :
  PAGESIZE <= b - a -> a / PAGESIZE <> b / PAGESIZE.
Proof.
  intros Hd Heq.
  assert (Hne : PAGESIZE <> 0) by lia.
  pose proof (Z.div_mod a PAGESIZE Hne) as Ha.
  pose proof (Z.div_mod b PAGESIZE Hne) as Hb.
  pose proof (Z.mod_pos_bound a PAGESIZE PAGESIZE_pos).
  pose proof (Z.mod_pos_bound b PAGESIZE PAGESIZE_pos).
  rewrite Heq in Ha. lia.
Qed.

(** A page that some run of [kalloc] calls returns is allocatable, free
    and not below the cursor. *)
Lemma eligible_sound (s : kstate) (pa : Z) :
  wf_alloc s -> eligible s pa ->
  refcount_of s pa = Some 0
  /\ allocatable_physical_address pa = true
  /\ next_alloc_pa s <= pa < MEMSIZE_PHYSICAL.
Proof.
  intros Hwf He. induction He as [s sz pa s' Hk Hpa|s sz pa0 s' pa Hk He IH].
  - destruct (kalloc_success s sz pa s' Hwf Hk Hpa) as (_ & Hr & _ & [Ha Hrc] & _).
    auto.
  - destruct (kalloc_returns s sz Hwf) as (pa' & s'' & Hk' & Hwf' & Hmono).
    rewrite Hk in Hk'. injection Hk' as <- <-.
    destruct (IH Hwf') as (Hrc & Ha & Hc & Hm).
    split; [|split; [exact Ha|lia]].
    destruct (Z.ltb_spec PAGESIZE sz) as [Hbig|Hsmall].
    { rewrite kalloc_big in Hk by exact Hbig. injection Hk as _ <-. exact Hrc. }
    destruct (kalloc_small s sz Hwf Hsmall) as (k & Hk0 & _ & [(Hlt & _ & Hr)|(_ & Hr)]);
      rewrite Hk in Hr; injection Hr as -> ->; [|exact Hrc].
    unfold refcount_of in *. simpl in Hrc, Hc.
    rewrite zlookup_zinsert_ne in Hrc; [exact Hrc| |].
    + destruct Hwf as (Hc0 & _). apply Z.div_pos; nia.
    + apply page_index_ne. lia.
Qed.

(** A free allocatable page at or after the cursor is returned after
    finitely many calls of [kalloc]. *)
Lemma eligible_complete (pa : Z) (n : nat) (s : kstate) :
  allocatable_physical_address 0 = false ->
  wf_alloc s ->
  refcount_of s pa = Some 0 ->
  allocatable_physical_address pa = true ->
  next_alloc_pa s <= pa < MEMSIZE_PHYSICAL ->
  pa mod PAGESIZE = 0 ->
  pa < next_alloc_pa s + Z.of_nat n * PAGESIZE ->
  eligible s pa.
Proof.
  intros Hnull. revert s.
  induction n as [|n IH]; intros s Hwf Hrc Ha Hpa Hal Hn; [lia|].
  assert (Hne : PAGESIZE <> 0) by lia.
  destruct Hwf as (Hc & Hcal & Hlen).
  assert (Hk0 : exists k0, 0 <= k0 /\ pa = next_alloc_pa s + k0 * PAGESIZE).
  { exists ((pa - next_alloc_pa s) / PAGESIZE).
    assert (Hm : (pa - next_alloc_pa s) mod PAGESIZE = 0)
      by (rewrite Zminus_mod, Hal, Hcal; apply Z.mod_0_l; lia).
    pose proof (Z.div_mod (pa - next_alloc_pa s) PAGESIZE Hne) as Hdm.
    split; [apply Z.div_pos; lia|lia]. }
  destruct Hk0 as (k0 & Hk0 & Hpa0).
  assert (Hq : qualifies s pa) by (split; assumption).
  assert (Hwf : wf_alloc s) by (repeat split; assumption).
  destruct (kalloc_small s PAGESIZE Hwf (Z.le_refl _))
    as (k & Hk & Hskip & [(Hlt & Hq' & Hr)|(Hge & Hr)]).
  - destruct (Z.lt_trichotomy k k0) as [Hlt0|[->|Hgt0]].
    + eapply eligible_later; [exact Hr|].
      apply IH.
      * apply wf_alloc_allocated; [exact Hwf|nia|apply aligned_add, Hcal].
      * unfold refcount_of in *. simpl.
        rewrite zlookup_zinsert_ne; [exact Hrc|apply Z.div_pos; nia|].
        apply page_index_ne. nia.
      * exact Ha.
      * simpl. nia.
      * exact Hal.
      * simpl. nia.
    + eapply eligible_now; [rewrite Hpa0; exact Hr|].
      intros ->. congruence.
    + exfalso. destruct (Hskip k0) as [_ Hnq]; [lia|].
      apply Hnq. rewrite <- Hpa0. exact Hq.
  - exfalso. destruct (Hskip k0) as [_ Hnq]; [nia|].
    apply Hnq. rewrite <- Hpa0. exact Hq.
Qed.

(** C8.  In every reachable state and for every page of physical memory
    (given by its page-aligned address [pa]): if the page is allocatable
    and not below the allocator's cursor, its reference count is 0 if
    and only if it is eligible, that is, returned by [kalloc] after
    finitely many calls; a page that is not allocatable is never
    eligible, and neither is a page below the cursor, whatever their
    reference counts.  Assumed: [physpages] is not of negative length and
    address 0, the null pointer, is not an allocatable page. *)
Theorem refcount_zero_iff_eligible (s : kstate) (pa : Z)
    (Hreach : reachable s)
    (Hpages : 0 <= NPAGES)
    (Hnull : allocatable_physical_address 0 = false)
    (Hpa : 0 <= pa < MEMSIZE_PHYSICAL)
    (Hal : pa mod PAGESIZE = 0) :
  (allocatable_physical_address pa = true -> next_alloc_pa s <= pa ->
   (refcount_of s pa = Some 0 <-> eligible s pa))
  /\ (allocatable_physical_address pa = false -> ~ eligible s pa)
  /\ (pa < next_alloc_pa s -> ~ eligible s pa).
Proof.
  pose proof (reachable_wf_alloc s Hpages Hreach) as Hwf.
  split; [|split].
  - intros Ha Hc. split.
    + intros Hrc.
      apply (eligible_complete pa (Z.to_nat ((pa - next_alloc_pa s) / PAGESIZE + 1)));
        try assumption; [lia|].
      assert (Hne : PAGESIZE <> 0) by lia.
      pose proof (Z.div_mod (pa - next_alloc_pa s) PAGESIZE Hne).
      pose proof (Z.mod_pos_bound (pa - next_alloc_pa s) PAGESIZE PAGESIZE_pos).
      assert (0 <= (pa - next_alloc_pa s) / PAGESIZE) by (apply Z.div_pos; lia).
      rewrite Z2Nat.id by lia. lia.
    + intros He. apply (eligible_sound s pa Hwf He).
  - intros Ha He. destruct (eligible_sound s pa Hwf He) as (_ & Ha' & _). congruence.
  - intros Hc He. destruct (eligible_sound s pa Hwf He) as (_ & _ & Hc'). lia.
Qed.

(** *** The contract of run *)

Lemma plain_bind {A B : Type} (m : K A) (f : A -> K B) :
  plain m -> (forall a, plain (f a)) -> plain (m ≫= f).
Proof.
  intros Hm Hf s. specialize (Hm s). kunfold.
  destruct (m s); try exact Hm. apply Hf.
Qed.

Lemma plain_ret {A : Type} (a : A) : plain (mret a).
Proof. intros s. exact I. Qed.

Lemma plain_fmap {A B : Type} (g : A -> B) (m : K A) : plain m -> plain (g <$> m).
Proof.
  intros Hm. apply (plain_bind m (fun a => mret (g a))); [exact Hm|].
  intros a. apply plain_ret.
Qed.

Lemma plain_get : plain get.
Proof. intros s. exact I. Qed.

Lemma plain_modify (g : kstate -> kstate) : plain (modify g).
Proof. intros s. exact I. Qed.

Lemma plain_must {A : Type} (o : option A) : plain (must o).
Proof. intros s. destruct o; exact I. Qed.

Lemma plain_panic {A : Type} (e : fatal) :
  e <> assert_run_runnable -> plain (panic e : K A).
Proof. intros He s. exact He. Qed.

Lemma plain_assert (b : bool) (e : fatal) :
  e <> assert_run_runnable -> plain (assert b e).
Proof. intros He s. destruct b; [exact I|exact He]. Qed.

Lemma plain_foreach {A : Type} (l : list A) (body : A -> K unit) :
  (forall x, plain (body x)) -> plain (foreach l body).
Proof.
  intros Hb. induction l as [|x l IH]; simpl.
  - apply plain_ret.
  - apply plain_bind; [apply Hb|]. intros _. exact IH.
Qed.

Lemma plain_for_loop (fuel : nat) (cond : Z -> bool) (step : Z -> Z)
    (body : Z -> K unit) (i : Z) :
  (forall x, plain (body x)) -> plain (for_loop fuel cond step body i).
Proof.
  intros Hb. revert i. induction fuel as [|n IH]; intros i; simpl.
  - intros s. exact I.
  - destruct (cond i); [|apply plain_ret].
    apply plain_bind; [apply Hb|]. intros _. apply IH.
Qed.

Ltac plain_step :=
  lazymatch goal with
  | |- plain (mbind _ _) => apply plain_bind; [|intro]
  | |- plain (mret _) => apply plain_ret
  | |- plain (fmap _ _) => apply plain_fmap
  | |- plain get => apply plain_get
  | |- plain (must _) => apply plain_must
  | |- plain (assert _ _) => apply plain_assert; discriminate
  | |- plain (panic _) => apply plain_panic; discriminate
  | |- plain (foreach _ _) => apply plain_foreach; intro
  | |- plain (for_loop _ _ _ _ _) => apply plain_for_loop; intro
  | |- plain (modify _) => apply plain_modify
  | |- plain (if ?b then _ else _) => destruct b
  | |- plain (match ?o with Some _ => _ | None => _ end) => destruct o
  | |- plain (let _ := _ in _) => cbv zeta
  end.

Lemma plain_process_setup (i : Z) (name : string) : plain (process_setup i name).
Proof.
  unfold process_setup, init_process, load_page, update_proc, proc_at,
    incr_refcount, refcount, vmiter_map.
  repeat plain_step.
Qed.

Lemma plain_run_safe {A : Type} (m : K A) (s : kstate) : plain m -> run_safe (m s).
Proof.
  intros Hm. specialize (Hm s). unfold run_safe.
  destruct (m s); try exact I; [contradiction|exact Hm].
Qed.

Lemma run_safe_bind {A B : Type} (m : K A) (f : A -> K B) (s : kstate) :
  plain m ->
  (forall a s1, m s = Ret a s1 -> run_safe (f a s1)) ->
  run_safe ((m ≫= f) s).
Proof.
  intros Hm Hf. specialize (Hm s). kunfold.
  destruct (m s) eqn:E; try exact I; [|contradiction|exact Hm].
  apply Hf. reflexivity.
Qed.

(** [run] on a slot that is RUNNABLE if it exists. *)
Lemma run_safe_run (x : Z) (s : kstate) :
  (forall p, zlookup (ptable s) x = Some p -> state p = P_RUNNABLE) ->
  run_safe (run x s).
Proof.
  intros Hx. unfold run, proc_at. kunfold.
  destruct (zlookup (ptable s) x) as [p|] eqn:Hp; simpl; [|exact I].
  rewrite (Hx p eq_refl). simpl.
  destruct (pagetables s !! pagetable p) as [t|]; simpl; [|exact I].
  destruct (check_pagetable t); simpl; [|discriminate].
  exists x. split; [reflexivity|].
  unfold runnable, slot_state. simpl. rewrite Hp. simpl.
  f_equal. apply Hx. reflexivity.
Qed.

Lemma run_safe_schedule_loop (fuel : nat) (k : Z) (s : kstate) :
  run_safe (schedule_loop fuel k s).
Proof.
  revert k. induction fuel as [|n IH]; intros k; simpl; [exact I|].
  unfold proc_at. kunfold.
  destruct (zlookup (ptable s) (Z.rem (k + 1) NPROC)) as [p|] eqn:Hp; simpl; [|exact I].
  destruct (procstate_eqb (state p) P_RUNNABLE) eqn:E; [|apply IH].
  apply run_safe_run. intros p' Hp'. rewrite Hp in Hp'. injection Hp' as <-.
  apply procstate_eqb_eq, E.
Qed.

Lemma run_safe_schedule (s : kstate) : run_safe (schedule s).
Proof.
  unfold schedule, current_proc, proc_at. kunfold.
  destruct (current s) as [c|]; simpl; [|exact I].
  destruct (zlookup (ptable s) c) as [p|]; simpl; [|exact I].
  apply run_safe_schedule_loop.
Qed.

Lemma run_safe_resume_or_schedule (s : kstate) : run_safe (resume_or_schedule s).
Proof.
  unfold resume_or_schedule, current_proc, proc_at. kunfold.
  destruct (current s) as [c|]; simpl; [|exact I].
  destruct (zlookup (ptable s) c) as [p|] eqn:Hp; simpl; [|exact I].
  destruct (procstate_eqb (state p) P_RUNNABLE) eqn:E; [|apply run_safe_schedule].
  apply run_safe_run. intros p' Hp'. rewrite Hp in Hp'. injection Hp' as <-.
  apply procstate_eqb_eq, E.
Qed.

Lemma run_safe_noreturn_end {A : Type} (m : K Empty_set) (s : kstate) :
  run_safe (m s) -> run_safe ((noreturn m : K A) s).
Proof.
  intros Hm. kunfold. destruct (m s) as [[]| | | | |]; exact Hm.
Qed.

Lemma bind_Ret_inv {A B : Type} (m : K A) (f : A -> K B) (s s' : kstate) (b : B) :
  (m ≫= f) s = Ret b s' -> exists a s1, m s = Ret a s1 /\ f a s1 = Ret b s'.
Proof.
  kunfold. destruct (m s) as [a s1| | | | |]; try discriminate. eauto.
Qed.

Lemma ensures_bind {A B : Type} (m : K A) (f : A -> K B) (Q : kstate -> Prop) :
  (forall a, ensures (f a) Q) -> ensures (m ≫= f) Q.
Proof.
  intros Hf s b s' H. apply bind_Ret_inv in H as (a & s1 & _ & H).
  eapply Hf, H.
Qed.

(** When [process_setup] returns, the descriptor is RUNNABLE. *)
Lemma process_setup_ensures (i : Z) (name : string) :
  ensures (process_setup i name)
          (fun s => forall p, zlookup (ptable s) i = Some p -> state p = P_RUNNABLE).
Proof.
  unfold process_setup.
  repeat lazymatch goal with
         | |- ensures (mbind _ _) _ => apply ensures_bind; intro
         | |- ensures (let _ := _ in _) _ => cbv zeta
         end.
  intros s [] s' H p' Hp'. unfold update_proc, proc_at in H. kunfold.
  destruct (zlookup (ptable s) i) as [p|] eqn:Hp; simpl in H; [|discriminate].
  injection H as <-. simpl in Hp'.
  rewrite zlookup_zinsert_eq in Hp' by (eapply zlookup_bounds, Hp).
  injection Hp' as <-. reflexivity.
Qed.

Lemma preserves_update_proc_other (x i : Z) (f : proc -> proc) (P : proc -> Prop) :
  x <> i ->
  preserves (fun s => forall p, zlookup (ptable s) x = Some p -> P p) (update_proc i f).
Proof.
  intros Hne s Hs. unfold update_proc, proc_at. kunfold.
  destruct (zlookup (ptable s) i) as [p|] eqn:Hp; simpl; [|exact I].
  intros p' Hp'. apply Hs.
  rewrite zlookup_zinsert_ne in Hp'; [exact Hp'| |congruence].
  apply zlookup_bounds in Hp. lia.
Qed.

(** [process_setup] for slot [i] leaves the descriptors of the other
    slots alone. *)
Lemma process_setup_other_slot (x i : Z) (name : string) (P : proc -> Prop) :
  x <> i ->
  preserves (fun s => forall p, zlookup (ptable s) x = Some p -> P p)
            (process_setup i name).
Proof.
  intros Hne.
  unfold process_setup, init_process, load_page, incr_refcount, refcount, vmiter_map.
  repeat first [apply preserves_update_proc_other; exact Hne
               |preserves_step ltac:(assumption)].
  all: unfold proc_at; repeat preserves_step ltac:(assumption).
Qed.

Lemma run_safe_exception (r : regstate) (s : kstate) : run_safe (exception r s).
Proof.
  unfold exception.
  apply run_safe_bind; [unfold current_proc; repeat plain_step|]. intros c s1 _.
  apply run_safe_bind; [unfold update_proc, proc_at; repeat plain_step|].
  intros _ s2 _.
  destruct (reg_intno r =? INT_IRQ + IRQ_TIMER).
  { kunfold. simpl. unfold bind.
    pose proof (run_safe_schedule (set_ticks (wrap64 (ticks s2 + 1)) s2)) as H.
    destruct (schedule _) as [[]| | | | |]; exact H. }
  apply run_safe_bind.
  - unfold update_proc, proc_at. repeat plain_step.
  - intros _ s3 _. apply run_safe_resume_or_schedule.
Qed.

Lemma run_safe_syscall (r : regstate) (s : kstate) : run_safe (syscall r s).
Proof.
  unfold syscall.
  apply run_safe_bind; [unfold current_proc; repeat plain_step|]. intros c s1 _.
  apply run_safe_bind; [unfold update_proc, proc_at; repeat plain_step|].
  intros _ s2 _.
  destruct (reg_rax r =? SYSCALL_PANIC); [apply plain_run_safe; repeat plain_step|].
  destruct (reg_rax r =? SYSCALL_GETPID);
    [apply plain_run_safe; unfold proc_at; repeat plain_step|].
  destruct (reg_rax r =? SYSCALL_YIELD).
  { apply run_safe_bind; [unfold update_proc, proc_at; repeat plain_step|].
    intros _ s3 _. apply run_safe_noreturn_end, run_safe_schedule. }
  apply plain_run_safe.
  unfold syscall_page_alloc, syscall_spawn, syscall_pipewrite, syscall_piperead,
    proc_at, incr_refcount, refcount.
  repeat plain_step.
Qed.

Lemma run_safe_kernel_start (cmd : option string) (s : kstate) :
  run_safe (kernel_start cmd s).
Proof.
  unfold kernel_start.
  apply run_safe_bind; [repeat plain_step|]. intros _ s1 _.
  apply run_safe_bind.
  { unfold init_kernel_pagetable, vmiter_map. repeat plain_step. }
  intros _ s2 _.
  apply run_safe_bind.
  { unfold init_ptable, update_proc, proc_at. repeat plain_step. }
  intros _ s3 _. cbv zeta.
  apply run_safe_bind.
  { repeat plain_step; apply plain_process_setup. }
  intros [] s4 Hsetup. apply run_safe_run.
  destruct (program_image (default WEENSYOS_FIRST_PROCESS cmd)).
  { eapply process_setup_ensures, Hsetup. }
  destruct (bool_decide _);
    apply bind_Ret_inv in Hsetup as ([] & s' & H1 & H2);
    match type of H2 with
    | process_setup 2 ?n _ = _ =>
        pose proof (process_setup_other_slot 1 2 n (fun p => state p = P_RUNNABLE)
                      ltac:(lia) s' (process_setup_ensures _ _ _ _ _ H1)) as H
    end;
    rewrite H2 in H; exact H.
Qed.

Lemma keeps_of_preserves {A : Type} (I : kstate -> Prop) (m : K A) :
  preserves I m -> keeps I m.
Proof. intros Hm s a s' Hs Hrun. specialize (Hm s Hs). rewrite Hrun in Hm. exact Hm. Qed.

Lemma keeps_bind {A B : Type} (I : kstate -> Prop) (m : K A) (f : A -> K B) :
  keeps I m -> (forall a, keeps I (f a)) -> keeps I (m ≫= f).
Proof.
  intros Hm Hf s b s' Hs Hrun.
  apply bind_Ret_inv in Hrun as (a & s1 & H1 & H2).
  eapply Hf; [|exact H2]. eapply Hm; eassumption.
Qed.

Lemma keeps_noreturn {A : Type} (I : kstate -> Prop) (m : K Empty_set) :
  keeps I (noreturn m : K A).
Proof.
  intros s a s' _ Hrun. unfold noreturn in Hrun.
  apply bind_Ret_inv in Hrun as ([] & _).
Qed.

(** Updating the registers of a descriptor changes the state of no
    slot. *)
Lemma preserves_update_proc_running (c i : Z) (f : proc -> proc) :
  (forall p, state (f p) = state p) ->
  preserves (running c) (update_proc i f).
Proof.
  intros Hf s [Hcur Hrun]. unfold update_proc, proc_at. kunfold.
  destruct (zlookup (ptable s) i) as [p|] eqn:Hp; simpl; [|exact I].
  split; [exact Hcur|]. unfold runnable, slot_state in *. simpl.
  pose proof (zlookup_bounds _ _ _ Hp) as Hi.
  destruct (decide (i = c)) as [->|Hne].
  - rewrite zlookup_zinsert_eq by exact Hi. rewrite Hp in Hrun.
    simpl in *. rewrite Hf. exact Hrun.
  - rewrite zlookup_zinsert_ne by lia. exact Hrun.
Qed.

Lemma preserves_kalloc (I : kstate -> Prop) (sz : Z) :
  (forall s v, I s -> I (set_next_alloc_pa v s)) ->
  (forall s i v, I s -> I (set_physpages (zinsert i v (physpages s)) s)) ->
  (forall s v, I s -> I (set_mem v s)) ->
  preserves I (kalloc sz).
Proof.
  intros Hc Hp Hm.
  assert (Hloop : forall fuel, preserves I (kalloc_loop fuel)).
  { induction fuel as [|n IH]; simpl; [intros s Hs; exact Logic.I|].
    unfold incr_refcount, refcount.
    repeat first [exact IH|preserves_step ltac:(auto)]. }
  unfold kalloc. repeat first [apply Hloop|preserves_step ltac:(auto)].
Qed.

Lemma keeps_running_syscall (c : Z) (r : regstate) : keeps (running c) (syscall r).
Proof.
  unfold syscall.
  apply keeps_bind;
    [apply keeps_of_preserves; unfold current_proc; repeat preserves_step idtac|].
  intros c0.
  apply keeps_bind;
    [apply keeps_of_preserves, preserves_update_proc_running; reflexivity|].
  intros _.
  destruct (reg_rax r =? SYSCALL_PANIC);
    [apply keeps_of_preserves; repeat preserves_step idtac|].
  destruct (reg_rax r =? SYSCALL_GETPID);
    [apply keeps_of_preserves; unfold proc_at; repeat preserves_step idtac|].
  destruct (reg_rax r =? SYSCALL_YIELD).
  { apply keeps_bind; [|intros _; apply keeps_noreturn].
    apply keeps_of_preserves, preserves_update_proc_running. reflexivity. }
  apply keeps_of_preserves.
  unfold syscall_page_alloc, syscall_spawn, syscall_pipewrite, syscall_piperead,
    proc_at, incr_refcount, refcount.
  repeat preserves_step ltac:(assumption).
Qed.

(** In every reachable state a process is current, and it is
    RUNNABLE. *)
Lemma reachable_running (s : kstate) :
  reachable s -> exists c, running c s.
Proof.
  intros Hr.
  induction Hr as [cmd pt m s Hrun|s r s' _ IH Hrun|s r v s' _ IH Hrun
                  |s r s' _ IH Hrun|s m _ IH|s sz pa s' _ IH Hrun].
  - pose proof (run_safe_kernel_start cmd (boot_state pt m)) as H.
    rewrite Hrun in H. exact H.
  - pose proof (run_safe_exception r s) as H. rewrite Hrun in H. exact H.
  - destruct IH as [c Hc]. exists c. eapply keeps_running_syscall; eassumption.
  - pose proof (run_safe_syscall r s) as H. rewrite Hrun in H. exact H.
  - exact IH.
  - destruct IH as [c Hc]. exists c.
    pose proof (preserves_kalloc (running c) sz) as H.
    specialize (H ltac:(auto) ltac:(auto) ltac:(auto) s Hc).
    rewrite Hrun in H. exact H.
Qed.

(** C9.  On every control path of the kernel the assertion of [run]
    holds, and a process that gets the CPU is the current one and is
    RUNNABLE: this is so for [kernel_start], [schedule], [exception] and
    [syscall], from any state and with any registers.  [run] itself
    resumes the slot it is given when that slot is RUNNABLE, and stops
    the machine on its assertion when the slot is in any other state, so
    a FAULTED or FREE process is not resumed.  As a result, in every
    reachable state, also after a system call has returned to its
    caller, the current process is RUNNABLE. *)
Theorem run_only_runnable (s : kstate) (r : regstate) (cmd : option string) :
  run_safe (kernel_start cmd s)
  /\ run_safe (schedule s)
  /\ run_safe (exception r s)
  /\ run_safe (syscall r s)
  /\ (forall x s', run x s = Resumed s' ->
        runnable s x /\ s' = set_current (Some x) s)
  /\ (forall x p, zlookup (ptable s) x = Some p -> state p <> P_RUNNABLE ->
        run x s = Halted assert_run_runnable s)
  /\ (reachable s -> exists c, running c s).
Proof.
  split; [apply run_safe_kernel_start|].
  split; [apply run_safe_schedule|].
  split; [apply run_safe_exception|].
  split; [apply run_safe_syscall|].
  split; [|split; [intros x p; apply run_not_runnable|apply reachable_running]].
  intros x s' Hrun. unfold run, proc_at in Hrun. kunfold.
  destruct (zlookup (ptable s) x) as [p|] eqn:Hp; simpl in Hrun; [|discriminate].
  destruct (procstate_eqb (state p) P_RUNNABLE) eqn:E; simpl in Hrun; [|discriminate].
  destruct (pagetables s !! pagetable p) as [t|]; simpl in Hrun; [|discriminate].
  destruct (check_pagetable t); simpl in Hrun; [|discriminate].
  injection Hrun as <-. split; [|reflexivity].
  unfold runnable, slot_state. rewrite Hp. simpl. f_equal.
  apply procstate_eqb_eq, E.
Qed.

Lemma pagetables_checkedb_sound (s : kstate) :
  pagetables_checkedb s = true -> pagetables_checked s.
Proof.
  unfold pagetables_checkedb, pagetables_checked. rewrite forallb_forall.
  intros Hall x p Hp Hst.
  assert (Hin : In p (ptable s)).
  { unfold zlookup in Hp. destruct (0 <=? x); [|discriminate].
    apply list_elem_of_In, list_elem_of_lookup. eauto. }
  specialize (Hall p Hin). rewrite Hst in Hall. simpl in Hall.
  destruct (pagetables s !! pagetable p) as [t|]; [eauto|discriminate].
Qed.

(** *** syscall_page_alloc *)

(** C1, what the handler does.  [syscall_page_alloc(addr)] in a state
    where the page of [addr] has the reference count [rc].  If [rc] is 0,
    the handler sets the count to 1, zeroes the [PAGESIZE] bytes from
    [addr] on and returns 0; it leaves every page table as it is, so it
    installs no mapping for the caller (its own comment says it does not
    implement the specification of [sys_page_alloc]).  If [rc] is not 0,
    the handler stops the machine on its assertion and returns no error
    code. *)
Theorem syscall_page_alloc_spec (s : kstate) (addr rc : Z)
    (Hrc : refcount_of s addr = Some rc) :
  (rc = 0 ->
   exists s',
     syscall_page_alloc addr s = Ret 0 s'
     /\ refcount_of s' addr = Some 1
     /\ (forall a, addr <= a < addr + PAGESIZE -> mem s' a = 0)
     /\ pagetables s' = pagetables s
     /\ (forall pt, vmiter_lookup s' pt addr = vmiter_lookup s pt addr))
  /\ (rc <> 0 ->
      syscall_page_alloc addr s = Halted assert_page_alloc_refcount s).
Proof.
  unfold syscall_page_alloc. split.
  - intros ->.
    erewrite bind_Ret by (apply refcount_spec, Hrc).
    erewrite bind_Ret by (apply assert_true; reflexivity).
    erewrite bind_Ret by (apply incr_refcount_spec, Hrc).
    erewrite bind_Ret by reflexivity.
    eexists. split; [reflexivity|]. simpl.
    split; [|split; [|split; reflexivity]].
    + unfold refcount_of. simpl. apply zlookup_zinsert_eq.
      eapply zlookup_bounds, Hrc.
    + intros a Ha. unfold memset.
      replace ((addr <=? a) && (a <? addr + PAGESIZE)) with true by lia.
      reflexivity.
  - intros Hne.
    erewrite bind_Ret by (apply refcount_spec, Hrc).
    apply bind_Halted, assert_false. lia.
Qed.

(** ** Further properties of the kernel *)

(** *** The scheduler without a RUNNABLE process *)

Lemma schedule_entry (s : kstate) (c : Z) (pc : proc) :
  current s = Some c -> zlookup (ptable s) c = Some pc ->
  schedule s = schedule_loop (Z.to_nat NPROC) (pid pc) s.
Proof.
  intros Hcur Hpc. unfold schedule.
  erewrite bind_Ret by (apply current_proc_spec, Hcur).
  erewrite bind_Ret by (apply proc_at_spec, Hpc). reflexivity.
Qed.

(** X1.  "If there are no runnable processes, spins forever": when no
    slot of the process table is RUNNABLE, [schedule] resumes no process
    and changes nothing, and no number of iterations leaves its loop. *)
Theorem schedule_spins (s : kstate) (c : Z) (pc : proc)
    (HN : 0 < NPROC)
    (Hlen : Z.of_nat (length (ptable s)) = NPROC)
    (Hcur : current s = Some c)
    (Hpc : zlookup (ptable s) c = Some pc)
    (Hk : 0 <= pid pc < NPROC)
    (Hnone : forall x, ~ runnable s x) :
  schedule s = Spinning s
  /\ forall fuel, schedule_loop fuel (pid pc) s = Spinning s.
Proof.
  split.
  - rewrite (schedule_entry s c pc Hcur Hpc).
    apply schedule_spins_forever; assumption.
  - apply schedule_spins_forever; assumption.
Qed.

(** *** A page fault of a user process *)

Lemma run_resumed_inv (x : Z) (s s' : kstate) :
  run x s = Resumed s' -> runnable s x /\ s' = set_current (Some x) s.
Proof.
  intros Hrun. unfold run, proc_at in Hrun. kunfold.
  destruct (zlookup (ptable s) x) as [p|] eqn:Hp; simpl in Hrun; [|discriminate].
  destruct (procstate_eqb (state p) P_RUNNABLE) eqn:E; simpl in Hrun; [|discriminate].
  destruct (pagetables s !! pagetable p) as [t|]; simpl in Hrun; [|discriminate].
  destruct (check_pagetable t); simpl in Hrun; [|discriminate].
  injection Hrun as <-. split; [|reflexivity].
  unfold runnable, slot_state. rewrite Hp. simpl. f_equal.
  apply procstate_eqb_eq, E.
Qed.

Lemma schedule_loop_resumed_inv (fuel : nat) (k : Z) (s s' : kstate) :
  schedule_loop fuel k s = Resumed s' ->
  exists x, runnable s x /\ s' = set_current (Some x) s.
Proof.
  revert k. induction fuel as [|n IH]; intros k; simpl; [discriminate|].
  unfold proc_at. kunfold.
  destruct (zlookup (ptable s) (Z.rem (k + 1) NPROC)) as [p|]; simpl; [|discriminate].
  destruct (procstate_eqb (state p) P_RUNNABLE).
  - intros H. eexists. apply run_resumed_inv, H.
  - apply IH.
Qed.

Lemma schedule_resumed_inv (s s' : kstate) :
  schedule s = Resumed s' ->
  exists x, runnable s x /\ s' = set_current (Some x) s.
Proof.
  unfold schedule, current_proc, proc_at. kunfold.
  destruct (current s) as [c|]; simpl; [|discriminate].
  destruct (zlookup (ptable s) c) as [p|]; simpl; [|discriminate].
  apply schedule_loop_resumed_inv.
Qed.

Lemma exception_user_fault (s : kstate) (c : Z) (pc : proc) (r : regstate) :
  current s = Some c -> zlookup (ptable s) c = Some pc ->
  INT_PF <> INT_IRQ + IRQ_TIMER ->
  reg_intno r = INT_PF -> Z.land (reg_errcode r) PTE_U <> 0 ->
  exception r s = schedule (with_proc c (set_state P_FAULTED (set_regs r pc)) s).
Proof.
  intros Hcur Hpc Hints Hno Hu.
  set (saved := with_proc c (set_regs r pc) s).
  set (faulted := with_proc c (set_state P_FAULTED (set_regs r pc)) s).
  assert (Hsaved : zlookup (ptable saved) c = Some (set_regs r pc))
    by (eapply with_proc_lookup, Hpc).
  assert (Hfaulted : zlookup (ptable faulted) c = Some (set_state P_FAULTED (set_regs r pc)))
    by (eapply with_proc_lookup, Hpc).
  unfold exception.
  erewrite bind_Ret by (apply current_proc_spec, Hcur).
  erewrite bind_Ret by (apply update_proc_spec, Hpc). fold saved.
  replace (reg_intno r =? INT_IRQ + IRQ_TIMER) with false by lia.
  replace (reg_intno r =? INT_PF) with true by lia.
  replace (Z.land (reg_errcode r) PTE_U =? 0) with false by lia.
  erewrite bind_Ret.
  2:{ erewrite bind_Ret by reflexivity. apply update_proc_spec, Hsaved. }
  unfold saved. rewrite with_proc_twice. fold faulted.
  erewrite resume_or_schedule_spec by (simpl; eassumption).
  reflexivity.
Qed.

Lemma runnable_with_proc (s : kstate) (c x : Z) (p q : proc) :
  zlookup (ptable s) c = Some p ->
  runnable (with_proc c q s) x
  <-> (x = c /\ state q = P_RUNNABLE) \/ (x <> c /\ runnable s x).
Proof.
  intros Hp. pose proof (zlookup_bounds _ _ _ Hp) as Hc.
  unfold runnable, slot_state.
  destruct (decide (x = c)) as [->|Hne].
  - erewrite with_proc_lookup by exact Hp. simpl.
    split; [intros [= H]; left; auto|intros [[_ ->]|[Hne _]]; [reflexivity|congruence]].
  - rewrite with_proc_lookup_ne by lia.
    split; [intros H; right; auto|intros [[Heq _]|[_ H]]; [congruence|exact H]].
Qed.

(** X2.  A page fault taken in user mode ([PTE_U] set in the error code)
    never gives the CPU back to the faulting process: if [exception]
    resumes a process, it is another slot, one that was RUNNABLE before
    the fault, and nothing but the descriptor of the faulting process and
    [current] has changed.  If no other slot is RUNNABLE, the kernel
    spins forever in [schedule]. *)
Theorem user_fault_not_resumed (s : kstate) (c : Z) (pc : proc) (r : regstate)
    (Hcur : current s = Some c)
    (Hpc : zlookup (ptable s) c = Some pc)
    (Hints : INT_PF <> INT_IRQ + IRQ_TIMER)
    (Hpf : reg_intno r = INT_PF)
    (Hu : Z.land (reg_errcode r) PTE_U <> 0) :
  let faulted := with_proc c (set_state P_FAULTED (set_regs r pc)) s in
  (forall s', exception r s = Resumed s' ->
     exists x, x <> c /\ runnable s x /\ s' = set_current (Some x) faulted)
  /\ (0 < NPROC -> Z.of_nat (length (ptable s)) = NPROC -> 0 <= pid pc < NPROC ->
      (forall x, runnable s x -> x = c) ->
      exception r s = Spinning faulted).
Proof.
  intros faulted.
  pose proof (exception_user_fault s c pc r Hcur Hpc Hints Hpf Hu) as Hexc.
  fold faulted in Hexc. rewrite Hexc. split.
  - intros s' Hrun. apply schedule_resumed_inv in Hrun as (x & Hx & ->).
    apply (runnable_with_proc s c x pc _ Hpc) in Hx as [[_ Hst]|[Hne Hx]];
      [discriminate Hst|].
    exists x. auto.
  - intros HN Hlen Hk Honly.
    assert (Hf : zlookup (ptable faulted) c = Some (set_state P_FAULTED (set_regs r pc)))
      by (eapply with_proc_lookup, Hpc).
    rewrite (schedule_entry faulted c _ Hcur Hf).
    apply schedule_spins_forever; [exact HN| |exact Hk|].
    + unfold faulted, with_proc. simpl. rewrite length_zinsert. exact Hlen.
    + intros x Hx.
      apply (runnable_with_proc s c x pc _ Hpc) in Hx as [[_ Hst]|[Hne Hx]];
        [discriminate Hst|].
      apply Hne, Honly, Hx.
Qed.

(** *** The dispatch of system calls *)

(** The numbers of [syscall_numbers] are different from each other. *)
Ltac distinct_numbers H :=
  unfold syscall_numbers in H;
  repeat (let Hd := fresh "Hd" in apply NoDup_cons in H as [Hd H];
          rewrite ?not_elem_of_cons in Hd);
  destruct_and?.

(** [syscall] up to its [switch], and the tests of the [switch]. *)
Ltac syscall_enter Hcur Hpc :=
  unfold syscall;
  erewrite bind_Ret by (apply current_proc_spec, Hcur);
  erewrite bind_Ret by (apply update_proc_spec, Hpc).

Ltac decide_tests :=
  repeat match goal with
         | |- context [?a =? ?b] =>
             first [rewrite (proj2 (Z.eqb_eq a b)) by congruence
                   |rewrite (proj2 (Z.eqb_neq a b)) by congruence]
         end.

Lemma noreturn_Resumed {A : Type} (m : K Empty_set) (s s' : kstate) :
  m s = Resumed s' -> (noreturn m : K A) s = Resumed s'.
Proof. intros H. kunfold. rewrite H. reflexivity. Qed.

Lemma runnable_update_regs (s : kstate) (c x : Z) (p q : proc) :
  zlookup (ptable s) c = Some p -> state q = state p ->
  runnable (with_proc c q s) x <-> runnable s x.
Proof.
  intros Hp Hst. rewrite (runnable_with_proc s c x p q Hp).
  unfold runnable, slot_state. rewrite Hst.
  destruct (decide (x = c)) as [->|Hne].
  - rewrite Hp. simpl.
    split; [intros [[_ ->]|[Hne _]]; [reflexivity|congruence]|intros [= H]; left; auto].
  - split; [intros [[Heq _]|[_ H]]; [congruence|exact H]|intros H; right; auto].
Qed.

Lemma pagetables_checked_update_regs (s : kstate) (c : Z) (p q : proc) :
  zlookup (ptable s) c = Some p ->
  state q = state p -> pagetable q = pagetable p ->
  pagetables_checked s -> pagetables_checked (with_proc c q s).
Proof.
  intros Hp Hst Hpt Hck x p' Hp' Hrun.
  pose proof (zlookup_bounds _ _ _ Hp) as Hc.
  destruct (decide (x = c)) as [->|Hne].
  - erewrite with_proc_lookup in Hp' by exact Hp. injection Hp' as <-.
    rewrite Hpt. apply (Hck c p Hp). congruence.
  - rewrite with_proc_lookup_ne in Hp' by lia. apply (Hck x p' Hp' Hrun).
Qed.

(** X3.  [syscall] stores the registers in the descriptor of the current
    process and dispatches on [%rax].  SYSCALL_GETPID returns the [pid]
    of the current process.  SYSCALL_SPAWN creates no process and
    returns -1, which reaches the process as 2^64 - 1; so does a pipe
    call that has to be tried again (a write to the full pipe, a read
    from the empty one).  SYSCALL_PANIC stops the machine, and so does
    every number that is not a case label.  In all these cases the saved
    registers are the only change of the kernel state. *)
Theorem syscall_dispatch (s : kstate) (c : Z) (pc : proc) (r : regstate)
    (Hcur : current s = Some c)
    (Hpc : zlookup (ptable s) c = Some pc)
    (Hnum : NoDup syscall_numbers) :
  let saved := with_proc c (set_regs r pc) s in
  (reg_rax r = SYSCALL_GETPID -> syscall r s = Ret (wrap64 (pid pc)) saved)
  /\ (reg_rax r = SYSCALL_SPAWN -> syscall r s = Ret (2 ^ 64 - 1) saved)
  /\ (reg_rax r = SYSCALL_PIPEWRITE -> reg_rsi r <> 0 -> pipebuf_len s = 1 ->
      syscall r s = Ret (2 ^ 64 - 1) saved)
  /\ (reg_rax r = SYSCALL_PIPEREAD -> reg_rsi r <> 0 -> pipebuf_len s = 0 ->
      syscall r s = Ret (2 ^ 64 - 1) saved)
  /\ (reg_rax r = SYSCALL_PANIC -> syscall r s = Halted panic_user saved)
  /\ (reg_rax r ∉ syscall_numbers ->
      syscall r s = Halted panic_unexpected_syscall saved).
Proof.
  intros saved.
  assert (Hsaved : zlookup (ptable saved) c = Some (set_regs r pc))
    by (eapply with_proc_lookup, Hpc).
  pose proof Hnum as Hnum'. distinct_numbers Hnum'.
  split; [|split; [|split; [|split; [|split]]]].
  - intros Hrax. syscall_enter Hcur Hpc. decide_tests. fold saved.
    erewrite bind_Ret by (apply proc_at_spec, Hsaved). reflexivity.
  - intros Hrax. syscall_enter Hcur Hpc. decide_tests. reflexivity.
  - intros Hrax Hsz Hfull. syscall_enter Hcur Hpc. decide_tests. fold saved.
    unfold syscall_pipewrite. kunfold. simpl. decide_tests. reflexivity.
  - intros Hrax Hsz Hempty. syscall_enter Hcur Hpc. decide_tests. fold saved.
    unfold syscall_piperead. kunfold. simpl. decide_tests. reflexivity.
  - intros Hrax. syscall_enter Hcur Hpc. decide_tests. reflexivity.
  - intros Hrax. unfold syscall_numbers in Hrax.
    rewrite !not_elem_of_cons in Hrax. destruct_and?.
    syscall_enter Hcur Hpc. decide_tests. reflexivity.
Qed.


Lemma syscall_yield_enter (s : kstate) (c : Z) (pc : proc) (r : regstate) :
  current s = Some c -> zlookup (ptable s) c = Some pc ->
  NoDup syscall_numbers -> reg_rax r = SYSCALL_YIELD ->
  syscall r s
  = (noreturn schedule : K Z) (with_proc c (set_regs (set_reg_rax 0 r) pc) s).
Proof.
  intros Hcur Hpc Hnum Hrax.
  assert (Hsaved : zlookup (ptable (with_proc c (set_regs r pc) s)) c
                   = Some (set_regs r pc))
    by (eapply with_proc_lookup, Hpc).
  distinct_numbers Hnum.
  syscall_enter Hcur Hpc. decide_tests.
  erewrite bind_Ret by (apply update_proc_spec, Hsaved).
  rewrite with_proc_twice. reflexivity.
Qed.

(** X5.  SYSCALL_YIELD does not return to its caller: it stores 0 as
    the caller's [%rax] and calls the scheduler, which resumes the first
    RUNNABLE slot after the caller's.  A caller that is the only
    RUNNABLE process gets the CPU back at once, with 0 in its saved
    [%rax]. *)
Theorem syscall_yield (s : kstate) (c : Z) (pc : proc) (r : regstate)
    (HN : 0 < NPROC)
    (Hlen : Z.of_nat (length (ptable s)) = NPROC)
    (Hcur : current s = Some c)
    (Hpc : zlookup (ptable s) c = Some pc)
    (Hk : 0 <= pid pc < NPROC)
    (Hck : pagetables_checked s)
    (Hnum : NoDup syscall_numbers)
    (Hrax : reg_rax r = SYSCALL_YIELD) :
  let yielded := with_proc c (set_regs (set_reg_rax 0 r) pc) s in
  (forall v s', syscall r s <> Ret v s')
  /\ ((exists x, runnable s x) ->
      exists d,
        1 <= d <= NPROC
        /\ runnable s ((pid pc + d) mod NPROC)
        /\ (forall d', 1 <= d' < d -> ~ runnable s ((pid pc + d') mod NPROC))
        /\ syscall r s = Resumed (set_current (Some ((pid pc + d) mod NPROC)) yielded))
  /\ (runnable s c -> (forall x, runnable s x -> x = c) ->
      syscall r s = Resumed (set_current (Some c) yielded)
      /\ reg_rax <$> (regs <$> zlookup (ptable yielded) c) = Some 0).
Proof.
  intros yielded.
  assert (Hy : zlookup (ptable yielded) c = Some (set_regs (set_reg_rax 0 r) pc))
    by (eapply with_proc_lookup, Hpc).
  pose proof (syscall_yield_enter s c pc r Hcur Hpc Hnum Hrax) as Hsys.
  fold yielded in Hsys.
  assert (Hrun : forall x, runnable yielded x <-> runnable s x)
    by (intros x; apply (runnable_update_regs s c x pc); [exact Hpc|reflexivity]).
  assert (Hnext : (exists x, runnable s x) ->
      exists d,
        1 <= d <= NPROC
        /\ runnable s ((pid pc + d) mod NPROC)
        /\ (forall d', 1 <= d' < d -> ~ runnable s ((pid pc + d') mod NPROC))
        /\ syscall r s = Resumed (set_current (Some ((pid pc + d) mod NPROC)) yielded)).
  { intros [x Hx].
    destruct (schedule_next yielded c (set_regs (set_reg_rax 0 r) pc)) as (d & Hd & Hr & Hmin & Hs).
    - exact HN.
    - unfold yielded, with_proc. simpl. rewrite length_zinsert. exact Hlen.
    - exact Hcur.
    - exact Hy.
    - exact Hk.
    - apply (pagetables_checked_update_regs s c pc); auto.
    - exists x. apply Hrun, Hx.
    - exists d. simpl in Hr, Hmin, Hs.
      split; [exact Hd|]. split; [apply Hrun, Hr|].
      split; [intros d' Hd' Hr'; apply (Hmin d' Hd'), Hrun, Hr'|].
      rewrite Hsys. apply noreturn_Resumed, Hs. }
  split; [|split; [exact Hnext|]].
  - intros v s' Hret. rewrite Hsys in Hret. unfold noreturn in Hret.
    apply bind_Ret_inv in Hret as ([] & _).
  - intros Hc Honly. split; [|rewrite Hy; reflexivity].
    destruct Hnext as (d & _ & Hr & _ & Hs); [eauto|].
    rewrite <- (Honly _ Hr) at 1. exact Hs.
Qed.

(** *** The allocator: first fit, and exhaustion *)

(** A page-aligned address from the cursor on is the cursor plus a
    number of pages. *)
Lemma aligned_offset (c a : Z) :
  c mod PAGESIZE = 0 -> a mod PAGESIZE = 0 -> c <= a ->
  exists j, 0 <= j /\ a = c + j * PAGESIZE.
Proof.
  intros Hc Ha Hle. exists ((a - c) / PAGESIZE).
  assert (Hne : PAGESIZE <> 0) by lia.
  assert (Hm : (a - c) mod PAGESIZE = 0)
    by (rewrite Zminus_mod, Ha, Hc; apply Z.mod_0_l; lia).
  pose proof (Z.div_mod (a - c) PAGESIZE Hne) as Hdm.
  split; [apply Z.div_pos; lia|lia].
Qed.

(** X6.  A call of [kalloc] that returns a page returns the first page
    from the cursor on that is allocatable and free: no page before it
    qualifies.  The cursor then stands just after the page.  The call
    changes the reference count of no other page and no byte outside the
    page, and leaves the process table, [current] and every page table
    as they are: the page is handed out without being mapped. *)
Theorem kalloc_first_fit (s : kstate) (sz pa : Z) (s' : kstate)
    (Hwf : wf_alloc s)
    (Hk : kalloc sz s = Ret pa s')
    (Hpa : pa <> 0) :
  (forall a, next_alloc_pa s <= a < pa -> a mod PAGESIZE = 0 -> ~ qualifies s a)
  /\ next_alloc_pa s' = pa + PAGESIZE
  /\ (forall b, b / PAGESIZE <> pa / PAGESIZE -> refcount_of s' b = refcount_of s b)
  /\ (forall a, ~ (pa <= a < pa + PAGESIZE) -> mem s' a = mem s a)
  /\ ptable s' = ptable s /\ current s' = current s
  /\ pagetables s' = pagetables s.
Proof.
  destruct (Z.ltb_spec PAGESIZE sz) as [Hbig|Hsmall].
  { rewrite kalloc_big in Hk by exact Hbig. congruence. }
  destruct (kalloc_small s sz Hwf Hsmall) as (k & Hk0 & Hskip & [(Hlt & Hq & Hr)|(_ & Hr)]);
    rewrite Hk in Hr; injection Hr as Hpa' Hs'; [|congruence].
  destruct Hwf as (Hc & Hal & Hlen). subst s' pa.
  split; [|split; [reflexivity|split; [|split; [|repeat split]]]].
  - intros a Ha Haa.
    destruct (aligned_offset (next_alloc_pa s) a Hal Haa) as (j & Hj & ->); [lia|].
    apply Hskip. nia.
  - intros b Hb. unfold refcount_of, allocated. simpl.
    apply zlookup_zinsert_ne; [apply Z.div_pos; nia|congruence].
  - intros a Ha. unfold allocated, memset. simpl.
    match goal with
    | |- (if ?t then _ else _) = _ => replace t with false by lia
    end.
    reflexivity.
Qed.

(** X7.  The allocator never takes a page back.  When [kalloc] is asked
    for at most a page and returns the null pointer, the cursor has
    reached the end of physical memory, no page from the cursor on
    qualified, and reference counts and memory are as before; from then
    on every call returns the null pointer and changes nothing.
    Assumed: address 0 is not an allocatable page, so that the result 0
    is the null pointer. *)
Theorem kalloc_exhausted (s : kstate) (sz : Z) (s' : kstate)
    (Hwf : wf_alloc s)
    (Hnull : allocatable_physical_address 0 = false)
    (Hsz : sz <= PAGESIZE)
    (Hk : kalloc sz s = Ret 0 s') :
  MEMSIZE_PHYSICAL <= next_alloc_pa s'
  /\ (forall a, next_alloc_pa s <= a < MEMSIZE_PHYSICAL -> a mod PAGESIZE = 0 ->
        ~ qualifies s a)
  /\ physpages s' = physpages s /\ mem s' = mem s
  /\ (forall sz2, kalloc sz2 s' = Ret 0 s').
Proof.
  destruct (kalloc_small s sz Hwf Hsz) as (k & Hk0 & Hskip & [(Hlt & Hq & Hr)|(Hge & Hr)]);
    rewrite Hk in Hr.
  { exfalso. injection Hr as Hpa' _. destruct Hq as [Ha _].
    rewrite <- Hpa' in Ha. congruence. }
  injection Hr as Hs'.
  destruct Hwf as (Hc & Hal & Hlen). subst s'.
  split; [exact Hge|]. split; [|split; [reflexivity|split; [reflexivity|]]].
  - intros a Ha Haa.
    destruct (aligned_offset (next_alloc_pa s) a Hal Haa) as (j & Hj & ->); [lia|].
    apply Hskip. nia.
  - intros sz2. unfold kalloc. destruct (PAGESIZE <? sz2); [reflexivity|].
    kunfold. unfold kalloc_budget. simpl kalloc_loop. kunfold. simpl next_alloc_pa.
    match goal with
    | |- (if ?t then _ else _) _ = _ => replace t with false by (simpl; lia)
    end.
    reflexivity.
Qed.

(** *** Rules of the weakest precondition *)

Lemma wp_bind {A B : Type} (m : K A) (f : A -> K B) (Q : B -> kstate -> Prop)
    (E : outcome Empty_set -> Prop) (s : kstate) :
  wp m (fun a s' => wp (f a) Q E s') E s -> wp (m ≫= f) Q E s.
Proof. unfold wp. kunfold. destruct (m s); auto. Qed.

Lemma wp_mono {A : Type} (m : K A) (Q Q' : A -> kstate -> Prop)
    (E E' : outcome Empty_set -> Prop) (s : kstate) :
  wp m Q E s -> (forall a s', Q a s' -> Q' a s') -> (forall o, E o -> E' o) ->
  wp m Q' E' s.
Proof. unfold wp. intros H HQ HE. destruct (m s); auto. Qed.

(** Sequencing through an intermediate assertion [R]. *)
Lemma wp_cut {A B : Type} (R : A -> kstate -> Prop) (m : K A) (f : A -> K B)
    (Q : B -> kstate -> Prop) (E : outcome Empty_set -> Prop) (s : kstate) :
  wp m R E s -> (forall a s', R a s' -> wp (f a) Q E s') -> wp (m ≫= f) Q E s.
Proof.
  intros Hm Hf. apply wp_bind. eapply wp_mono; [exact Hm| |auto].
  intros a s' HR. apply Hf, HR.
Qed.

Lemma wp_ret {A : Type} (a : A) (Q : A -> kstate -> Prop)
    (E : outcome Empty_set -> Prop) (s : kstate) :
  Q a s -> wp (mret a) Q E s.
Proof. intros H. exact H. Qed.

Lemma wp_fmap {A B : Type} (g : A -> B) (m : K A) (Q : B -> kstate -> Prop)
    (E : outcome Empty_set -> Prop) (s : kstate) :
  wp m (fun a s' => Q (g a) s') E s -> wp (g <$> m) Q E s.
Proof. intros H. apply (wp_bind m (fun a => mret (g a))). exact H. Qed.

Lemma wp_get (Q : kstate -> kstate -> Prop) (E : outcome Empty_set -> Prop)
    (s : kstate) :
  Q s s -> wp get Q E s.
Proof. intros H. exact H. Qed.

Lemma wp_modify (g : kstate -> kstate) (Q : unit -> kstate -> Prop)
    (E : outcome Empty_set -> Prop) (s : kstate) :
  Q tt (g s) -> wp (modify g) Q E s.
Proof. intros H. exact H. Qed.

Lemma wp_must {A : Type} (o : option A) (Q : A -> kstate -> Prop)
    (E : outcome Empty_set -> Prop) (s : kstate) :
  match o with Some a => Q a s | None => E Undef end -> wp (must o) Q E s.
Proof. intros H. destruct o; exact H. Qed.

Lemma wp_assert (b : bool) (e : fatal) (Q : unit -> kstate -> Prop)
    (E : outcome Empty_set -> Prop) (s : kstate) :
  (if b then Q tt s else E (Halted e s)) -> wp (assert b e) Q E s.
Proof. intros H. destruct b; exact H. Qed.

Lemma wp_panic {A : Type} (e : fatal) (Q : A -> kstate -> Prop)
    (E : outcome Empty_set -> Prop) (s : kstate) :
  E (Halted e s) -> wp (panic e) Q E s.
Proof. intros H. exact H. Qed.

Lemma wp_exception_return (Q : Empty_set -> kstate -> Prop)
    (E : outcome Empty_set -> Prop) (s : kstate) :
  E (Resumed s) -> wp exception_return Q E s.
Proof. intros H. exact H. Qed.

Lemma wp_noreturn {A : Type} (m : K Empty_set) (Q : A -> kstate -> Prop)
    (Q' : Empty_set -> kstate -> Prop) (E : outcome Empty_set -> Prop) (s : kstate) :
  wp m Q' E s -> wp (noreturn m) Q E s.
Proof.
  intros H. unfold noreturn. apply (wp_bind m). eapply wp_mono; [exact H| |auto].
  intros [].
Qed.

Lemma wp_proc_at (i : Z) (Q : proc -> kstate -> Prop)
    (E : outcome Empty_set -> Prop) (s : kstate) :
  match zlookup (ptable s) i with Some p => Q p s | None => E Undef end ->
  wp (proc_at i) Q E s.
Proof.
  intros H. unfold proc_at. apply wp_bind, wp_get, wp_must. exact H.
Qed.

Lemma wp_update_proc (i : Z) (f : proc -> proc) (Q : unit -> kstate -> Prop)
    (E : outcome Empty_set -> Prop) (s : kstate) :
  match zlookup (ptable s) i with
  | Some p => Q tt (with_proc i (f p) s)
  | None => E Undef
  end ->
  wp (update_proc i f) Q E s.
Proof.
  intros H. unfold update_proc. apply wp_bind, wp_proc_at.
  destruct (zlookup (ptable s) i); exact H.
Qed.

Lemma wp_current_proc (Q : Z -> kstate -> Prop)
    (E : outcome Empty_set -> Prop) (s : kstate) :
  match current s with Some c => Q c s | None => E Undef end ->
  wp current_proc Q E s.
Proof.
  intros H. unfold current_proc. apply wp_bind, wp_get, wp_must. exact H.
Qed.

Lemma wp_refcount (i : Z) (Q : Z -> kstate -> Prop)
    (E : outcome Empty_set -> Prop) (s : kstate) :
  match zlookup (physpages s) i with Some rc => Q rc s | None => E Undef end ->
  wp (refcount i) Q E s.
Proof.
  intros H. unfold refcount. apply wp_bind, wp_get, wp_must. exact H.
Qed.

Lemma wp_incr_refcount (i : Z) (Q : unit -> kstate -> Prop)
    (E : outcome Empty_set -> Prop) (s : kstate) :
  match zlookup (physpages s) i with
  | Some rc => Q tt (set_physpages (zinsert i (rc + 1) (physpages s)) s)
  | None => E Undef
  end ->
  wp (incr_refcount i) Q E s.
Proof.
  intros H. unfold incr_refcount. apply wp_bind, wp_refcount.
  destruct (zlookup (physpages s) i); exact H.
Qed.

Lemma wp_vmiter_map (pt va pa perm : Z) (Q : unit -> kstate -> Prop)
    (E : outcome Empty_set -> Prop) (s : kstate) :
  match pagetables s !! pt with
  | Some t =>
      Q tt (set_pagetables (<[pt := <[va / PAGESIZE := (pa, perm)]> t]> (pagetables s)) s)
  | None => E Undef
  end ->
  wp (vmiter_map pt va pa perm) Q E s.
Proof.
  intros H. unfold vmiter_map. apply wp_bind, wp_get, wp_bind, wp_must.
  destruct (pagetables s !! pt); exact H.
Qed.

(** A loop keeps an invariant that each of its iterations keeps. *)
Lemma wp_foreach {A : Type} (I : kstate -> Prop) (l : list A) (body : A -> K unit)
    (E : outcome Empty_set -> Prop) (s : kstate) :
  I s ->
  (forall x s', I s' -> wp (body x) (fun _ => I) E s') ->
  wp (foreach l body) (fun _ => I) E s.
Proof.
  intros Hs Hb. revert s Hs. induction l as [|x l IH]; intros s Hs; simpl.
  - exact Hs.
  - apply (wp_cut (fun _ => I)); [apply Hb, Hs|]. intros _ s' Hs'. apply IH, Hs'.
Qed.

(** The same, with an invariant that may speak of the elements done. *)
Lemma wp_foreach_done {A : Type} (I : list A -> kstate -> Prop) (l : list A)
    (body : A -> K unit) (E : outcome Empty_set -> Prop) (s : kstate) :
  I [] s ->
  (forall done x s', I done s' -> wp (body x) (fun _ => I (done ++ [x])) E s') ->
  wp (foreach l body) (fun _ => I l) E s.
Proof.
  intros Hs Hb.
  assert (H : forall done l s, I done s ->
            wp (foreach l body) (fun _ => I (done ++ l)) E s).
  { clear s Hs. intros done l0. revert done.
    induction l0 as [|x l0 IH]; intros done s Hs; simpl.
    - rewrite app_nil_r. exact Hs.
    - apply (wp_cut (fun _ => I (done ++ [x]))); [apply Hb, Hs|].
      intros _ s' Hs'. replace (done ++ x :: l0) with ((done ++ [x]) ++ l0)
        by (rewrite <- app_assoc; reflexivity).
      apply IH, Hs'. }
  apply (H [] l s Hs).
Qed.

Lemma wp_for_loop (I : kstate -> Prop) (fuel : nat) (cond : Z -> bool)
    (step : Z -> Z) (body : Z -> K unit) (i : Z)
    (E : outcome Empty_set -> Prop) (s : kstate) :
  I s -> E OutOfFuel ->
  (forall x s', I s' -> wp (body x) (fun _ => I) E s') ->
  wp (for_loop fuel cond step body i) (fun _ => I) E s.
Proof.
  intros Hs Hfuel Hb. revert i s Hs.
  induction fuel as [|n IH]; intros i s Hs; simpl; [exact Hfuel|].
  destruct (cond i); [|exact Hs].
  apply (wp_cut (fun _ => I)); [apply Hb, Hs|]. intros _ s' Hs'. apply IH, Hs'.
Qed.

(** [preserves] in terms of [wp]. *)
Lemma preserves_wp {A : Type} (I : kstate -> Prop) (m : K A) :
  preserves I m <-> forall s, I s -> wp m (fun _ => I) (stops I) s.
Proof.
  unfold preserves, wp, stops.
  split; intros H s Hs; specialize (H s Hs); destruct (m s); auto.
Qed.

(** One step of a symbolic run. *)
Ltac wp_step :=
  lazymatch goal with
  | |- wp (mbind _ _) _ _ _ => apply wp_bind
  | |- wp (mret _) _ _ _ => apply wp_ret
  | |- wp (fmap _ _) _ _ _ => apply wp_fmap
  | |- wp get _ _ _ => apply wp_get
  | |- wp (modify _) _ _ _ => apply wp_modify
  | |- wp (panic _) _ _ _ => apply wp_panic
  | |- wp exception_return _ _ _ => apply wp_exception_return
  | |- wp (must ?o) _ _ _ => apply wp_must; destruct o eqn:?
  | |- wp (assert ?b _) _ _ _ => apply wp_assert; destruct b eqn:?
  | |- wp (proc_at ?i) _ _ ?s =>
      apply wp_proc_at; destruct (zlookup (ptable s) i) eqn:?
  | |- wp (update_proc ?i _) _ _ ?s =>
      apply wp_update_proc; destruct (zlookup (ptable s) i) eqn:?
  | |- wp current_proc _ _ ?s =>
      apply wp_current_proc; destruct (current s) eqn:?
  | |- wp (refcount ?i) _ _ ?s =>
      apply wp_refcount; destruct (zlookup (physpages s) i) eqn:?
  | |- wp (incr_refcount ?i) _ _ ?s =>
      apply wp_incr_refcount; destruct (zlookup (physpages s) i) eqn:?
  | |- wp (vmiter_map ?pt _ _ _) _ _ ?s =>
      apply wp_vmiter_map; destruct (pagetables s !! pt) eqn:?
  | |- wp (if ?b then _ else _) _ _ _ => destruct b eqn:?
  | |- wp (let _ := _ in _) _ _ _ => cbv zeta
  end; cbv beta.

(** *** The invariant of the kernel: the updates that keep it *)

Lemma kernel_inv_with_proc (b : bool) (s : kstate) (c : Z) (p q : proc) :
  kernel_inv_at b s -> zlookup (ptable s) c = Some p ->
  slot_ok c q -> (b = true -> pid q = c) ->
  (current s = Some c -> state q <> P_FREE) ->
  kernel_inv_at b (with_proc c q s).
Proof.
  intros (Hl & Hpp & Hsl & Hcur & Hrest) Hp Hq Hpid Hc.
  pose proof (zlookup_bounds _ _ _ Hp) as Hb.
  unfold kernel_inv_at, with_proc. simpl.
  split; [rewrite length_zinsert; exact Hl|]. split; [exact Hpp|].
  split; [|split; [|exact Hrest]].
  - intros x p' Hp'. destruct (decide (x = c)) as [->|Hne].
    + rewrite zlookup_zinsert_eq in Hp' by exact Hb. injection Hp' as <-. auto.
    + rewrite zlookup_zinsert_ne in Hp' by lia. apply Hsl, Hp'.
  - destruct b; [|exact Hcur]. intros c' Hc'.
    destruct (decide (c' = c)) as [->|Hne].
    + exists q. rewrite zlookup_zinsert_eq by exact Hb. auto.
    + rewrite zlookup_zinsert_ne by lia. apply Hcur, Hc'.
Qed.

(** The descriptor of the current process is in use. *)
Lemma kernel_inv_current (b : bool) (s : kstate) (c : Z) (p : proc) :
  kernel_inv_at b s -> current s = Some c -> zlookup (ptable s) c = Some p ->
  state p <> P_FREE.
Proof.
  intros (_ & _ & _ & Hcur & _) Hc Hp. destruct b; [|congruence].
  destruct (Hcur c Hc) as (p' & Hp' & Hst). congruence.
Qed.

(** An update that keeps [pid], [state] and [pagetable] of a
    descriptor. *)
Lemma kernel_inv_regs (b : bool) (s : kstate) (c : Z) (p q : proc) :
  kernel_inv_at b s -> zlookup (ptable s) c = Some p ->
  pid q = pid p -> state q = state p -> pagetable q = pagetable p ->
  kernel_inv_at b (with_proc c q s).
Proof.
  intros Hinv Hp Hpid Hst Hpt.
  pose proof Hinv as (_ & _ & Hsl & _).
  destruct (Hsl c p Hp) as [Hok Hpidp].
  apply (kernel_inv_with_proc b s c p); [exact Hinv|exact Hp| | |].
  - unfold slot_ok in *. rewrite Hst, Hpt. exact Hok.
  - intros Hb. rewrite Hpid. auto.
  - intros Hc. rewrite Hst. eapply kernel_inv_current; eassumption.
Qed.

(** The current process becomes FAULTED. *)
Lemma kernel_inv_faulted (b : bool) (s : kstate) (c : Z) (p : proc) :
  kernel_inv_at b s -> current s = Some c -> zlookup (ptable s) c = Some p ->
  kernel_inv_at b (with_proc c (set_state P_FAULTED p) s).
Proof.
  intros Hinv Hc Hp.
  pose proof Hinv as (_ & _ & Hsl & _).
  destruct (Hsl c p Hp) as [[_ Hok] Hpidp].
  pose proof (kernel_inv_current b s c p Hinv Hc Hp) as Hst.
  apply (kernel_inv_with_proc b s c p); [exact Hinv|exact Hp| |exact Hpidp|].
  - split; [discriminate|]. intros _. apply Hok, Hst.
  - discriminate.
Qed.

(** Fields the invariant does not speak of may change. *)
Lemma kernel_inv_fields (b : bool) (s s' : kstate) :
  kernel_inv_at b s ->
  ptable s' = ptable s -> physpages s' = physpages s -> current s' = current s ->
  pagetables s' = pagetables s -> pipebuf_len s' = pipebuf_len s ->
  kernel_inv_at b s'.
Proof. unfold kernel_inv_at. intros H -> -> -> -> ->. exact H. Qed.

Lemma kernel_inv_set_pipebuf_len (b : bool) (s : kstate) (v : Z) :
  kernel_inv_at b s -> v = 0 \/ v = 1 -> kernel_inv_at b (set_pipebuf_len v s).
Proof.
  intros (H1 & H2 & H3 & H4 & H5 & H6 & _) Hv.
  unfold kernel_inv_at. simpl. auto 10.
Qed.

(** A free page gets its reference. *)
Lemma kernel_inv_incr (b : bool) (s : kstate) (i rc : Z) :
  kernel_inv_at b s -> zlookup (physpages s) i = Some rc -> rc = 0 ->
  kernel_inv_at b (set_physpages (zinsert i (rc + 1) (physpages s)) s).
Proof.
  intros (H1 & H2 & H3 & H4 & H5 & H6) Hi ->.
  pose proof (zlookup_bounds _ _ _ Hi) as Hb.
  unfold kernel_inv_at. simpl.
  split; [exact H1|]. split; [rewrite length_zinsert; exact H2|].
  split; [exact H3|]. split; [exact H4|]. split; [|exact H6].
  intros j rc Hj. destruct (decide (j = i)) as [->|Hne].
  - rewrite zlookup_zinsert_eq in Hj by exact Hb. injection Hj as <-. auto.
  - rewrite zlookup_zinsert_ne in Hj by lia. apply (H5 j), Hj.
Qed.

(** A mapping is installed in a page table that exists. *)
Lemma kernel_inv_map (b : bool) (s : kstate) (pt : Z) (t t' : gmap Z pte) :
  kernel_inv_at b s -> pagetables s !! pt = Some t ->
  kernel_inv_at b (set_pagetables (<[pt := t']> (pagetables s)) s).
Proof.
  intros (H1 & H2 & H3 & H4 & H5 & H6 & H7) Hpt.
  unfold kernel_inv_at. simpl.
  split; [exact H1|]. split; [exact H2|]. split; [exact H3|].
  split; [exact H4|]. split; [exact H5|]. split; [|exact H7].
  intros k. destruct (decide (k = pt)) as [->|Hne].
  - rewrite lookup_insert_eq. split; [intros _; apply H6; eauto|eauto].
  - rewrite lookup_insert_ne by congruence. apply H6.
Qed.

(** A slot in use becomes the current process. *)
Lemma kernel_inv_set_current (s : kstate) (x : Z) (p : proc) :
  kernel_inv s -> zlookup (ptable s) x = Some p -> state p <> P_FREE ->
  kernel_inv (set_current (Some x) s).
Proof.
  intros (H1 & H2 & H3 & H4 & H5) Hp Hst.
  unfold kernel_inv, kernel_inv_at. simpl.
  split; [exact H1|]. split; [exact H2|]. split; [exact H3|]. split; [|exact H5].
  intros c [= <-]. eauto.
Qed.

(** The process table is set up. *)
Lemma kernel_inv_booted (s : kstate) :
  kernel_inv_at false s -> pids_are_indices s -> kernel_inv s.
Proof.
  intros (H1 & H2 & H3 & H4 & H5) Hpids.
  unfold kernel_inv, kernel_inv_at.
  split; [exact H1|]. split; [exact H2|]. split; [|split; [|exact H5]].
  - intros x p Hp. split; [apply (H3 x p Hp)|]. intros _. apply (Hpids x p Hp).
  - intros c Hc. congruence.
Qed.

Create HintDb kinv.
#[local] Hint Resolve kernel_inv_regs kernel_inv_faulted kernel_inv_set_pipebuf_len
  kernel_inv_incr kernel_inv_map : kinv.

(** The leaves of a symbolic run: the invariant after the updates made. *)
Ltac kinv :=
  simpl stops; simpl resumes;
  lazymatch goal with
  | |- True => exact I
  | |- kernel_inv_at _ _ =>
      first [assumption
            |eapply kernel_inv_fields; [eassumption|reflexivity..]
            |eauto with kinv]
  | |- kernel_inv _ =>
      first [assumption
            |eapply kernel_inv_fields; [eassumption|reflexivity..]
            |eauto with kinv]
  | _ => idtac
  end.

(** *** The invariant of the kernel: [run] and [schedule] *)

Lemma wp_preserves {A : Type} (I : kstate -> Prop) (m : K A) (s : kstate) :
  preserves I m -> I s -> wp m (fun _ => I) (stops I) s.
Proof. intros H. apply preserves_wp, H. Qed.

Lemma kernel_inv_run (x : Z) : preserves kernel_inv (run x).
Proof.
  apply preserves_wp. intros s Hinv. unfold run.
  apply wp_bind, wp_proc_at.
  destruct (zlookup (ptable s) x) as [p|] eqn:Hp; [|exact I].
  apply wp_bind, wp_assert.
  destruct (procstate_eqb (state p) P_RUNNABLE) eqn:E; [|exact Hinv].
  apply procstate_eqb_eq in E.
  assert (H1 : kernel_inv (set_current (Some x) s))
    by (eapply kernel_inv_set_current; [exact Hinv|exact Hp|congruence]).
  repeat wp_step; kinv.
Qed.

Lemma kernel_inv_schedule : preserves kernel_inv schedule.
Proof.
  unfold schedule, current_proc, proc_at. repeat preserves_step idtac.
  apply preserves_schedule_loop, kernel_inv_run.
Qed.

Lemma kernel_inv_resume_or_schedule : preserves kernel_inv resume_or_schedule.
Proof.
  unfold resume_or_schedule, current_proc, proc_at. repeat preserves_step idtac.
  - apply kernel_inv_run.
  - apply kernel_inv_schedule.
Qed.

(** *** The invariant of the kernel: [exception], [syscall], [kalloc] *)

Lemma kernel_inv_exception (r : regstate) : preserves kernel_inv (exception r).
Proof.
  apply preserves_wp. intros s Hinv. unfold exception.
  apply wp_bind, wp_current_proc.
  destruct (current s) as [c|] eqn:Hc; [|exact I].
  apply (wp_cut (fun _ s' => kernel_inv s' /\ current s' = Some c)).
  { apply wp_update_proc. destruct (zlookup (ptable s) c) as [p|] eqn:Hp; [|exact I].
    split; [|exact Hc]. eapply kernel_inv_regs; [exact Hinv|exact Hp|reflexivity..]. }
  clear s Hinv Hc. intros _ s [Hinv Hc].
  apply (wp_cut (fun _ => kernel_inv)).
  - destruct (reg_intno r =? INT_IRQ + IRQ_TIMER).
    { apply wp_bind, wp_modify.
      apply (wp_noreturn _ _ (fun _ => kernel_inv)), wp_preserves;
        [apply kernel_inv_schedule|kinv]. }
    destruct (reg_intno r =? INT_PF); [|apply wp_panic; exact Hinv].
    apply wp_bind.
    destruct (Z.land (reg_errcode r) PTE_U =? 0); [apply wp_panic; exact Hinv|].
    apply wp_ret, wp_update_proc.
    destruct (zlookup (ptable s) c) as [p|] eqn:Hp; [|exact I].
    eapply kernel_inv_faulted; eassumption.
  - intros _ s' Hinv'. apply wp_preserves;
      [apply kernel_inv_resume_or_schedule|exact Hinv'].
Qed.

Lemma kernel_inv_syscall (r : regstate) : preserves kernel_inv (syscall r).
Proof.
  apply preserves_wp. intros s Hinv. unfold syscall.
  apply wp_bind, wp_current_proc.
  destruct (current s) as [c|] eqn:Hc; [|exact I].
  apply (wp_cut (fun _ s' => kernel_inv s' /\ current s' = Some c)).
  { apply wp_update_proc. destruct (zlookup (ptable s) c) as [p|] eqn:Hp; [|exact I].
    split; [|exact Hc]. eapply kernel_inv_regs; [exact Hinv|exact Hp|reflexivity..]. }
  clear s Hinv Hc. intros _ s [Hinv Hc].
  destruct (reg_rax r =? SYSCALL_PANIC); [apply wp_panic; exact Hinv|].
  destruct (reg_rax r =? SYSCALL_GETPID); [repeat wp_step; kinv|].
  destruct (reg_rax r =? SYSCALL_YIELD).
  { apply (wp_cut (fun _ => kernel_inv)).
    - apply wp_update_proc. destruct (zlookup (ptable s) c) as [p|] eqn:Hp; [|exact I].
      eapply kernel_inv_regs; [exact Hinv|exact Hp|reflexivity..].
    - intros _ s' Hinv'.
      apply (wp_noreturn _ _ (fun _ => kernel_inv)), wp_preserves;
        [apply kernel_inv_schedule|exact Hinv']. }
  destruct (reg_rax r =? SYSCALL_PAGE_ALLOC).
  { unfold syscall_page_alloc. apply wp_fmap, wp_bind, wp_refcount.
    destruct (zlookup (physpages s) (reg_rdi r / PAGESIZE)) as [rc|] eqn:Hrc; [|exact I].
    apply wp_bind, wp_assert. destruct (rc =? 0) eqn:E; [|exact Hinv].
    apply Z.eqb_eq in E. apply wp_bind, wp_incr_refcount. rewrite Hrc.
    pose proof (kernel_inv_incr _ _ _ _ Hinv Hrc E) as H1.
    repeat wp_step; kinv. }
  destruct (reg_rax r =? SYSCALL_GETSYSNAME); [repeat wp_step; kinv|].
  destruct (reg_rax r =? SYSCALL_SPAWN); [unfold syscall_spawn; repeat wp_step; kinv|].
  destruct (reg_rax r =? SYSCALL_PIPEWRITE).
  { unfold syscall_pipewrite. repeat wp_step; kinv.
    apply kernel_inv_set_pipebuf_len; [kinv|auto]. }
  destruct (reg_rax r =? SYSCALL_PIPEREAD).
  { unfold syscall_piperead. repeat wp_step; kinv.
    apply kernel_inv_set_pipebuf_len; [kinv|auto]. }
  apply wp_panic. exact Hinv.
Qed.

Lemma kernel_inv_kalloc (sz : Z) : preserves kernel_inv (kalloc sz).
Proof.
  apply preserves_wp.
  assert (Hloop : forall fuel s, kernel_inv s ->
            wp (kalloc_loop fuel) (fun _ => kernel_inv) (stops kernel_inv) s).
  { induction fuel as [|n IH]; intros s Hinv; simpl kalloc_loop; [exact I|].
    apply wp_bind, wp_get.
    destruct (next_alloc_pa s <? MEMSIZE_PHYSICAL); [|exact Hinv].
    apply wp_bind, wp_modify.
    set (s1 := set_next_alloc_pa _ s).
    assert (H1 : kernel_inv s1) by (unfold s1; kinv).
    clearbody s1.
    destruct (allocatable_physical_address (next_alloc_pa s)); [|apply IH, H1].
    apply wp_bind, wp_refcount.
    destruct (zlookup (physpages s1) (next_alloc_pa s / PAGESIZE)) as [rc|] eqn:Hrc;
      [|exact I].
    destruct (rc =? 0) eqn:E; [|apply IH, H1].
    apply Z.eqb_eq in E. apply wp_bind, wp_incr_refcount. rewrite Hrc.
    pose proof (kernel_inv_incr _ _ _ _ H1 Hrc E) as H2.
    repeat wp_step; kinv. }
  intros s Hinv. unfold kalloc.
  destruct (PAGESIZE <? sz); [exact Hinv|].
  apply wp_bind, wp_get, Hloop, Hinv.
Qed.

(** *** The invariant of the kernel: [process_setup] and [kernel_start] *)

Lemma setup_inv_regs (i : Z) (f : proc -> proc) (s : kstate) :
  (forall p, pid (f p) = pid p /\ state (f p) = state p
             /\ pagetable (f p) = pagetable p) ->
  setup_inv i s ->
  wp (update_proc i f) (fun _ => setup_inv i) (stops kernel_inv) s.
Proof.
  intros Hf [Hinv Hpt]. apply wp_update_proc.
  destruct (zlookup (ptable s) i) as [p|] eqn:Hp; [|exact I].
  destruct (Hf p) as (H1 & H2 & H3). split.
  - eapply kernel_inv_regs; eassumption.
  - intros p' Hp'. erewrite with_proc_lookup in Hp' by exact Hp.
    injection Hp' as <-. rewrite H3. apply Hpt. reflexivity.
Qed.

(** A free page gets its reference, and a page its mapping, while a
    process is loaded. *)
Lemma setup_inv_incr (i j : Z) (e : fatal) (k : K unit) (s : kstate) :
  setup_inv i s ->
  (forall s', setup_inv i s' -> wp k (fun _ => kernel_inv) (stops kernel_inv) s') ->
  wp (rc ← refcount j; assert (rc =? 0) e;; incr_refcount j;; k)
     (fun _ => kernel_inv) (stops kernel_inv) s.
Proof.
  intros [Hinv Hpt] Hk.
  apply wp_bind, wp_refcount.
  destruct (zlookup (physpages s) j) as [rc|] eqn:Hrc; [|exact I].
  apply wp_bind, wp_assert. destruct (rc =? 0) eqn:E; [|exact Hinv].
  apply Z.eqb_eq in E. apply wp_bind, wp_incr_refcount. rewrite Hrc.
  apply Hk. split; [|exact Hpt].
  apply (kernel_inv_incr _ _ _ _ Hinv Hrc E).
Qed.

Lemma setup_inv_map (i pt a perm : Z) (s : kstate) :
  setup_inv i s ->
  wp (vmiter_map pt a a perm) (fun _ => setup_inv i) (stops kernel_inv) s.
Proof.
  intros [Hinv Hpt]. apply wp_vmiter_map.
  destruct (pagetables s !! pt) as [t|] eqn:Ht; [|exact I].
  split; [|exact Hpt]. eapply (kernel_inv_map true s); [exact Hinv|exact Ht].
Qed.

Lemma kernel_inv_process_setup (i : Z) (name : string) :
  i = 1 \/ i = 2 -> preserves kernel_inv (process_setup i name).
Proof.
  intros Hi. apply preserves_wp. intros s Hinv. unfold process_setup, init_process.
  apply (wp_cut (fun _ => kernel_inv)).
  { apply wp_update_proc. destruct (zlookup (ptable s) i) as [p|] eqn:Hp; [|exact I].
    eapply kernel_inv_regs; [exact Hinv|exact Hp|reflexivity..]. }
  clear s Hinv. intros _ s Hinv. cbv zeta.
  apply (wp_cut (fun _ => setup_inv i)).
  { apply wp_update_proc. destruct (zlookup (ptable s) i) as [p|] eqn:Hp; [|exact I].
    pose proof Hinv as (_ & _ & Hsl & _).
    destruct (Hsl i p Hp) as [[Hnb Hok] Hpid]. split.
    - apply (kernel_inv_with_proc true s i p); [exact Hinv|exact Hp| |exact Hpid|].
      + split; [exact Hnb|]. intros _. split; [exact Hi|reflexivity].
      + intros Hc. apply (kernel_inv_current true s i p Hinv Hc Hp).
    - intros p' Hp'. erewrite with_proc_lookup in Hp' by exact Hp.
      injection Hp' as <-. reflexivity. }
  clear s Hinv. intros _ s HJ.
  apply wp_bind, wp_must. destruct (program_image name) as [pgm|]; [|exact I].
  apply (wp_cut (fun _ => setup_inv i)).
  { apply wp_foreach; [exact HJ|]. intros seg s1 HJ1.
    apply wp_for_loop; [exact HJ1|exact I|]. intros a s2 HJ2. unfold load_page.
    apply wp_bind, wp_assert.
    destruct (_ && _); [|exact (proj1 HJ2)].
    pose proof HJ2 as [Hinv2 Hpt2].
    apply wp_bind, wp_refcount.
    destruct (zlookup (physpages s2) (a / PAGESIZE)) as [rc|] eqn:Hrc; [|exact I].
    apply wp_bind, wp_assert. destruct (rc =? 0) eqn:E; [|exact Hinv2].
    apply Z.eqb_eq in E. apply wp_bind, wp_incr_refcount. rewrite Hrc.
    apply wp_bind, wp_proc_at. simpl ptable.
    destruct (zlookup (ptable s2) i) as [p|] eqn:Hp; [|exact I].
    apply setup_inv_map. split; [|simpl; rewrite Hp; exact Hpt2].
    apply (kernel_inv_incr _ _ _ _ Hinv2 Hrc E). }
  clear s HJ. intros _ s HJ.
  apply (wp_cut (fun _ => setup_inv i)).
  { apply wp_foreach; [exact HJ|]. intros seg s1 [Hinv1 Hpt1].
    repeat wp_step. split; [kinv|exact Hpt1]. }
  clear s HJ. intros _ s HJ.
  apply (wp_cut (fun _ => setup_inv i)).
  { apply setup_inv_regs; [intros p; repeat split|exact HJ]. }
  clear s HJ. intros _ s HJ.
  cbv zeta. apply (setup_inv_incr i); [exact HJ|].
  clear s HJ. intros s HJ.
  apply wp_bind, wp_proc_at.
  destruct (zlookup (ptable s) i) as [p0|] eqn:Hp0; [|exact I].
  apply (wp_cut (fun _ => setup_inv i)); [apply setup_inv_map, HJ|].
  clear s HJ Hp0. intros _ s HJ.
  apply (wp_cut (fun _ => setup_inv i)).
  { apply setup_inv_regs; [intros p; repeat split|exact HJ]. }
  clear s HJ. intros _ s [Hinv Hpt].
  apply wp_update_proc. destruct (zlookup (ptable s) i) as [p|] eqn:Hp; [|exact I].
  pose proof Hinv as (_ & _ & Hsl & _).
  destruct (Hsl i p Hp) as [_ Hpid].
  apply (kernel_inv_with_proc true s i p); [exact Hinv|exact Hp| |exact Hpid|].
  - split; [discriminate|]. intros _. split; [exact Hi|]. exact (Hpt p eq_refl).
  - discriminate.
Qed.

Lemma wp_ext {A : Type} (m m' : K A) (Q : A -> kstate -> Prop)
    (E : outcome Empty_set -> Prop) (s : kstate) :
  m s = m' s -> wp m' Q E s -> wp m Q E s.
Proof. unfold wp. intros ->. auto. Qed.

Lemma stops_resumes (I : kstate -> Prop) (o : outcome Empty_set) :
  stops I o -> resumes I o.
Proof. destruct o; simpl; auto. Qed.

Lemma kernel_inv_boot_state (pt : gmap Z pte) (m : Z -> Z) :
  kernel_inv_at false (boot_state pt m).
Proof.
  unfold kernel_inv_at, boot_state. simpl.
  split; [apply length_replicate|]. split; [apply length_replicate|].
  split; [|split; [reflexivity|split; [|split; [|auto]]]].
  - intros x p Hp. unfold zlookup in Hp. destruct (0 <=? x); [|discriminate].
    apply lookup_replicate in Hp as [-> _].
    split; [|discriminate]. split; [discriminate|]. intros H. contradiction.
  - intros i rc Hi. unfold zlookup in Hi. destruct (0 <=? i); [|discriminate].
    apply lookup_replicate in Hi as [-> _]. auto.
  - intros k. destruct (decide (k = kernel_pagetable)) as [->|Hne].
    + rewrite lookup_singleton_eq. split; eauto.
    + rewrite lookup_singleton_ne by congruence.
      split; [intros [? H]; discriminate|congruence].
Qed.

(** The two loops of [kernel_start] set up the invariant. *)
Lemma kernel_inv_init_kernel_pagetable (s : kstate) :
  kernel_inv_at false s ->
  wp init_kernel_pagetable (fun _ => kernel_inv_at false) (resumes kernel_inv) s.
Proof.
  intros Hinv. unfold init_kernel_pagetable.
  apply wp_for_loop; [exact Hinv|exact I|]. intros va s' Hs'.
  destruct (va =? CONSOLE_ADDR); [|destruct (negb (va =? 0))];
    apply wp_vmiter_map;
    (destruct (pagetables s' !! kernel_pagetable) as [t|] eqn:Ht; [|exact I]);
    eapply kernel_inv_map; eassumption.
Qed.

Lemma kernel_inv_init_ptable (s : kstate) :
  kernel_inv_at false s ->
  wp init_ptable (fun _ => kernel_inv) (resumes kernel_inv) s.
Proof.
  intros Hinv. eapply wp_ext; [apply init_ptable_foreach|].
  eapply wp_mono; [apply (wp_foreach_done init_inv)| |intros o Ho; exact Ho].
  - split; [exact Hinv|]. intros x p Hx. apply elem_of_nil in Hx. contradiction.
  - intros done i s1 [Hinv1 Hdone].
    apply wp_bind, wp_update_proc.
    destruct (zlookup (ptable s1) i) as [p|] eqn:Hp; [|exact I].
    pose proof Hinv1 as (_ & _ & Hsl & Hcur & _).
    destruct (Hsl i p Hp) as [Hok _].
    assert (H2 : kernel_inv_at false (with_proc i (set_pid i p) s1)).
    { apply (kernel_inv_with_proc false s1 i p); [exact Hinv1|exact Hp|exact Hok| |];
        [discriminate|congruence]. }
    assert (Hp2 : zlookup (ptable (with_proc i (set_pid i p) s1)) i = Some (set_pid i p))
      by (eapply with_proc_lookup, Hp).
    apply wp_update_proc. rewrite Hp2.
    pose proof (zlookup_bounds _ _ _ Hp) as Hb.
    split.
    + apply (kernel_inv_with_proc false _ i (set_pid i p)); [exact H2|exact Hp2| | |].
      * split; [discriminate|]. intros H. contradiction.
      * discriminate.
      * simpl. congruence.
    + intros x q Hx Hq. rewrite with_proc_twice in Hq.
      destruct (decide (x = i)) as [->|Hne].
      * erewrite with_proc_lookup in Hq by exact Hp. injection Hq as <-. reflexivity.
      * rewrite with_proc_lookup_ne in Hq by lia.
        apply elem_of_app in Hx as [Hx|Hx]; [apply (Hdone x q Hx Hq)|].
        apply list_elem_of_singleton in Hx. contradiction.
  - intros _ s' [Hinv' Hdone]. apply kernel_inv_booted; [exact Hinv'|].
    intros x p Hp. apply (Hdone x p); [|exact Hp].
    pose proof (zlookup_bounds _ _ _ Hp) as Hb.
    destruct Hinv' as (Hl & _). rewrite Hl in Hb.
    apply elem_of_range; [lia|]. exists x. lia.
Qed.

(** [kernel_start] resumes the first process in a state that has the
    invariant. *)
Lemma kernel_inv_kernel_start (cmd : option string) (pt : gmap Z pte) (m : Z -> Z) :
  wp (kernel_start cmd) (fun _ _ => True) (resumes kernel_inv) (boot_state pt m).
Proof.
  unfold kernel_start. apply wp_bind, wp_modify.
  apply (wp_cut (fun _ => kernel_inv_at false)).
  { apply kernel_inv_init_kernel_pagetable.
    eapply kernel_inv_fields; [apply (kernel_inv_boot_state pt m)|reflexivity..]. }
  intros _ s1 H1.
  apply (wp_cut (fun _ => kernel_inv)); [apply kernel_inv_init_ptable, H1|].
  intros _ s2 H2. cbv zeta.
  assert (Hsetup : forall i name s, i = 1 \/ i = 2 -> kernel_inv s ->
            wp (process_setup i name) (fun _ => kernel_inv) (resumes kernel_inv) s).
  { intros i name s Hi Hs. eapply wp_mono;
      [apply wp_preserves; [apply kernel_inv_process_setup, Hi|exact Hs]
      |auto|apply stops_resumes]. }
  apply (wp_cut (fun _ => kernel_inv)).
  { destruct (program_image (default WEENSYOS_FIRST_PROCESS cmd));
      [apply Hsetup; auto|].
    destruct (bool_decide _);
      (apply (wp_cut (fun _ => kernel_inv)); [apply Hsetup; auto|]);
      intros _ s3 H3; apply Hsetup; auto. }
  intros _ s3 H3. eapply wp_mono;
    [apply wp_preserves; [apply kernel_inv_run|exact H3]|auto|apply stops_resumes].
Qed.

(** Every reachable state has the invariant. *)
Lemma reachable_kernel_inv (s : kstate) : reachable s -> kernel_inv s.
Proof.
  intros Hr.
  induction Hr as [cmd pt m s Hrun|s r s' _ IH Hrun|s r v s' _ IH Hrun
                  |s r s' _ IH Hrun|s m _ IH|s sz pa s' _ IH Hrun].
  - pose proof (kernel_inv_kernel_start cmd pt m) as H. unfold wp in H.
    rewrite Hrun in H. exact H.
  - pose proof (kernel_inv_exception r s IH) as H. rewrite Hrun in H. exact H.
  - pose proof (kernel_inv_syscall r s IH) as H. rewrite Hrun in H. exact H.
  - pose proof (kernel_inv_syscall r s IH) as H. rewrite Hrun in H. exact H.
  - eapply kernel_inv_fields; [exact IH|reflexivity..].
  - pose proof (kernel_inv_kalloc sz s IH) as H. rewrite Hrun in H. exact H.
Qed.

(** *** What holds in every reachable state *)

(** X8.  In every reachable state the process table has its [NPROC]
    slots and every slot holds its own index as [pid]; only the slots 1
    and 2 are in use ("[ptable[0]] is never used", and SYSCALL_SPAWN
    creates no process): every other slot is FREE; no process is
    BLOCKED; and the current process is slot 1 or slot 2 and is
    RUNNABLE. *)
Theorem reachable_process_table (s : kstate) (Hreach : reachable s) :
  Z.of_nat (length (ptable s)) = NPROC
  /\ pids_are_indices s
  /\ (forall x p, zlookup (ptable s) x = Some p -> x <> 1 -> x <> 2 ->
        state p = P_FREE)
  /\ (forall x p, zlookup (ptable s) x = Some p -> state p <> P_BLOCKED)
  /\ exists c pc,
       current s = Some c /\ (c = 1 \/ c = 2)
       /\ zlookup (ptable s) c = Some pc
       /\ state pc = P_RUNNABLE /\ pid pc = c /\ 0 <= pid pc < NPROC.
Proof.
  pose proof (reachable_kernel_inv s Hreach) as (Hl & _ & Hsl & _).
  destruct (reachable_running s Hreach) as (c & Hc & Hrun).
  destruct (runnable_inv s c Hrun) as (pc & Hpc & Hst).
  pose proof (zlookup_bounds _ _ _ Hpc) as Hb.
  assert (HN : Z.of_nat (length (ptable s)) = NPROC) by lia.
  destruct (Hsl c pc Hpc) as [[_ Hok] Hpid].
  split; [exact HN|]. split; [|split; [|split]].
  - intros x p Hp. apply (Hsl x p Hp). reflexivity.
  - intros x p Hp H1 H2. destruct (Hsl x p Hp) as [[_ Hokx] _].
    destruct (state p) eqn:Hf; [reflexivity|..];
      (destruct Hokx as [[?|?] _]; [discriminate|contradiction..]).
  - intros x p Hp. apply (Hsl x p Hp).
  - exists c, pc. rewrite (Hpid eq_refl).
    split; [exact Hc|]. split; [apply Hok; congruence|].
    split; [exact Hpc|]. split; [exact Hst|]. split; [reflexivity|lia].
Qed.

(** X9.  In every reachable state every reference count is 0 or 1: each
    increment of the kernel is guarded by a test for 0, so no page is
    ever counted twice or shared.  The kernel page table is the only
    page table there is, and every process in use has it as its page
    table. *)
Theorem reachable_refcounts (s : kstate) (Hreach : reachable s) :
  length (physpages s) = Z.to_nat NPAGES
  /\ (forall pa rc, refcount_of s pa = Some rc -> rc = 0 \/ rc = 1)
  /\ (forall pt, is_Some (pagetables s !! pt) <-> pt = kernel_pagetable)
  /\ (forall x p, zlookup (ptable s) x = Some p -> state p <> P_FREE ->
        pagetable p = kernel_pagetable).
Proof.
  pose proof (reachable_kernel_inv s Hreach) as (_ & Hl & Hsl & _ & Hrc & Hpt & _).
  split; [exact Hl|]. split; [|split; [exact Hpt|]].
  - intros pa rc. apply Hrc.
  - intros x p Hp Hst. destruct (Hsl x p Hp) as [[_ Hok] _]. apply Hok, Hst.
Qed.

(** X10.  In every reachable state the pipe holds no byte or one byte,
    and of a write and a read of non-zero size exactly one goes through:
    on the empty pipe the write takes the first byte of its buffer and
    the read is told to try again; on the full pipe the write is told to
    try again and the read hands out the buffered byte. *)
Theorem reachable_pipe (s : kstate) (wbuf rbuf wsz rsz : Z)
    (Hreach : reachable s) (Hw : wsz <> 0) (Hr : rsz <> 0) :
  (pipebuf_len s = 0
   /\ syscall_pipewrite wbuf wsz s
      = Ret 1 (set_pipebuf_len 1 (set_pipebuf (mem s wbuf) s))
   /\ syscall_piperead rbuf rsz s = Ret (-1) s)
  \/ (pipebuf_len s = 1
      /\ syscall_pipewrite wbuf wsz s = Ret (-1) s
      /\ syscall_piperead rbuf rsz s
         = Ret 1 (set_pipebuf_len 0 (set_mem (store_byte rbuf (pipebuf s) (mem s)) s))).
Proof.
  pose proof (reachable_kernel_inv s Hreach) as (_ & _ & _ & _ & _ & _ & Hpipe).
  unfold syscall_pipewrite, syscall_piperead. kunfold.
  replace (wsz =? 0) with false by lia. replace (rsz =? 0) with false by lia.
  destruct Hpipe as [H|H]; rewrite H; simpl; [left|right]; auto.
Qed.

(** *** No undefined behaviour on the paths of the kernel *)

Lemma run_in_use (s : kstate) (x : Z) :
  kernel_inv s -> runnable s x ->
  run x s = Resumed (set_current (Some x) s)
  \/ run x s = Halted assert_check_pagetable (set_current (Some x) s).
Proof.
  intros Hinv Hx. destruct (runnable_inv s x Hx) as (p & Hp & Hst).
  pose proof Hinv as (_ & _ & Hsl & _ & _ & Hpt & _).
  destruct (Hsl x p Hp) as [[_ Hok] _].
  assert (Hkpt : pagetable p = kernel_pagetable) by (apply Hok; congruence).
  destruct (proj2 (Hpt kernel_pagetable) eq_refl) as [t Ht].
  destruct (check_pagetable t) eqn:Hck.
  - left. eapply run_runnable; [exact Hp|exact Hst|rewrite Hkpt; exact Ht|exact Hck].
  - right. unfold run. erewrite bind_Ret by (apply proc_at_spec, Hp).
    erewrite bind_Ret by (apply assert_true; rewrite Hst; reflexivity).
    erewrite bind_Ret by reflexivity. erewrite bind_Ret by reflexivity.
    erewrite bind_Ret by (simpl; rewrite Hkpt, Ht; reflexivity).
    apply bind_Halted, assert_false, Hck.
Qed.

Lemma schedule_in_use (s : kstate) (c : Z) (p : proc) :
  kernel_inv s -> current s = Some c -> zlookup (ptable s) c = Some p ->
  scheduled s (schedule s).
Proof.
  intros Hinv Hc Hp.
  pose proof Hinv as (Hl & _ & Hsl & _).
  pose proof (zlookup_bounds _ _ _ Hp) as Hb.
  assert (Hpid : pid p = c) by (apply (Hsl c p Hp); reflexivity).
  rewrite (schedule_entry s c p Hc Hp), Hpid.
  destruct (schedule_loop_spec (Z.to_nat NPROC) c s) as [(d & Hd & Hr & _ & Hrun)|(Hnone & Hrun)];
    [lia..|right|left].
  - exists ((c + d) mod NPROC). split; [exact Hr|]. rewrite Hrun.
    apply run_in_use; assumption.
  - split; [exact Hrun|]. intros x Hx.
    destruct (runnable_inv _ _ Hx) as (q & Hq & _).
    apply zlookup_bounds in Hq.
    apply (Hnone (if decide (x <= c) then x - c + NPROC else x - c)).
    + case_decide; lia.
    + case_decide.
      * replace (c + (x - c + NPROC)) with (x + 1 * NPROC) by lia.
        rewrite Z_mod_plus_full, Z.mod_small by lia. exact Hx.
      * replace (c + (x - c)) with x by lia.
        rewrite Z.mod_small by lia. exact Hx.
Qed.

Lemma exception_enter (s : kstate) (c : Z) (pc : proc) (r : regstate) :
  current s = Some c -> zlookup (ptable s) c = Some pc ->
  let saved := with_proc c (set_regs r pc) s in
  exception r s
  = if reg_intno r =? INT_IRQ + IRQ_TIMER
    then schedule (set_ticks (wrap64 (ticks s + 1)) saved)
    else if reg_intno r =? INT_PF
         then if Z.land (reg_errcode r) PTE_U =? 0
              then Halted panic_kernel_page_fault saved
              else schedule (with_proc c (set_state P_FAULTED (set_regs r pc)) s)
         else Halted panic_unexpected_exception saved.
Proof.
  intros Hcur Hpc saved.
  assert (Hsaved : zlookup (ptable saved) c = Some (set_regs r pc))
    by (eapply with_proc_lookup, Hpc).
  unfold exception.
  erewrite bind_Ret by (apply current_proc_spec, Hcur).
  erewrite bind_Ret by (apply update_proc_spec, Hpc). fold saved.
  destruct (reg_intno r =? INT_IRQ + IRQ_TIMER).
  { kunfold. simpl. unfold bind. destruct (schedule _) as [[]| | | | |]; reflexivity. }
  destruct (reg_intno r =? INT_PF); [|reflexivity].
  destruct (Z.land (reg_errcode r) PTE_U =? 0); [reflexivity|].
  erewrite bind_Ret.
  2:{ erewrite bind_Ret by reflexivity. apply update_proc_spec, Hsaved. }
  unfold saved. rewrite with_proc_twice.
  erewrite resume_or_schedule_spec;
    [|exact Hcur|eapply with_proc_lookup, Hpc].
  reflexivity.
Qed.

(** X11.  [exception] has no undefined behaviour in a reachable state:
    whatever the registers, it indexes no array out of bounds and
    follows no null pointer.  It never returns; it ends by resuming a
    RUNNABLE process, which is then the current one, or by spinning in
    [schedule] with no slot RUNNABLE, or by stopping the machine: on a
    kernel page fault, on an unexpected exception, or in
    [check_pagetable]. *)
Theorem exception_defined (s : kstate) (r : regstate) (Hreach : reachable s) :
  match exception r s with
  | Resumed s' => exists x, current s' = Some x /\ runnable s' x
  | Spinning s' => forall x, ~ runnable s' x
  | Halted e _ =>
      e = panic_kernel_page_fault \/ e = panic_unexpected_exception
      \/ e = assert_check_pagetable
  | Ret _ _ | OutOfFuel | Undef => False
  end.
Proof.
  pose proof (reachable_kernel_inv s Hreach) as Hinv.
  destruct (reachable_running s Hreach) as (c & Hc & Hrun).
  destruct (runnable_inv s c Hrun) as (pc & Hpc & Hst).
  assert (Hsched : forall s', kernel_inv s' -> current s' = Some c ->
            is_Some (zlookup (ptable s') c) ->
            match schedule s' with
            | Resumed s' => exists x, current s' = Some x /\ runnable s' x
            | Spinning s' => forall x, ~ runnable s' x
            | Halted e _ =>
                e = panic_kernel_page_fault \/ e = panic_unexpected_exception
                \/ e = assert_check_pagetable
            | Ret _ _ | OutOfFuel | Undef => False
            end).
  { intros s' Hinv' Hc' [p' Hp'].
    destruct (schedule_in_use s' c p' Hinv' Hc' Hp') as [[-> Hnone]|(x & Hx & [->| ->])].
    - exact Hnone.
    - exists x. split; [reflexivity|exact Hx].
    - auto. }
  rewrite (exception_enter s c pc r Hc Hpc).
  assert (Hsaved : kernel_inv (with_proc c (set_regs r pc) s))
    by (eapply kernel_inv_regs; [exact Hinv|exact Hpc|reflexivity..]).
  assert (Hslot : is_Some (zlookup (ptable (with_proc c (set_regs r pc) s)) c))
    by (erewrite with_proc_lookup by exact Hpc; eauto).
  destruct (reg_intno r =? INT_IRQ + IRQ_TIMER).
  { apply Hsched; [|exact Hc|exact Hslot].
    eapply kernel_inv_fields; [exact Hsaved|reflexivity..]. }
  destruct (reg_intno r =? INT_PF); [|auto].
  destruct (Z.land (reg_errcode r) PTE_U =? 0); [auto|].
  apply Hsched; [|exact Hc|].
  - replace (with_proc c (set_state P_FAULTED (set_regs r pc)) s)
      with (with_proc c (set_state P_FAULTED (set_regs r pc))
              (with_proc c (set_regs r pc) s))
      by apply with_proc_twice.
    apply kernel_inv_faulted; [exact Hsaved|exact Hc|eapply with_proc_lookup, Hpc].
  - erewrite with_proc_lookup by exact Hpc. eauto.
Qed.





(** *** What the steps of the machine never undo *)

Lemma later_refl (s : kstate) : later s s.
Proof. split; [auto|]. split; [reflexivity|]. intros i rc Hi. exists rc. split; [exact Hi|lia]. Qed.

Lemma later_trans (s1 s2 s3 : kstate) : later s1 s2 -> later s2 s3 -> later s1 s3.
Proof.
  intros (Ha & Hb & Hc) (Ha' & Hb' & Hc'). split; [|split].
  - intros x. destruct (Ha' x) as [H|H]; [rewrite H; apply Ha|auto].
  - congruence.
  - intros i rc Hi. destruct (Hc i rc Hi) as (rc1 & H1 & Hle1).
    destruct (Hc' i rc1 H1) as (rc2 & H2 & Hle2). exists rc2. split; [exact H2|lia].
Qed.

Lemma later_update_proc (s0 : kstate) (i : Z) (f : proc -> proc) :
  (forall p, state (f p) = state p \/ state (f p) = P_FAULTED) ->
  preserves (later s0) (update_proc i f).
Proof.
  intros Hf s (Ha & Hb & Hc). unfold update_proc, proc_at. kunfold.
  destruct (zlookup (ptable s) i) as [p|] eqn:Hp; simpl; [|exact I].
  pose proof (zlookup_bounds _ _ _ Hp) as Hi.
  split; [|split; assumption].
  intros x. unfold slot_state in *. simpl.
  destruct (decide (x = i)) as [->|Hne].
  - rewrite zlookup_zinsert_eq by exact Hi. simpl.
    destruct (Hf p) as [H|H]; rewrite H; [|auto].
    specialize (Ha i). rewrite Hp in Ha. exact Ha.
  - rewrite zlookup_zinsert_ne by lia. apply Ha.
Qed.

Lemma later_incr_refcount (s0 : kstate) (i : Z) :
  preserves (later s0) (incr_refcount i).
Proof.
  intros s (Ha & Hb & Hc). unfold incr_refcount, refcount. kunfold.
  destruct (zlookup (physpages s) i) as [rc|] eqn:Hrc; simpl; [|exact I].
  pose proof (zlookup_bounds _ _ _ Hrc) as Hi.
  split; [exact Ha|]. split; [exact Hb|]. simpl.
  intros j rc0 Hj. destruct (Hc j rc0 Hj) as (rc1 & H1 & Hle).
  destruct (decide (j = i)) as [->|Hne].
  - rewrite zlookup_zinsert_eq by exact Hi. exists (rc + 1).
    split; [reflexivity|]. rewrite Hrc in H1. injection H1 as ->. lia.
  - rewrite zlookup_zinsert_ne by lia. eauto.
Qed.

(** One step of a proof that a computation undoes nothing. *)
Ltac later_step :=
  first [apply later_incr_refcount
        |apply later_update_proc; intros ?; simpl; auto
        |preserves_step ltac:(assumption)].

Lemma later_run (s0 : kstate) (x : Z) : preserves (later s0) (run x).
Proof. unfold run, proc_at. repeat later_step. Qed.

Lemma later_schedule (s0 : kstate) : preserves (later s0) schedule.
Proof.
  unfold schedule, current_proc, proc_at. repeat later_step.
  apply preserves_schedule_loop, later_run.
Qed.

Lemma later_exception (s0 : kstate) (r : regstate) : preserves (later s0) (exception r).
Proof.
  unfold exception, resume_or_schedule, current_proc, proc_at.
  repeat later_step; first [apply later_schedule|apply later_run].
Qed.

Lemma later_syscall (s0 : kstate) (r : regstate) : preserves (later s0) (syscall r).
Proof.
  unfold syscall, syscall_page_alloc, syscall_spawn, syscall_pipewrite,
    syscall_piperead, current_proc, proc_at, refcount.
  repeat later_step; apply later_schedule.
Qed.

Lemma later_kalloc (s0 : kstate) (sz : Z) : preserves (later s0) (kalloc sz).
Proof.
  assert (Hloop : forall fuel, preserves (later s0) (kalloc_loop fuel)).
  { induction fuel as [|n IH]; simpl; [intros s Hs; exact Logic.I|].
    unfold refcount. repeat first [exact IH|later_step]. }
  unfold kalloc. repeat first [apply Hloop|later_step].
Qed.

Lemma kstep_later (s s' : kstate) : kstep s s' -> later s s'.
Proof.
  intros [s1 r s2 H|s1 r v s2 H|s1 r s2 H|s1 m|s1 sz pa s2 H].
  - pose proof (later_exception s1 r s1 (later_refl s1)) as H'. rewrite H in H'. exact H'.
  - pose proof (later_syscall s1 r s1 (later_refl s1)) as H'. rewrite H in H'. exact H'.
  - pose proof (later_syscall s1 r s1 (later_refl s1)) as H'. rewrite H in H'. exact H'.
  - exact (later_refl s1).
  - pose proof (later_kalloc s1 sz s1 (later_refl s1)) as H'. rewrite H in H'. exact H'.
Qed.

(** X13.  Once processes run, no number of exceptions, system calls,
    writes of processes and calls of [kalloc] undoes the following.  A
    slot that is not RUNNABLE never becomes RUNNABLE: a process that has
    faulted is never run again, and no process is created.  No entry of
    a page table changes: the kernel maps and unmaps nothing after
    [kernel_start], not even in SYSCALL_PAGE_ALLOC.  No reference count
    gets smaller: no page is ever released. *)
Theorem steps_never_undo (s s' : kstate) (Hsteps : rtc kstep s s') :
  (forall x, ~ runnable s x -> ~ runnable s' x)
  /\ (forall x, slot_state s x = Some P_FAULTED -> slot_state s' x = Some P_FAULTED)
  /\ pagetables s' = pagetables s
  /\ (forall pa rc, refcount_of s pa = Some rc ->
        exists rc', refcount_of s' pa = Some rc' /\ rc <= rc').
Proof.
  assert (H : later s s').
  { induction Hsteps as [s|s1 s2 s3 Hstep _ IH]; [apply later_refl|].
    eapply later_trans; [apply kstep_later, Hstep|exact IH]. }
  destruct H as (Ha & Hb & Hc).
  split; [|split; [|split; [exact Hb|]]].
  - intros x Hx Hx'. unfold runnable in *.
    destruct (Ha x) as [H|H]; rewrite H in Hx'; [contradiction|discriminate].
  - intros x Hx. destruct (Ha x) as [H|H]; [congruence|exact H].
  - intros pa rc. apply Hc.
Qed.

(** *** What [process_setup] loads, and what it leaves alone *)

Lemma segment_copied_byte (sg : segment) (m : Z -> Z) (a : Z) :
  seg_touches sg a ->
  memcpy (seg_va sg) (seg_data sg) (seg_data_size sg)
    (memset (seg_va sg) 0 (seg_size sg) m) a
  = seg_byte sg a.
Proof.
  intros Ht. unfold memcpy, memset, seg_byte, seg_touches, seg_data_size in *.
  destruct (Z.ltb_spec a (seg_va sg + Z.of_nat (length (seg_data sg)))) as [Hd|Hd].
  - assert (Hva : seg_va sg <= a) by (destruct Ht; lia).
    replace (seg_va sg <=? a) with true by lia. simpl.
    destruct (lookup_lt_is_Some_2 (seg_data sg) (Z.to_nat (a - seg_va sg))) as [b Hb];
      [lia|].
    rewrite Hb. reflexivity.
  - rewrite andb_false_r.
    replace ((seg_va sg <=? a) && (a <? seg_va sg + seg_size sg)) with true
      by (destruct Ht; lia).
    rewrite (proj2 (lookup_ge_None _ _)); [reflexivity|].
    destruct Ht; lia.
Qed.

Lemma segment_copied_other (sg : segment) (m : Z -> Z) (a : Z) :
  ~ seg_touches sg a ->
  memcpy (seg_va sg) (seg_data sg) (seg_data_size sg)
    (memset (seg_va sg) 0 (seg_size sg) m) a
  = m a.
Proof.
  intros Ht. unfold memcpy, memset, seg_touches in *.
  replace ((seg_va sg <=? a) && (a <? seg_va sg + seg_data_size sg)) with false by lia.
  replace ((seg_va sg <=? a) && (a <? seg_va sg + seg_size sg)) with false by lia.
  reflexivity.
Qed.

Lemma segments_copied_app (l1 l2 : list segment) (s : kstate) :
  segments_copied (l1 ++ l2) s = segments_copied l2 (segments_copied l1 s).
Proof. unfold segments_copied. apply foldl_app. Qed.

Lemma segments_copied_other (segs : list segment) (s : kstate) (a : Z) :
  Forall (fun sg => ~ seg_touches sg a) segs ->
  mem (segments_copied segs s) a = mem s a.
Proof.
  revert s. induction segs as [|sg segs IH]; intros s Hall; [reflexivity|].
  apply Forall_cons in Hall as [Hsg Hall].
  change (segments_copied (sg :: segs) s)
    with (segments_copied segs
            (set_mem (memcpy (seg_va sg) (seg_data sg) (seg_data_size sg)
                        (memset (seg_va sg) 0 (seg_size sg) (mem s))) s)).
  rewrite IH by exact Hall. simpl. apply segment_copied_other, Hsg.
Qed.

Lemma segments_copied_byte (l1 : list segment) (sg : segment) (l2 : list segment)
    (s : kstate) (a : Z) :
  seg_touches sg a -> Forall (fun sg' => ~ seg_touches sg' a) l2 ->
  mem (segments_copied (l1 ++ sg :: l2) s) a = seg_byte sg a.
Proof.
  intros Ht Hall. rewrite segments_copied_app.
  change (segments_copied (sg :: l2) (segments_copied l1 s))
    with (segments_copied l2
            (set_mem (memcpy (seg_va sg) (seg_data sg) (seg_data_size sg)
                        (memset (seg_va sg) 0 (seg_size sg)
                           (mem (segments_copied l1 s))))
               (segments_copied l1 s))).
  rewrite segments_copied_other by exact Hall. simpl.
  apply segment_copied_byte, Ht.
Qed.

Lemma pages_loaded_mem (pt : Z) (l : list Z) (s : kstate) :
  mem (pages_loaded pt l s) = mem s
  /\ pipebuf_len (pages_loaded pt l s) = pipebuf_len s
  /\ ticks (pages_loaded pt l s) = ticks s.
Proof.
  revert s. induction l as [|a l IH]; intros s; [auto|].
  change (pages_loaded pt (a :: l) s) with (pages_loaded pt l (page_loaded pt a s)).
  destruct (IH (page_loaded pt a s)) as (-> & -> & ->). auto.
Qed.

Lemma segments_copied_pipe (segs : list segment) (s : kstate) :
  pipebuf_len (segments_copied segs s) = pipebuf_len s
  /\ ticks (segments_copied segs s) = ticks s.
Proof.
  revert s. induction segs as [|sg segs IH]; intros s; [auto|].
  change (segments_copied (sg :: segs) s)
    with (segments_copied segs
            (set_mem (memcpy (seg_va sg) (seg_data sg) (seg_data_size sg)
                        (memset (seg_va sg) 0 (seg_size sg) (mem s))) s)).
  destruct (IH (set_mem (memcpy (seg_va sg) (seg_data sg) (seg_data_size sg)
                           (memset (seg_va sg) 0 (seg_size sg) (mem s))) s))
    as (-> & ->).
  auto.
Qed.

Lemma segments_copied_mem (segs : list segment) (s1 s2 : kstate) :
  mem s1 = mem s2 ->
  mem (segments_copied segs s1) = mem (segments_copied segs s2).
Proof.
  revert s1 s2. induction segs as [|sg segs IH]; intros s1 s2 Hm; [exact Hm|].
  unfold segments_copied. simpl. apply IH. simpl. rewrite Hm. reflexivity.
Qed.

(** A call of [process_setup] that returns has returned [setup_done]. *)
Lemma process_setup_returns (i : Z) (name : string) (pgm : image) (p : proc)
    (s s' : kstate) :
  PAGESIZE <= PROC_SIZE ->
  0 <= first_addr i -> last_addr i <= MEMSIZE_PHYSICAL ->
  wf_tables s ->
  zlookup (ptable s) i = Some p ->
  program_image name = Some pgm ->
  process_setup i name s = Ret tt s' ->
  setup_ok i pgm s /\ s' = setup_done i pgm p s.
Proof.
  intros Hps Hf Hl Hwf Hp Himg Hrun.
  destruct (process_setup_cases i name pgm p s Hps Hf Hl Hwf Hp Himg)
    as [[Hok Hr]|(_ & e & s0 & Hr & _)]; rewrite Hrun in Hr; [|discriminate].
  injection Hr as ->. auto.
Qed.

(** X14.  "This loads the application's code and data into memory":
    when [process_setup] returns, each segment of the image lies at its
    address, its data followed by zeroes up to its size.  A byte that
    several segments cover has the value the last of them gives it; a
    byte that no segment covers is as it was. *)
Theorem process_setup_loads (i : Z) (name : string) (pgm : image) (p : proc)
    (s s' : kstate)
    (Hps : PAGESIZE <= PROC_SIZE)
    (Hf : 0 <= first_addr i) (Hl : last_addr i <= MEMSIZE_PHYSICAL)
    (Hwf : wf_tables s)
    (Hp : zlookup (ptable s) i = Some p)
    (Himg : program_image name = Some pgm)
    (Hrun : process_setup i name s = Ret tt s') :
  (forall l1 sg l2 a,
     img_segs pgm = l1 ++ sg :: l2 -> seg_touches sg a ->
     Forall (fun sg' => ~ seg_touches sg' a) l2 ->
     mem s' a = seg_byte sg a)
  /\ (forall sg k b, seg_data sg !! k = Some b ->
        seg_byte sg (seg_va sg + Z.of_nat k) = b)
  /\ (forall sg a, seg_va sg + seg_data_size sg <= a -> seg_byte sg a = 0)
  /\ (forall a, Forall (fun sg => ~ seg_touches sg a) (img_segs pgm) ->
        mem s' a = mem s a).
Proof.
  destruct (process_setup_returns i name pgm p s s' Hps Hf Hl Hwf Hp Himg Hrun)
    as [_ ->].
  assert (Hmem : forall a, mem (setup_done i pgm p s) a
                           = mem (segments_copied (img_segs pgm) s) a).
  { intros a. unfold setup_done. simpl.
    rewrite (segments_copied_mem (img_segs pgm) _ s
               (proj1 (pages_loaded_mem kernel_pagetable (image_pages pgm) s))).
    reflexivity. }
  split; [|split; [|split]].
  - intros l1 sg l2 a Hsegs Ht Hall. rewrite Hmem, Hsegs.
    apply segments_copied_byte; assumption.
  - intros sg k b Hk. unfold seg_byte.
    replace (Z.to_nat (seg_va sg + Z.of_nat k - seg_va sg)) with k by lia.
    rewrite Hk. reflexivity.
  - intros sg a Ha. unfold seg_byte, seg_data_size in *.
    rewrite (proj2 (lookup_ge_None _ _)); [reflexivity|lia].
  - intros a Hall. rewrite Hmem. apply segments_copied_other, Hall.
Qed.

(** X15.  What a call of [process_setup] that returns has changed, and
    what it has left alone.  The pages it has taken are the pages of the
    segments and the stack page: each of them has reference count 1 and
    is mapped to itself for user access in the kernel page table; no
    other reference count and no other mapping has changed.  The
    descriptor of the process has the registers of [init_process] with
    [%rip] and [%rsp] set; no other descriptor has changed.  [current],
    the cursor of the allocator (the loader does not call [kalloc]), the
    pipe and the tick counter are as they were. *)
Theorem process_setup_frame (i : Z) (name : string) (pgm : image) (p : proc)
    (s s' : kstate)
    (Hps : PAGESIZE <= PROC_SIZE)
    (Hf : 0 <= first_addr i) (Hl : last_addr i <= MEMSIZE_PHYSICAL)
    (Hwf : wf_tables s)
    (Hp : zlookup (ptable s) i = Some p)
    (Himg : program_image name = Some pgm)
    (Hrun : process_setup i name s = Ret tt s') :
  let taken := (fun a => a / PAGESIZE) <$> (image_pages pgm ++ [stack_addr i]) in
  (forall b, refcount_of s' b
             = if decide (b / PAGESIZE ∈ taken) then Some 1 else refcount_of s b)
  /\ (forall a, a ∈ image_pages pgm ++ [stack_addr i] ->
        vmiter_lookup s' kernel_pagetable a = Some (a, PTE_PWU))
  /\ (forall a, a / PAGESIZE ∉ taken ->
        vmiter_lookup s' kernel_pagetable a = vmiter_lookup s kernel_pagetable a)
  /\ zlookup (ptable s') i
     = Some (mkproc (pid p) P_RUNNABLE
               (set_reg_rsp (last_addr i) (set_reg_rip (img_entry pgm) (init_regs 0)))
               kernel_pagetable)
  /\ (forall x, x <> i -> zlookup (ptable s') x = zlookup (ptable s) x)
  /\ current s' = current s /\ next_alloc_pa s' = next_alloc_pa s
  /\ pipebuf_len s' = pipebuf_len s /\ ticks s' = ticks s.
Proof.
  intros taken.
  destruct (process_setup_returns i name pgm p s s' Hps Hf Hl Hwf Hp Himg Hrun)
    as [Hok ->].
  destruct Hwf as (Hnproc & Hnpages & Hkpt).
  destruct (setup_done_fields i pgm p s) as (Hpt & _ & Hcursor & Hcur).
  pose proof (zlookup_bounds _ _ _ Hp) as Hi.
  split; [|split; [|split; [|split; [|split; [|split; [|split; [|split]]]]]]].
  - intros b. apply setup_done_refcount.
    apply setup_ok_pages; assumption.
  - intros a Ha. apply setup_done_lookup; assumption.
  - intros a Ha. apply setup_done_lookup_other; assumption.
  - rewrite Hpt. apply zlookup_zinsert_eq, Hi.
  - intros x Hx. rewrite Hpt. apply zlookup_zinsert_ne; lia.
  - exact Hcur.
  - exact Hcursor.
  - unfold setup_done. simpl.
    rewrite (proj1 (segments_copied_pipe _ _)).
    apply (pages_loaded_mem kernel_pagetable (image_pages pgm) s).
  - unfold setup_done. simpl.
    rewrite (proj2 (segments_copied_pipe _ _)).
    apply (pages_loaded_mem kernel_pagetable (image_pages pgm) s).
Qed.

(** *** What [kernel_start] starts *)

Lemma wp_True {A : Type} (m : K A) (s : kstate) :
  wp m (fun _ _ => True) (fun _ => True) s.
Proof. unfold wp. destruct (m s); exact I. Qed.

Lemma wp_conj {A : Type} (m : K A) (Q1 Q2 : A -> kstate -> Prop)
    (E1 E2 : outcome Empty_set -> Prop) (s : kstate) :
  wp m Q1 E1 s -> wp m Q2 E2 s ->
  wp m (fun a s' => Q1 a s' /\ Q2 a s') (fun o => E1 o /\ E2 o) s.
Proof. unfold wp. destruct (m s); auto. Qed.

Lemma wp_plain {A : Type} (m : K A) (s : kstate) :
  plain m -> wp m (fun _ _ => True) (resumes (fun _ => False)) s.
Proof. intros H. specialize (H s). unfold wp. destruct (m s); simpl; auto. Qed.

(** When [process_setup] returns, the slot holds the process of the
    image. *)
Lemma process_setup_entry (i : Z) (name : string) (s : kstate) :
  wp (process_setup i name) (fun _ => loaded_from i name) (fun _ => True) s.
Proof.
  unfold process_setup.
  apply (wp_cut (fun _ _ => True)); [apply wp_True|]. intros _ s1 _. cbv zeta.
  apply (wp_cut (fun _ _ => True)); [apply wp_True|]. intros _ s2 _.
  apply wp_bind, wp_must. destruct (program_image name) as [pgm|] eqn:Himg; [|exact I].
  apply (wp_cut (fun _ _ => True)); [apply wp_True|]. intros _ s3 _.
  apply (wp_cut (fun _ _ => True)); [apply wp_True|]. intros _ s4 _.
  apply wp_bind, wp_update_proc.
  destruct (zlookup (ptable s4) i) as [p4|] eqn:Hp4; [|exact I].
  apply wp_bind, wp_refcount. simpl physpages.
  destruct (zlookup (physpages s4) _) as [rc|] eqn:Hrc; [|exact I].
  apply wp_bind, wp_assert. destruct (rc =? 0); [|exact I].
  apply wp_bind, wp_incr_refcount. simpl physpages. rewrite Hrc.
  apply wp_bind, wp_proc_at. simpl ptable.
  rewrite zlookup_zinsert_eq by (eapply zlookup_bounds, Hp4).
  apply wp_bind, wp_vmiter_map. simpl pagetables.
  destruct (pagetables s4 !! _) as [t|]; [|exact I].
  apply wp_bind, wp_update_proc. simpl ptable.
  rewrite zlookup_zinsert_eq by (eapply zlookup_bounds, Hp4).
  apply wp_update_proc. simpl ptable.
  rewrite zlookup_zinsert_eq by (rewrite length_zinsert; eapply zlookup_bounds, Hp4).
  exists pgm. split; [exact Himg|]. intros p Hp. simpl in Hp.
  rewrite zlookup_zinsert_eq in Hp
    by (rewrite !length_zinsert; eapply zlookup_bounds, Hp4).
  injection Hp as <-. split; reflexivity.
Qed.

Lemma untouched_process_setup (cur : option Z) (i : Z) (name : string) :
  preserves (untouched cur) (process_setup i name).
Proof.
  unfold process_setup, init_process, load_page, update_proc, proc_at,
    incr_refcount, refcount, vmiter_map.
  repeat preserves_step ltac:(assumption).
Qed.

Lemma untouched_init (cur : option Z) :
  preserves (untouched cur) init_kernel_pagetable
  /\ preserves (untouched cur) init_ptable.
Proof.
  split.
  - unfold init_kernel_pagetable, vmiter_map. repeat preserves_step ltac:(assumption).
  - unfold init_ptable, update_proc, proc_at. repeat preserves_step ltac:(assumption).
Qed.

Lemma plain_init : plain init_kernel_pagetable /\ plain init_ptable.
Proof.
  split.
  - unfold init_kernel_pagetable, vmiter_map. repeat plain_step.
  - unfold init_ptable, update_proc, proc_at. repeat plain_step.
Qed.

(** The second loop of [kernel_start] leaves every slot FREE. *)
Lemma init_ptable_free (s : kstate) :
  length (ptable s) = Z.to_nat NPROC ->
  wp init_ptable
     (fun _ s' => forall x p, zlookup (ptable s') x = Some p -> state p = P_FREE)
     (fun _ => True) s.
Proof.
  intros Hlen. eapply wp_ext; [apply init_ptable_foreach|].
  eapply wp_mono with (E := fun _ => True);
    [apply (wp_foreach_done
              (fun done s' =>
                 length (ptable s') = Z.to_nat NPROC
                 /\ forall x p, x ∈ done -> zlookup (ptable s') x = Some p ->
                      state p = P_FREE))
    | |auto].
  - split; [exact Hlen|]. intros x p Hx. apply elem_of_nil in Hx. contradiction.
  - intros done i s1 [Hl1 Hdone].
    apply wp_bind, wp_update_proc.
    destruct (zlookup (ptable s1) i) as [p|] eqn:Hp; [|exact I].
    pose proof (zlookup_bounds _ _ _ Hp) as Hb.
    apply wp_update_proc. erewrite with_proc_lookup by exact Hp.
    rewrite with_proc_twice. split.
    + simpl. rewrite length_zinsert. exact Hl1.
    + intros x q Hx Hq. destruct (decide (x = i)) as [->|Hne].
      * erewrite with_proc_lookup in Hq by exact Hp. injection Hq as <-. reflexivity.
      * rewrite with_proc_lookup_ne in Hq by lia.
        apply elem_of_app in Hx as [Hx|Hx]; [apply (Hdone x q Hx Hq)|].
        apply list_elem_of_singleton in Hx. contradiction.
  - intros _ s' [Hl' Hdone] x p Hp. apply (Hdone x p); [|exact Hp].
    pose proof (zlookup_bounds _ _ _ Hp) as Hb. rewrite Hl' in Hb.
    apply elem_of_range; [lia|]. exists x. lia.
Qed.

(** [run] resumes in the state it was called in, but for [current]. *)
Lemma wp_run_resumes (P : kstate -> Prop) (x : Z) (s : kstate) :
  P (set_current (Some x) s) ->
  wp (run x) (fun _ _ => True) (resumes P) s.
Proof.
  intros HP. unfold wp. destruct (run x s) eqn:H; try exact I.
  simpl. apply run_resumed_inv in H as [_ ->]. exact HP.
Qed.

(** X16.  What [kernel_start] starts.  When the command (or, without a
    command, WEENSYOS_FIRST_PROCESS) names a program image, that
    program is loaded as process 1 and slot 2 stays FREE; when it is
    "pipe", the programs "pipewriter" and "pipereader" are loaded as
    processes 1 and 2; for any other command, "alice" and "eve".  A
    loaded process is RUNNABLE, with the entry point of its image as
    [%rip].  Process 1 is the first to run.  The tick counter is 1; the
    cursor of the allocator is still 0 and the pipe still empty. *)
Theorem kernel_start_boots (cmd : option string) (pt : gmap Z pte) (m : Z -> Z)
    (s : kstate)
    (Hrun : kernel_start cmd (boot_state pt m) = Resumed s) :
  let programs := first_programs (default WEENSYOS_FIRST_PROCESS cmd) in
  untouched (Some 1) s
  /\ runnable s 1
  /\ loaded_from 1 programs.1 s
  /\ match programs.2 with
     | Some name2 => loaded_from 2 name2 s
     | None => forall p, zlookup (ptable s) 2 = Some p -> state p = P_FREE
     end.
Proof.
  intros programs.
  set (Post := fun s : kstate =>
         untouched (Some 1) s
         /\ loaded_from 1 programs.1 s
         /\ match programs.2 with
            | Some name2 => loaded_from 2 name2 s
            | None => forall p, zlookup (ptable s) 2 = Some p -> state p = P_FREE
            end).
  assert (Hwp : wp (kernel_start cmd) (fun _ _ => True) (resumes Post) (boot_state pt m)).
  { unfold kernel_start. apply wp_bind, wp_modify.
    assert (U1 : untouched None (set_ticks 1 (boot_state pt m))) by (repeat split).
    assert (I1 : kernel_inv_at false (set_ticks 1 (boot_state pt m)))
      by (eapply kernel_inv_fields; [apply (kernel_inv_boot_state pt m)|reflexivity..]).
    apply (wp_cut (fun _ s' => untouched None s' /\ kernel_inv_at false s')).
    { eapply wp_mono;
        [apply wp_conj;
           [apply wp_conj;
              [apply wp_preserves; [apply untouched_init|exact U1]
              |apply kernel_inv_init_kernel_pagetable, I1]
           |apply wp_plain, plain_init]
        |cbv beta; tauto
        |intros o Ho; destruct o; simpl in *; tauto]. }
    intros _ s1 [U2 I2].
    apply (wp_cut (fun _ s' =>
             untouched None s'
             /\ forall x p, zlookup (ptable s') x = Some p -> state p = P_FREE)).
    { eapply wp_mono;
        [apply wp_conj;
           [apply wp_conj;
              [apply wp_preserves; [apply untouched_init|exact U2]
              |apply init_ptable_free, I2]
           |apply wp_plain, plain_init]
        |cbv beta; tauto
        |intros o Ho; destruct o; simpl in *; tauto]. }
    intros _ s2 [U3 Hfree]. cbv zeta.
    assert (Hsetup : forall i name s0 (P : proc -> Prop) x,
              x <> i -> untouched None s0 ->
              (forall p, zlookup (ptable s0) x = Some p -> P p) ->
              wp (process_setup i name)
                 (fun _ s' => untouched None s' /\ loaded_from i name s'
                              /\ forall p, zlookup (ptable s') x = Some p -> P p)
                 (resumes Post) s0).
    { intros i name s0 P x Hx HU HP. eapply wp_mono;
        [apply wp_conj;
           [apply wp_conj;
              [apply wp_conj;
                 [apply wp_preserves; [apply untouched_process_setup|exact HU]
                 |apply process_setup_entry]
              |apply wp_preserves;
                 [apply (process_setup_other_slot x i name P Hx)|exact HP]]
           |apply wp_plain, plain_process_setup]
        |cbv beta; tauto
        |intros o Ho; destruct o; simpl in *; tauto]. }
    assert (Hstart : forall s0, untouched None s0 -> 
              loaded_from 1 programs.1 s0 ->
              match programs.2 with
              | Some name2 => loaded_from 2 name2 s0
              | None => forall p, zlookup (ptable s0) 2 = Some p -> state p = P_FREE
              end ->
              wp (run 1) (fun _ _ => True) (resumes Post) s0).
    { intros s0 (Ht & Hc & Hp & _) H1 H2. apply wp_run_resumes.
      split; [repeat split; assumption|]. split; [exact H1|exact H2]. }
    unfold programs, first_programs in *.
    destruct (program_image (default WEENSYOS_FIRST_PROCESS cmd)) as [pgm|] eqn:Himg.
    - eapply wp_cut; [apply (Hsetup 1 _ s2 (fun p => state p = P_FREE) 2);
                      [lia|exact U3|apply Hfree]|].
      intros _ s3 (U4 & H1 & H2). apply Hstart; assumption.
    - assert (Htwo : forall name1 name2,
                wp (process_setup 1 name1;; process_setup 2 name2)
                   (fun _ s' => untouched None s' /\ loaded_from 1 name1 s'
                                /\ loaded_from 2 name2 s')
                   (resumes Post) s2).
      { intros name1 name2.
        eapply wp_cut; [apply (Hsetup 1 _ s2 (fun p => state p = P_FREE) 2);
                        [lia|exact U3|apply Hfree]|].
        intros _ s3 (U4 & (pgm1 & Hi1 & H1) & _).
        eapply wp_mono;
          [apply (Hsetup 2 _ s3
                    (fun p => state p = P_RUNNABLE /\ reg_rip (regs p) = img_entry pgm1) 1);
           [lia|exact U4|exact H1]| |auto].
        intros _ s4 (U5 & H2 & H1'). split; [exact U5|]. split; [|exact H2].
        exists pgm1. split; [exact Hi1|exact H1']. }
      destruct (bool_decide (default WEENSYOS_FIRST_PROCESS cmd = "pipe"));
        (eapply wp_cut; [apply Htwo|]);
        intros _ s4 (U5 & H1 & H2); apply Hstart; assumption. }
  unfold wp in Hwp. rewrite Hrun in Hwp. destruct Hwp as (HU & H1 & H2).
  split; [exact HU|]. split; [|split; [exact H1|exact H2]].
  destruct (reachable_running s (reach_start cmd pt m s Hrun)) as (c & Hc & Hr).
  destruct HU as (_ & _ & _ & Hcur). rewrite Hcur in Hc. injection Hc as <-. exact Hr.
Qed.

(** *** The allocator and SYSCALL_PAGE_ALLOC *)

(** X17.  [kalloc] and [syscall_page_alloc] keep off each other's pages
    by way of the reference counts.  For a page that [kalloc] has handed
    out, SYSCALL_PAGE_ALLOC stops the machine on its assertion, whatever
    the address within the page.  A page taken by SYSCALL_PAGE_ALLOC is
    never handed out by [kalloc] afterwards. *)
Theorem page_alloc_and_kalloc (s : kstate) (Hwf : wf_alloc s) :
  (forall sz pa s' addr,
     kalloc sz s = Ret pa s' -> pa <> 0 -> addr / PAGESIZE = pa / PAGESIZE ->
     syscall_page_alloc addr s' = Halted assert_page_alloc_refcount s')
  /\ (forall addr v s' pa,
        syscall_page_alloc addr s = Ret v s' -> pa / PAGESIZE = addr / PAGESIZE ->
        ~ eligible s' pa).
Proof.
  split.
  - intros sz pa s' addr Hk Hpa Haddr.
    destruct (kalloc_success s sz pa s' Hwf Hk Hpa) as (_ & Hr & _ & _ & ->).
    pose proof (proj1 Hwf) as Hc.
    pose proof (refcount_of_allocated s pa Hwf ltac:(lia)) as Hrc.
    unfold refcount_of in Hrc. rewrite <- Haddr in Hrc.
    unfold syscall_page_alloc.
    erewrite bind_Ret by (apply refcount_spec, Hrc).
    apply bind_Halted, assert_false. reflexivity.
  - intros addr v s' pa Hsys Hpa Hel.
    unfold syscall_page_alloc, incr_refcount, refcount in Hsys. kunfold.
    destruct (zlookup (physpages s) (addr / PAGESIZE)) as [rc|] eqn:Hrc;
      simpl in Hsys; [|discriminate].
    destruct (rc =? 0) eqn:E; simpl in Hsys; [|discriminate].
    rewrite Hrc in Hsys. simpl in Hsys. injection Hsys as _ <-.
    pose proof (zlookup_bounds _ _ _ Hrc) as Hb.
    apply eligible_sound in Hel as (Hrc' & _).
    + unfold refcount_of in Hrc'. simpl in Hrc'. rewrite Hpa in Hrc'.
      rewrite zlookup_zinsert_eq in Hrc' by exact Hb.
      apply Z.eqb_eq in E. subst rc. discriminate.
    + destruct Hwf as (H1 & H2 & H3). split; [exact H1|]. split; [exact H2|].
      simpl. rewrite length_zinsert. exact H3.
Qed.

(** *** What [exception] leaves alone *)

(** X18.  [exception] changes nothing but the descriptor of the current
    process, [current] and the tick counter: in the state in which it
    resumes a process, spins or stops the machine, memory, the reference
    counts, the page tables, the cursor of the allocator and the pipe
    are as they were, every other descriptor is as it was, and the tick
    counter has moved, by one, exactly when the interrupt was the
    timer's. *)
Theorem exception_frame (s : kstate) (r : regstate) :
  match exception r s with
  | Resumed s' | Halted _ s' | Spinning s' =>
      mem s' = mem s /\ physpages s' = physpages s
      /\ pagetables s' = pagetables s /\ next_alloc_pa s' = next_alloc_pa s
      /\ pipebuf s' = pipebuf s /\ pipebuf_len s' = pipebuf_len s
      /\ ticks s' = (if reg_intno r =? INT_IRQ + IRQ_TIMER
                     then wrap64 (ticks s + 1) else ticks s)
      /\ (forall c x, current s = Some c -> x <> c ->
            zlookup (ptable s') x = zlookup (ptable s) x)
  | _ => True
  end.
Proof.
  set (G := fun (tk : Z) (s' : kstate) =>
         mem s' = mem s /\ physpages s' = physpages s
         /\ pagetables s' = pagetables s /\ next_alloc_pa s' = next_alloc_pa s
         /\ pipebuf s' = pipebuf s /\ pipebuf_len s' = pipebuf_len s
         /\ ticks s' = tk
         /\ (forall c x, current s = Some c -> x <> c ->
               zlookup (ptable s') x = zlookup (ptable s) x)).
  set (tk := if reg_intno r =? INT_IRQ + IRQ_TIMER
             then wrap64 (ticks s + 1) else ticks s).
  assert (Hrun : forall t x, preserves (G t) (run x)).
  { intros t x. unfold run, proc_at. repeat preserves_step ltac:(assumption). }
  assert (Hsched : forall t, preserves (G t) schedule).
  { intros t. unfold schedule, current_proc, proc_at.
    repeat preserves_step ltac:(assumption). apply preserves_schedule_loop, Hrun. }
  assert (Hres : forall t, preserves (G t) resume_or_schedule).
  { intros t. unfold resume_or_schedule, current_proc, proc_at.
    repeat preserves_step ltac:(assumption); [apply Hrun|apply Hsched]. }
  assert (Hupd : forall t c q s1 p, current s = Some c ->
            G t s1 -> zlookup (ptable s1) c = Some p -> G t (with_proc c q s1)).
  { intros t c q s1 p Hc (H1 & H2 & H3 & H4 & H5 & H6 & H7 & H8) Hp.
    pose proof (zlookup_bounds _ _ _ Hp) as Hb.
    repeat (split; [assumption|]).
    intros c' x Hc' Hx. rewrite Hc in Hc'. injection Hc' as <-.
    rewrite with_proc_lookup_ne by lia. apply (H8 c x Hc Hx). }
  assert (Hwp : wp (exception r) (fun _ _ => True) (stops (G tk)) s).
  { unfold exception. apply wp_bind, wp_current_proc.
    destruct (current s) as [c|] eqn:Hc; [|exact I].
    assert (H0 : G (ticks s) s) by (repeat split; auto).
    apply (wp_cut (fun _ => G (ticks s))).
    { apply wp_update_proc. destruct (zlookup (ptable s) c) as [p|] eqn:Hp; [|exact I].
      apply (Hupd _ c _ s p eq_refl H0 Hp). }
    intros _ s1 H1. unfold tk.
    destruct (reg_intno r =? INT_IRQ + IRQ_TIMER).
    { apply wp_bind, wp_bind, wp_modify.
      apply (wp_noreturn _ _ (fun _ _ => True)).
      eapply wp_mono;
        [apply wp_preserves; [apply (Hsched (wrap64 (ticks s + 1)))|]|auto|auto].
      destruct H1 as (H1 & H2 & H3 & H4 & H5 & H6 & H7 & H8).
      repeat (split; [assumption|]). split; [simpl; rewrite H7; reflexivity|exact H8]. }
    apply (wp_cut (fun _ => G (ticks s))).
    - destruct (reg_intno r =? INT_PF); [|exact H1].
      apply wp_bind. destruct (Z.land (reg_errcode r) PTE_U =? 0); [exact H1|].
      apply wp_ret, wp_update_proc.
      destruct (zlookup (ptable s1) c) as [p|] eqn:Hp; [|exact I].
      apply (Hupd _ c _ s1 p eq_refl H1 Hp).
    - intros _ s2 H2.
      eapply wp_mono; [apply wp_preserves; [apply Hres|exact H2]|auto|auto]. }
  unfold wp, stops in Hwp. destruct (exception r s); exact Hwp || exact I.
Qed.

(** *** memshow *)

(** [n] iterations of the search of [memshow] from slot [k]: the first
    slot among [k], [k+1], ... (modulo [NPROC]) that can be shown, or
    none of [n] slots, [showing] having moved on by [n]. *)
Lemma memshow_search_spec (n : nat) (s : kstate) (k : Z) :
  0 < NPROC -> Z.of_nat (length (ptable s)) = NPROC -> 0 <= k < NPROC ->
  (exists d, 0 <= d < Z.of_nat n
     /\ showable s ((k + d) mod NPROC)
     /\ (forall d', 0 <= d' < d -> ~ showable s ((k + d') mod NPROC))
     /\ memshow_search n s k = Some ((k + d) mod NPROC, Some ((k + d) mod NPROC)))
  \/ ((forall d', 0 <= d' < Z.of_nat n -> ~ showable s ((k + d') mod NPROC))
      /\ memshow_search n s k = Some ((k + Z.of_nat n) mod NPROC, None)).
Proof.
  intros HN Hlen. revert k. induction n as [|n IH]; intros k Hk.
  { right. split; [intros; lia|]. simpl. rewrite Z.add_0_r, Z.mod_small by lia.
    reflexivity. }
  simpl memshow_search.
  destruct (zlookup_Some (ptable s) k) as [p Hp]; [lia|].
  rewrite Hp. simpl.
  assert (Hk0 : (k + 0) mod NPROC = k) by (rewrite Z.add_0_r; apply Z.mod_small; lia).
  destruct (negb (procstate_eqb (state p) P_FREE) && negb (pagetable p =? 0)) eqn:E.
  - left. exists 0. rewrite Hk0.
    split; [lia|]. split; [|split; [intros; lia|reflexivity]].
    apply andb_true_iff in E as [E1 E2]. exists p. split; [exact Hp|].
    split.
    + intros Hst. rewrite Hst in E1. discriminate.
    + intros Hpt. rewrite Hpt in E2. discriminate.
  - assert (Hnot : ~ showable s k).
    { intros (q & Hq & Hst & Hpt). rewrite Hp in Hq. injection Hq as <-.
      apply andb_false_iff in E as [E|E]; apply negb_false_iff in E.
      - apply procstate_eqb_eq in E. contradiction.
      - apply Z.eqb_eq in E. contradiction. }
    rewrite Z.rem_mod_nonneg by lia.
    pose proof (Z.mod_pos_bound (k + 1) NPROC HN) as Hk1.
    assert (Hshift : forall d, ((k + 1) mod NPROC + d) mod NPROC = (k + (d + 1)) mod NPROC).
    { intros d. rewrite Zplus_mod_idemp_l. f_equal. lia. }
    destruct (IH ((k + 1) mod NPROC) Hk1) as [(d & Hd & Hs & Hmin & Hrun)|(Hnone & Hrun)].
    + left. exists (d + 1). rewrite <- Hshift.
      split; [lia|]. split; [exact Hs|]. split; [|exact Hrun].
      intros d' Hd'. destruct (decide (d' = 0)) as [->|Hne]; [rewrite Hk0; exact Hnot|].
      replace d' with ((d' - 1) + 1) by lia. rewrite <- Hshift. apply Hmin. lia.
    + right. split.
      * intros d' Hd'. destruct (decide (d' = 0)) as [->|Hne]; [rewrite Hk0; exact Hnot|].
        replace d' with ((d' - 1) + 1) by lia. rewrite <- Hshift. apply Hnone. lia.
      * rewrite Hrun, Hshift. do 3 f_equal. lia.
Qed.

(** X19.  [memshow] with [showing] a slot of the process table.  With
    [show_memory] off it does nothing.  With [show_memory] on it calls
    [console_memviewer] once.  The search for the process to show starts
    at the slot shown last, or at the slot after it when [last_ticks] is
    0 or [HZ / 2] ticks have passed since [last_ticks] (which is then set
    to [ticks]).  The process shown is the first slot from there on,
    around the table, that is not FREE and has a page table; [showing]
    is left at that slot.  When no slot can be shown, the viewer is
    called with the null pointer, after [NPROC] iterations that leave
    [showing] where the search started. *)
Theorem memshow_spec (HZ : Z) (v : memviewer) (s : kstate)
    (HN : 0 < NPROC)
    (Hlen : Z.of_nat (length (ptable s)) = NPROC)
    (Hsh : 0 <= showing v < NPROC) :
  (show_memory v = false -> memshow HZ v s = Some (v, None))
  /\ (show_memory v = true ->
      let switch := (last_ticks v =? 0)
                    || (wrap64 (Z.quot HZ 2) <=? wrap64 (ticks s - last_ticks v)) in
      let start := if switch then (showing v + 1) mod NPROC else showing v in
      exists v' p,
        memshow HZ v s = Some (v', Some p)
        /\ show_memory v' = true
        /\ last_ticks v' = (if switch then ticks s else last_ticks v)
        /\ 0 <= showing v' < NPROC
        /\ match p with
           | Some x =>
               x = showing v' /\ showable s x
               /\ exists d, 0 <= d < NPROC /\ x = (start + d) mod NPROC
                    /\ forall d', 0 <= d' < d -> ~ showable s ((start + d') mod NPROC)
           | None =>
               showing v' = start /\ forall x, 0 <= x < NPROC -> ~ showable s x
           end).
Proof.
  split; [intros Hoff; unfold memshow; rewrite Hoff; reflexivity|].
  intros Hon switch start. unfold memshow. rewrite Hon. fold switch.
  replace (if switch then Z.rem (showing v + 1) NPROC else showing v) with start
    by (unfold start; destruct switch; [rewrite Z.rem_mod_nonneg by lia|]; reflexivity).
  assert (Hstart : 0 <= start < NPROC)
    by (unfold start; destruct switch; [apply Z.mod_pos_bound; lia|exact Hsh]).
  destruct (memshow_search_spec (Z.to_nat NPROC) s start HN Hlen Hstart)
    as [(d & Hd & Hs & Hmin & Hrun)|(Hnone & Hrun)]; rewrite Hrun; simpl.
  - eexists _, _. split; [reflexivity|]. simpl.
    split; [reflexivity|]. split; [reflexivity|].
    split; [apply Z.mod_pos_bound; lia|].
    split; [reflexivity|]. split; [exact Hs|].
    exists d. split; [lia|]. split; [reflexivity|exact Hmin].
  - rewrite Z2Nat.id by lia.
    replace ((start + NPROC) mod NPROC) with start
      by (replace (start + NPROC) with (start + 1 * NPROC) by lia;
          rewrite Z_mod_plus_full, Z.mod_small by lia; reflexivity).
    eexists _, _. split; [reflexivity|]. simpl.
    split; [reflexivity|]. split; [reflexivity|]. split; [exact Hstart|].
    split; [reflexivity|].
    intros x Hx.
    replace x with ((start + (if decide (start <= x) then x - start else x - start + NPROC))
                    mod NPROC).
    + apply Hnone. case_decide; lia.
    + case_decide.
      * replace (start + (x - start)) with x by lia. apply Z.mod_small. lia.
      * replace (start + (x - start + NPROC)) with (x + 1 * NPROC) by lia.
        rewrite Z_mod_plus_full. apply Z.mod_small. lia.
Qed.

(** *** The two processes take turns *)

(** With the invariant, the scheduler gives the CPU of process [c] to
    the other of the two processes when that one is RUNNABLE, and back
    to [c] when it is not. *)
Lemma schedule_other (s : kstate) (c : Z) :
  kernel_inv s -> pagetables_checked s -> current s = Some c -> runnable s c ->
  (runnable s (3 - c) -> schedule s = Resumed (set_current (Some (3 - c)) s))
  /\ (~ runnable s (3 - c) -> schedule s = Resumed (set_current (Some c) s)).
Proof.
  intros Hinv Hck Hcur Hc.
  destruct (runnable_inv s c Hc) as (pc & Hpc & Hst).
  pose proof Hinv as (Hl & _ & Hsl & _).
  assert (Hin : forall x, runnable s x -> (x = 1 \/ x = 2) /\ 0 <= x < NPROC).
  { intros x Hx. destruct (runnable_inv s x Hx) as (p & Hp & Hstp).
    pose proof (zlookup_bounds _ _ _ Hp) as Hb.
    destruct (Hsl x p Hp) as [[_ Hok] _]. split; [apply Hok; congruence|lia]. }
  destruct (Hin c Hc) as [Hc12 Hcb].
  assert (Hpid : pid pc = c) by (apply (Hsl c pc Hpc); reflexivity).
  destruct (schedule_next s c pc) as (d & Hd & Hr & Hmin & Hs);
    [lia|lia|exact Hcur|exact Hpc|lia|exact Hck|eauto|].
  rewrite Hpid in Hr, Hmin, Hs. rewrite Hs.
  destruct (Hin _ Hr) as [Hx12 _].
  split.
  - intros Ho. do 3 f_equal.
    destruct (decide ((c + d) mod NPROC = c)) as [Heq|Hne]; [|lia].
    exfalso.
    assert (HdN : d = NPROC).
    { destruct (decide (d = NPROC)) as [?|Hlt]; [assumption|].
      assert (H : c + d = c); [|lia].
      apply (mod_inj NPROC); [lia| |lia].
      rewrite Heq. symmetry. apply Z.mod_small. lia. }
    destruct (Hin _ Ho) as [_ Hob].
    apply (Hmin (if decide (c = 1) then 1 else NPROC - 1)).
    + case_decide; lia.
    + case_decide.
      * rewrite Z.mod_small by lia.
        replace (c + 1) with (3 - c) by lia. exact Ho.
      * replace (c + (NPROC - 1)) with (3 - c + 1 * NPROC) by lia.
        rewrite Z_mod_plus_full, Z.mod_small by lia. exact Ho.
  - intros Hno. do 3 f_equal.
    destruct (decide ((c + d) mod NPROC = c)) as [Heq|Hne]; [exact Heq|].
    exfalso. apply Hno. replace (3 - c) with ((c + d) mod NPROC) by lia. exact Hr.
Qed.

(** X20.  With its two processes, the kernel is a round robin of two.
    In a reachable state where the page tables pass [check_pagetable],
    a timer interrupt and SYSCALL_YIELD both take the CPU from the
    current process [c] and give it to the other process, [3 - c], when
    that one is RUNNABLE; when it is not (it has faulted, or was never
    loaded), the current process gets the CPU back. *)
Theorem two_processes_take_turns (s : kstate) (c : Z) (pc : proc) (r : regstate)
    (Hreach : reachable s)
    (Hck : pagetables_checked s)
    (Hcur : current s = Some c)
    (Hpc : zlookup (ptable s) c = Some pc) :
  let next (x : Z) : Prop :=
    (runnable s (3 - c) -> x = 3 - c) /\ (~ runnable s (3 - c) -> x = c) in
  (reg_intno r = INT_IRQ + IRQ_TIMER ->
   exists x, next x
     /\ exception r s
        = Resumed (set_current (Some x)
                     (set_ticks (wrap64 (ticks s + 1)) (with_proc c (set_regs r pc) s))))
  /\ (NoDup syscall_numbers -> reg_rax r = SYSCALL_YIELD ->
      exists x, next x
        /\ syscall r s
           = Resumed (set_current (Some x)
                        (with_proc c (set_regs (set_reg_rax 0 r) pc) s))).
Proof.
  intros next.
  pose proof (reachable_kernel_inv s Hreach) as Hinv.
  destruct (reachable_running s Hreach) as (c' & Hc' & Hrun).
  rewrite Hcur in Hc'. injection Hc' as <-.
  assert (Hturn : forall q s1,
            pid q = pid pc -> state q = state pc -> pagetable q = pagetable pc ->
            ptable s1 = ptable (with_proc c q s) ->
            pagetables s1 = pagetables s -> current s1 = Some c ->
            kernel_inv s1 ->
            exists x, next x /\ schedule s1 = Resumed (set_current (Some x) s1)).
  { intros q s1 Hpid Hst Hpt Hpt1 Hpts1 Hc1 Hinv1.
    assert (Hr1 : forall x, runnable s1 x <-> runnable s x).
    { intros x. unfold runnable, slot_state. rewrite Hpt1.
      apply (runnable_update_regs s c x pc q Hpc Hst). }
    assert (Hck1 : pagetables_checked s1).
    { intros x p Hp Hrp. rewrite Hpt1 in Hp. rewrite Hpts1.
      apply (pagetables_checked_update_regs s c pc q Hpc Hst Hpt Hck x p Hp Hrp). }
    destruct (schedule_other s1 c Hinv1 Hck1 Hc1 (proj2 (Hr1 c) Hrun)) as [Ho Hn].
    assert (Hdec : runnable s (3 - c) \/ ~ runnable s (3 - c)).
    { unfold runnable. destruct (slot_state s (3 - c)) as [[]|]; auto; right; discriminate. }
    destruct Hdec as [Hy|Hy].
    - exists (3 - c). split; [split; [auto|contradiction]|].
      apply Ho, Hr1, Hy.
    - exists c. split; [split; [contradiction|auto]|].
      apply Hn. intros H. apply Hy, Hr1, H. }
  split.
  - intros Hint.
    rewrite (exception_enter s c pc r Hcur Hpc).
    replace (reg_intno r =? INT_IRQ + IRQ_TIMER) with true by lia.
    apply (Hturn (set_regs r pc)); try reflexivity; [exact Hcur|].
    eapply kernel_inv_fields;
      [eapply (kernel_inv_regs true s c pc (set_regs r pc)); [exact Hinv|exact Hpc|reflexivity..]
      |reflexivity..].
  - intros Hnum Hrax.
    rewrite (syscall_yield_enter s c pc r Hcur Hpc Hnum Hrax).
    destruct (Hturn (set_regs (set_reg_rax 0 r) pc)
                (with_proc c (set_regs (set_reg_rax 0 r) pc) s))
      as (x & Hx & Hs); try reflexivity; [exact Hcur| |].
    + eapply kernel_inv_regs; [exact Hinv|exact Hpc|reflexivity..].
    + exists x. split; [exact Hx|]. apply noreturn_Resumed, Hs.
Qed.

(** *** What a system call that returns leaves alone *)

(** X21.  A system call that returns to its caller has not switched
    processes, has changed the state of no process, and has touched no
    page table, nor the tick counter, nor the cursor of the allocator.
    In the process table, it has changed the saved registers of the
    caller only. *)
Theorem syscall_return_frame (s : kstate) (r : regstate) (v : Z) (s' : kstate)
    (Hret : syscall r s = Ret v s') :
  current s' = current s /\ pagetables s' = pagetables s
  /\ ticks s' = ticks s /\ next_alloc_pa s' = next_alloc_pa s
  /\ (forall x, slot_state s' x = slot_state s x)
  /\ (forall x, current s <> Some x -> zlookup (ptable s') x = zlookup (ptable s) x)
  /\ (forall c p, current s = Some c -> zlookup (ptable s) c = Some p ->
        zlookup (ptable s') c = Some (set_regs r p)).
Proof.
  set (F := fun s1 : kstate =>
         current s1 = current s /\ pagetables s1 = pagetables s
         /\ ticks s1 = ticks s /\ next_alloc_pa s1 = next_alloc_pa s
         /\ (forall x, slot_state s1 x = slot_state s x)
         /\ (forall x, current s <> Some x -> zlookup (ptable s1) x = zlookup (ptable s) x)
         /\ (forall c p, current s = Some c -> zlookup (ptable s) c = Some p ->
               zlookup (ptable s1) c = Some (set_regs r p))).
  assert (Hwp : wp (syscall r) (fun _ => F) (fun _ => True) s).
  { unfold syscall. apply wp_bind, wp_current_proc.
    destruct (current s) as [c|] eqn:Hc; [|exact I].
    apply wp_bind, wp_update_proc.
    destruct (zlookup (ptable s) c) as [p|] eqn:Hp; [|exact I].
    pose proof (zlookup_bounds _ _ _ Hp) as Hb.
    assert (H1 : F (with_proc c (set_regs r p) s)).
    { unfold F.
      split; [exact Hc|]. split; [reflexivity|]. split; [reflexivity|].
      split; [reflexivity|]. split; [|split].
      - intros x. unfold slot_state. destruct (decide (x = c)) as [->|Hne].
        + erewrite with_proc_lookup by exact Hp. rewrite Hp. reflexivity.
        + rewrite with_proc_lookup_ne by lia. reflexivity.
      - intros x Hx. apply with_proc_lookup_ne; [lia|congruence].
      - intros c0 p0 [= <-] Hp0. rewrite Hp in Hp0. injection Hp0 as <-.
        eapply with_proc_lookup, Hp. }
    set (s1 := with_proc c (set_regs r p) s) in *. clearbody s1.
    destruct (reg_rax r =? SYSCALL_PANIC); [exact I|].
    destruct (reg_rax r =? SYSCALL_GETPID); [repeat wp_step; exact I || exact H1|].
    destruct (reg_rax r =? SYSCALL_YIELD).
    { apply (wp_cut (fun _ _ => True)); [apply wp_True|]. intros _ s2 _.
      apply (wp_noreturn _ _ (fun _ _ => True)), wp_True. }
    unfold syscall_page_alloc, syscall_spawn, syscall_pipewrite, syscall_piperead.
    repeat wp_step; exact I || exact H1. }
  unfold wp in Hwp. rewrite Hret in Hwp. exact Hwp.
Qed.

End Proofs.

(** ** The theorems at work on the concrete configuration *)

Section Witnesses.

#[local] Existing Instance WeensyOS.config.

Lemma started_resumed : kernel_start None WeensyOS.boot = Resumed WeensyOS.started.
Proof.
  assert (H : is_resumed (kernel_start None WeensyOS.boot) = true)
    by (vm_compute; reflexivity).
  unfold WeensyOS.started.
  destruct (kernel_start None WeensyOS.boot); try discriminate H. reflexivity.
Qed.

Lemma pipe_write_read_witness :
  1 <= 5 /\ 1 <= 3
  /\ exists s1 s2,
      syscall_pipewrite 0x100041 5 WeensyOS.boot = Ret 1 s1
      /\ syscall_piperead 0x140000 3 s1 = Ret 1 s2
      /\ mem s2 0x140000 = mem WeensyOS.boot 0x100041
      /\ pipebuf_len s2 = 0.
Proof.
  assert (Hw : 1 <= 5) by lia. assert (Hr : 1 <= 3) by lia.
  split; [exact Hw|]. split; [exact Hr|].
  destruct (pipe_write_read WeensyOS.boot 0x100041 0x140000 5 3 Hw Hr)
    as (_ & Hwr & _).
  destruct (Hwr eq_refl) as (H1 & s2 & H2 & H3 & _ & H4).
  eexists _, s2. split; [exact H1|]. split; [exact H2|]. split; assumption.
Defined.

Lemma kalloc_spec_witness :
  (0 < PAGESIZE /\ MEMSIZE_PHYSICAL = NPAGES * PAGESIZE
   /\ MEMSIZE_PHYSICAL + PAGESIZE <= 2 ^ 64 /\ wf_alloc WeensyOS.boot)
  /\ exists pa s',
      kalloc 100 WeensyOS.boot = Ret pa s'
      /\ wf_alloc s' /\ next_alloc_pa WeensyOS.boot <= next_alloc_pa s'.
Proof.
  assert (H1 : 0 < PAGESIZE) by (vm_compute; reflexivity).
  assert (H2 : MEMSIZE_PHYSICAL = NPAGES * PAGESIZE) by (vm_compute; reflexivity).
  assert (H3 : MEMSIZE_PHYSICAL + PAGESIZE <= 2 ^ 64) by (vm_compute; discriminate).
  assert (H4 : wf_alloc WeensyOS.boot)
    by (split; [vm_compute; discriminate|split; vm_compute; reflexivity]).
  split; [auto|].
  exact (proj1 (proj2 (kalloc_spec H1 H2 H3 WeensyOS.boot 100 H4))).
Defined.

Lemma process_setup_runnable_witness :
  (0 < PAGESIZE /\ MEMSIZE_PHYSICAL = NPAGES * PAGESIZE
   /\ MEMSIZE_PHYSICAL + PAGESIZE <= 2 ^ 64
   /\ PAGESIZE <= PROC_SIZE /\ 0 <= first_addr 1
   /\ last_addr 1 <= MEMSIZE_PHYSICAL /\ wf_tables WeensyOS.boot
   /\ zlookup (ptable WeensyOS.boot) 1 = Some (mkproc 0 P_FREE (mkregs 0 0 0 0 0 0 0) 0)
   /\ program_image "alice" = Some (WeensyOS.two_page_image 0x100000)
   /\ setup_ok 1 (WeensyOS.two_page_image 0x100000) WeensyOS.boot)
  /\ exists s' p',
      process_setup 1 "alice" WeensyOS.boot = Ret tt s'
      /\ zlookup (ptable s') 1 = Some p'
      /\ state p' = P_RUNNABLE
      /\ reg_rip (regs p') = 0x100010
      /\ reg_rsp (regs p') = 0x140000.
Proof.
  assert (H1 : 0 < PAGESIZE) by (vm_compute; reflexivity).
  assert (H2 : MEMSIZE_PHYSICAL = NPAGES * PAGESIZE) by (vm_compute; reflexivity).
  assert (H3 : MEMSIZE_PHYSICAL + PAGESIZE <= 2 ^ 64) by (vm_compute; discriminate).
  assert (H4 : PAGESIZE <= PROC_SIZE) by (vm_compute; discriminate).
  assert (H5 : 0 <= first_addr 1) by (vm_compute; discriminate).
  assert (H6 : last_addr 1 <= MEMSIZE_PHYSICAL) by (vm_compute; discriminate).
  assert (H7 : wf_tables WeensyOS.boot).
  { split; [vm_compute; reflexivity|]. split; [vm_compute; reflexivity|].
    exists ∅. vm_compute. reflexivity. }
  assert (H8 : zlookup (ptable WeensyOS.boot) 1
               = Some (mkproc 0 P_FREE (mkregs 0 0 0 0 0 0 0) 0))
    by (vm_compute; reflexivity).
  assert (H9 : program_image "alice" = Some (WeensyOS.two_page_image 0x100000))
    by (vm_compute; reflexivity).
  assert (H10 : setup_ok 1 (WeensyOS.two_page_image 0x100000) WeensyOS.boot)
    by (apply (bool_decide_unpack _); vm_compute; exact I).
  split; [repeat (split; [assumption|]); assumption|].
  destruct (proj1 (process_setup_runnable H1 H2 H3 1 "alice" _ _ WeensyOS.boot
                     H4 H5 H6 H7 H8 H9) H10)
    as (s' & p' & Hrun & Hp' & Hst & Hrip & Hrsp & _).
  exists s', p'. repeat (split; [assumption|]). assumption.
Defined.

(** The claim C4 as it is written fails: the only segment of this image
    lies in the window of process 1, and every page the loader touches
    has reference count 0 before the call, but the segment is the page
    of the stack, and [process_setup] stops on the assertion for the
    stack page. *)
Lemma process_setup_stack_page_counterexample :
  program_image "toppage" = Some WeensyOS.top_page_image
  /\ in_window 1 (image_pages WeensyOS.top_page_image)
  /\ Forall (fun a => refcount_of WeensyOS.boot a = Some 0)
            (image_pages WeensyOS.top_page_image ++ [stack_addr 1])
  /\ halted_on (process_setup 1 "toppage" WeensyOS.boot) = Some assert_stack_refcount.
Proof.
  split; [vm_compute; reflexivity|].
  split; [unfold in_window; apply (bool_decide_unpack _); vm_compute; exact I|].
  split; [apply (bool_decide_unpack _); vm_compute; exact I|].
  vm_compute. reflexivity.
Qed.

Lemma exception_dispatch_witness :
  (current WeensyOS.started = Some 1
   /\ zlookup (ptable WeensyOS.started) 1 = Some WeensyOS.alice
   /\ INT_PF <> INT_IRQ + IRQ_TIMER)
  /\ exception WeensyOS.user_fault WeensyOS.started
     = schedule (with_proc 1 (set_state P_FAULTED
                                (set_regs WeensyOS.user_fault WeensyOS.alice))
                           WeensyOS.started).
Proof.
  assert (H3 : INT_PF <> INT_IRQ + IRQ_TIMER)
    by (vm_compute; intros H; discriminate H).
  assert (H4 : reg_intno WeensyOS.user_fault = INT_PF) by reflexivity.
  assert (H5 : Z.land (reg_errcode WeensyOS.user_fault) PTE_U <> 0)
    by (vm_compute; intros H; discriminate H).
  assert (H1 : current WeensyOS.started = Some 1) by (vm_compute; reflexivity).
  assert (H2 : zlookup (ptable WeensyOS.started) 1 = Some WeensyOS.alice)
    by (vm_compute; reflexivity).
  split; [exact (conj H1 (conj H2 H3))|].
  destruct (exception_dispatch WeensyOS.started 1 WeensyOS.alice
              WeensyOS.user_fault H1 H2 H3) as (_ & Huser & _).
  destruct (Huser H4 H5) as (_ & Hsched & _).
  exact Hsched.
Defined.

Lemma schedule_round_robin_witness :
  (0 < NPROC /\ Z.of_nat (length (ptable WeensyOS.started)) = NPROC
   /\ current WeensyOS.started = Some 1
   /\ zlookup (ptable WeensyOS.started) 1 = Some WeensyOS.alice
   /\ 0 <= pid WeensyOS.alice < NPROC
   /\ pagetables_checked WeensyOS.started
   /\ runnable WeensyOS.started 2)
  /\ exists d,
      1 <= d <= NPROC
      /\ runnable WeensyOS.started ((1 + d) mod NPROC)
      /\ schedule WeensyOS.started
         = Resumed (set_current (Some ((1 + d) mod NPROC)) WeensyOS.started).
Proof.
  assert (H1 : 0 < NPROC) by (vm_compute; reflexivity).
  assert (H5 : 0 <= pid WeensyOS.alice < NPROC)
    by (split; [vm_compute; intros H; discriminate H|vm_compute; reflexivity]).
  assert (H2 : Z.of_nat (length (ptable WeensyOS.started)) = NPROC)
    by (vm_compute; reflexivity).
  assert (H3 : current WeensyOS.started = Some 1) by (vm_compute; reflexivity).
  assert (H4 : zlookup (ptable WeensyOS.started) 1 = Some WeensyOS.alice)
    by (vm_compute; reflexivity).
  assert (H6 : pagetables_checked WeensyOS.started)
    by (apply pagetables_checkedb_sound; vm_compute; reflexivity).
  assert (H7 : runnable WeensyOS.started 2) by (vm_compute; reflexivity).
  split; [exact (conj H1 (conj H2 (conj H3 (conj H4 (conj H5 (conj H6 H7))))))|].
  destruct (proj1 (schedule_round_robin WeensyOS.started 1 WeensyOS.alice
                     H1 H2 H3 H4 H5 H6) (ex_intro (fun x => runnable WeensyOS.started x) 2 H7))
    as (d & Hd & Hr & _ & Hrun).
  exists d. exact (conj Hd (conj Hr Hrun)).
Defined.

Lemma kernel_pagetable_identity_witness :
  (0 < PAGESIZE /\ MEMSIZE_PHYSICAL + PAGESIZE <= 2 ^ 64
   /\ is_Some (pagetables WeensyOS.boot !! kernel_pagetable)
   /\ (0 < CONSOLE_ADDR < MEMSIZE_PHYSICAL /\ CONSOLE_ADDR mod PAGESIZE = 0)
   /\ (PTE_P <> 0 /\ PTE_W <> 0 /\ PTE_U <> 0
       /\ Z.land PTE_P PTE_U = 0 /\ Z.land PTE_W PTE_U = 0))
  /\ exists s' perm,
      init_kernel_pagetable WeensyOS.boot = Ret tt s'
      /\ vmiter_lookup s' kernel_pagetable 0xB8123 = Some (0xB8000, perm)
      /\ present perm /\ writable perm /\ user_accessible perm.
Proof.
  assert (H1 : 0 < PAGESIZE) by (vm_compute; reflexivity).
  assert (H3 : MEMSIZE_PHYSICAL + PAGESIZE <= 2 ^ 64) by (vm_compute; discriminate).
  assert (H4 : is_Some (pagetables WeensyOS.boot !! kernel_pagetable))
    by (exists ∅; vm_compute; reflexivity).
  assert (H5 : 0 < CONSOLE_ADDR < MEMSIZE_PHYSICAL /\ CONSOLE_ADDR mod PAGESIZE = 0)
    by (split; [split|]; vm_compute; reflexivity).
  assert (H6 : PTE_P <> 0 /\ PTE_W <> 0 /\ PTE_U <> 0
               /\ Z.land PTE_P PTE_U = 0 /\ Z.land PTE_W PTE_U = 0).
  { split; [vm_compute; discriminate|]. split; [vm_compute; discriminate|].
    split; [vm_compute; discriminate|]. split; vm_compute; reflexivity. }
  split; [repeat (split; [assumption|]); assumption|].
  destruct (kernel_pagetable_identity H1 H3 WeensyOS.boot H4 H5 H6) as (s' & Hrun & Hmap).
  destruct (Hmap 0xB8123) as (perm & Hlook & _ & Hcon & _).
  { split; vm_compute; [discriminate|reflexivity]. }
  exists s', perm. split; [exact Hrun|]. split; [exact Hlook|].
  apply Hcon. vm_compute. reflexivity.
Defined.

Lemma refcount_zero_iff_eligible_witness :
  (0 < PAGESIZE /\ MEMSIZE_PHYSICAL = NPAGES * PAGESIZE
   /\ MEMSIZE_PHYSICAL + PAGESIZE <= 2 ^ 64
   /\ reachable WeensyOS.started /\ 0 <= NPAGES
   /\ allocatable_physical_address 0 = false
   /\ 0 <= 0x150000 < MEMSIZE_PHYSICAL /\ 0x150000 mod PAGESIZE = 0
   /\ allocatable_physical_address 0x150000 = true
   /\ next_alloc_pa WeensyOS.started <= 0x150000
   /\ refcount_of WeensyOS.started 0x150000 = Some 0)
  /\ eligible WeensyOS.started 0x150000.
Proof.
  assert (H1 : 0 < PAGESIZE) by (vm_compute; reflexivity).
  assert (H2 : MEMSIZE_PHYSICAL = NPAGES * PAGESIZE) by (vm_compute; reflexivity).
  assert (H3 : MEMSIZE_PHYSICAL + PAGESIZE <= 2 ^ 64)
    by (vm_compute; intros H; discriminate H).
  assert (H5 : 0 <= NPAGES) by (vm_compute; intros H; discriminate H).
  assert (H6 : allocatable_physical_address 0 = false) by (vm_compute; reflexivity).
  assert (H7 : 0 <= 0x150000 < MEMSIZE_PHYSICAL)
    by (split; [vm_compute; intros H; discriminate H|vm_compute; reflexivity]).
  assert (H8 : 0x150000 mod PAGESIZE = 0) by (vm_compute; reflexivity).
  assert (H9 : allocatable_physical_address 0x150000 = true)
    by (vm_compute; reflexivity).
  assert (H10 : next_alloc_pa WeensyOS.started <= 0x150000)
    by (vm_compute; intros H; discriminate H).
  assert (H11 : refcount_of WeensyOS.started 0x150000 = Some 0)
    by (vm_compute; reflexivity).
  assert (H4 : reachable WeensyOS.started)
    by exact (reach_start None ∅ (fun a => a mod 251) WeensyOS.started started_resumed).
  split.
  { exact (conj H1 (conj H2 (conj H3 (conj H4 (conj H5 (conj H6
             (conj H7 (conj H8 (conj H9 (conj H10 H11)))))))))). }
  exact (proj1 (proj1 (refcount_zero_iff_eligible H1 H2 H3 WeensyOS.started 0x150000
                         H4 H5 H6 H7 H8) H9 H10) H11).
Defined.

Lemma syscall_page_alloc_spec_witness :
  refcount_of WeensyOS.started 0x110000 = Some 0
  /\ exists s',
      syscall_page_alloc 0x110000 WeensyOS.started = Ret 0 s'
      /\ refcount_of s' 0x110000 = Some 1
      /\ vmiter_lookup s' kernel_pagetable 0x110000
         = Some (0x110000, Z.lor PTE_P PTE_W)
      /\ Z.land (Z.lor PTE_P PTE_W) PTE_U = 0.
Proof.
  assert (H1 : refcount_of WeensyOS.started 0x110000 = Some 0)
    by (vm_compute; reflexivity).
  assert (H2 : vmiter_lookup WeensyOS.started kernel_pagetable 0x110000
               = Some (0x110000, Z.lor PTE_P PTE_W))
    by (vm_compute; reflexivity).
  assert (H3 : Z.land (Z.lor PTE_P PTE_W) PTE_U = 0) by (vm_compute; reflexivity).
  split; [exact H1|].
  destruct (proj1 (syscall_page_alloc_spec WeensyOS.started 0x110000 0 H1) eq_refl)
    as (s' & Hrun & Hrc & _ & _ & Hsame).
  exists s'. split; [exact Hrun|]. split; [exact Hrc|]. split; [|exact H3].
  rewrite Hsame. exact H2.
Defined.

Lemma alice_then_eve :
  process_setup 1 "alice" WeensyOS.boot = Ret tt WeensyOS.alice_loaded
  /\ process_setup 2 "eve" WeensyOS.alice_loaded = Ret tt WeensyOS.eve_loaded.
Proof.
  assert (H1 : 0 < PAGESIZE) by (vm_compute; reflexivity).
  assert (H2 : MEMSIZE_PHYSICAL = NPAGES * PAGESIZE) by (vm_compute; reflexivity).
  assert (H3 : MEMSIZE_PHYSICAL + PAGESIZE <= 2 ^ 64)
    by (vm_compute; intros H; discriminate H).
  assert (H4 : PAGESIZE <= PROC_SIZE) by (vm_compute; intros H; discriminate H).
  assert (Hf1 : 0 <= first_addr 1) by (vm_compute; intros H; discriminate H).
  assert (Hl1 : last_addr 1 <= MEMSIZE_PHYSICAL)
    by (vm_compute; intros H; discriminate H).
  assert (Hf2 : 0 <= first_addr 2) by (vm_compute; intros H; discriminate H).
  assert (Hl2 : last_addr 2 <= MEMSIZE_PHYSICAL)
    by (vm_compute; intros H; discriminate H).
  assert (Hi1 : program_image "alice" = Some (WeensyOS.two_page_image 0x100000))
    by (vm_compute; reflexivity).
  assert (Hi2 : program_image "eve" = Some (WeensyOS.two_page_image 0x140000))
    by (vm_compute; reflexivity).
  assert (Hw1 : wf_tables WeensyOS.boot).
  { split; [vm_compute; reflexivity|]. split; [vm_compute; reflexivity|].
    apply (bool_decide_unpack _). vm_compute. exact I. }
  assert (Hw2 : wf_tables WeensyOS.alice_loaded).
  { split; [vm_compute; reflexivity|]. split; [vm_compute; reflexivity|].
    apply (bool_decide_unpack _). vm_compute. exact I. }
  assert (Hp1 : zlookup (ptable WeensyOS.boot) 1 = Some WeensyOS.free_proc)
    by (vm_compute; reflexivity).
  assert (Hp2 : zlookup (ptable WeensyOS.alice_loaded) 2 = Some WeensyOS.free_proc)
    by (vm_compute; reflexivity).
  assert (Hok1 : setup_ok 1 (WeensyOS.two_page_image 0x100000) WeensyOS.boot)
    by (apply (bool_decide_unpack _); vm_compute; exact I).
  assert (Hok2 : setup_ok 2 (WeensyOS.two_page_image 0x140000) WeensyOS.alice_loaded)
    by (apply (bool_decide_unpack _); vm_compute; exact I).
  split.
  - destruct (process_setup_cases H1 H2 H3 1 "alice" (WeensyOS.two_page_image 0x100000)
                WeensyOS.free_proc WeensyOS.boot H4 Hf1 Hl1 Hw1 Hp1 Hi1)
      as [[_ Hrun]|[Hbad _]]; [exact Hrun|contradiction].
  - destruct (process_setup_cases H1 H2 H3 2 "eve" (WeensyOS.two_page_image 0x140000)
                WeensyOS.free_proc WeensyOS.alice_loaded H4 Hf2 Hl2 Hw2 Hp2 Hi2)
      as [[_ Hrun]|[Hbad _]]; [exact Hrun|contradiction].
Qed.

Lemma shared_kernel_pagetable_witness :
  (0 < PAGESIZE /\ MEMSIZE_PHYSICAL = NPAGES * PAGESIZE
   /\ MEMSIZE_PHYSICAL + PAGESIZE <= 2 ^ 64 /\ PAGESIZE <= PROC_SIZE
   /\ (0 <= first_addr 1 /\ last_addr 1 <= MEMSIZE_PHYSICAL)
   /\ (0 <= first_addr 2 /\ last_addr 2 <= MEMSIZE_PHYSICAL)
   /\ 1 <> 2 /\ wf_tables WeensyOS.boot
   /\ zlookup (ptable WeensyOS.boot) 1 = Some WeensyOS.free_proc
   /\ zlookup (ptable WeensyOS.boot) 2 = Some WeensyOS.free_proc
   /\ program_image "alice" = Some (WeensyOS.two_page_image 0x100000)
   /\ program_image "eve" = Some (WeensyOS.two_page_image 0x140000)
   /\ process_setup 1 "alice" WeensyOS.boot = Ret tt WeensyOS.alice_loaded
   /\ process_setup 2 "eve" WeensyOS.alice_loaded = Ret tt WeensyOS.eve_loaded)
  /\ exists pi pj,
      zlookup (ptable WeensyOS.eve_loaded) 1 = Some pi
      /\ zlookup (ptable WeensyOS.eve_loaded) 2 = Some pj
      /\ pagetable pi = pagetable pj
      /\ vmiter_lookup WeensyOS.eve_loaded (pagetable pj) 0x100000
         = Some (0x100000, PTE_PWU)
      /\ vmiter_lookup WeensyOS.eve_loaded (pagetable pi) 0x17F000
         = Some (0x17F000, PTE_PWU).
Proof.
  assert (H1 : 0 < PAGESIZE) by (vm_compute; reflexivity).
  assert (H2 : MEMSIZE_PHYSICAL = NPAGES * PAGESIZE) by (vm_compute; reflexivity).
  assert (H3 : MEMSIZE_PHYSICAL + PAGESIZE <= 2 ^ 64)
    by (vm_compute; intros H; discriminate H).
  assert (H4 : PAGESIZE <= PROC_SIZE) by (vm_compute; intros H; discriminate H).
  assert (H5 : 0 <= first_addr 1 /\ last_addr 1 <= MEMSIZE_PHYSICAL)
    by (split; vm_compute; intros H; discriminate H).
  assert (H6 : 0 <= first_addr 2 /\ last_addr 2 <= MEMSIZE_PHYSICAL)
    by (split; vm_compute; intros H; discriminate H).
  assert (H7 : 1 <> 2) by (intros H; discriminate H).
  assert (H8 : wf_tables WeensyOS.boot).
  { split; [vm_compute; reflexivity|]. split; [vm_compute; reflexivity|].
    apply (bool_decide_unpack _). vm_compute. exact I. }
  assert (H9 : zlookup (ptable WeensyOS.boot) 1 = Some WeensyOS.free_proc)
    by (vm_compute; reflexivity).
  assert (H10 : zlookup (ptable WeensyOS.boot) 2 = Some WeensyOS.free_proc)
    by (vm_compute; reflexivity).
  assert (H11 : program_image "alice" = Some (WeensyOS.two_page_image 0x100000))
    by (vm_compute; reflexivity).
  assert (H12 : program_image "eve" = Some (WeensyOS.two_page_image 0x140000))
    by (vm_compute; reflexivity).
  pose proof (proj1 alice_then_eve) as H13.
  pose proof (proj2 alice_then_eve) as H14.
  split.
  { exact (conj H1 (conj H2 (conj H3 (conj H4 (conj H5 (conj H6 (conj H7
             (conj H8 (conj H9 (conj H10 (conj H11 (conj H12
             (conj H13 H14))))))))))))). }
  destruct (shared_kernel_pagetable H1 H2 H3 1 2 "alice" "eve" _ _ _ _
              WeensyOS.boot _ _ H4 (proj1 H5) (proj2 H5) (proj1 H6) (proj2 H6)
              H7 H8 H9 H10 H11 H12 H13 H14)
    as (pi & pj & Hpi & Hpj & Hpti & Hptj & Hmap & _).
  exists pi, pj. split; [exact Hpi|]. split; [exact Hpj|].
  split; [rewrite Hpti, Hptj; reflexivity|].
  split.
  - refine (proj2 (Hmap 0x100000 _)).
    apply (bool_decide_unpack _). vm_compute. exact I.
  - refine (proj1 (Hmap 0x17F000 _)).
    apply (bool_decide_unpack _). vm_compute. exact I.
Defined.

Lemma started_reachable : reachable WeensyOS.started.
Proof.
  exact (reach_start None ∅ (fun a => a mod 251) WeensyOS.started started_resumed).
Qed.

Lemma syscall_numbers_distinct : NoDup syscall_numbers.
Proof. apply (bool_decide_unpack _). vm_compute. exact I. Qed.

Lemma started_alice :
  current WeensyOS.started = Some 1
  /\ zlookup (ptable WeensyOS.started) 1 = Some WeensyOS.alice
  /\ Z.of_nat (length (ptable WeensyOS.started)) = NPROC
  /\ pagetables_checked WeensyOS.started.
Proof.
  split; [vm_compute; reflexivity|]. split; [vm_compute; reflexivity|].
  split; [vm_compute; reflexivity|].
  apply pagetables_checkedb_sound. vm_compute. reflexivity.
Qed.

Lemma idle_no_runnable (x : Z) : ~ runnable WeensyOS.idle x.
Proof.
  intros Hx. apply runnable_inv in Hx as (p & Hp & Hst).
  change (ptable WeensyOS.idle)
    with (replicate (Z.to_nat NPROC) (mkproc 0 P_FREE (mkregs 0 0 0 0 0 0 0) 0)) in Hp.
  unfold zlookup in Hp. destruct (0 <=? x); [|discriminate Hp].
  apply lookup_replicate in Hp as [-> _]. discriminate Hst.
Qed.

Lemma schedule_spins_witness :
  (0 < NPROC /\ Z.of_nat (length (ptable WeensyOS.idle)) = NPROC
   /\ current WeensyOS.idle = Some 1
   /\ zlookup (ptable WeensyOS.idle) 1 = Some WeensyOS.free_proc
   /\ 0 <= pid WeensyOS.free_proc < NPROC
   /\ forall x, ~ runnable WeensyOS.idle x)
  /\ schedule WeensyOS.idle = Spinning WeensyOS.idle.
Proof.
  assert (H1 : 0 < NPROC) by (vm_compute; reflexivity).
  assert (H2 : Z.of_nat (length (ptable WeensyOS.idle)) = NPROC)
    by (vm_compute; reflexivity).
  assert (H3 : current WeensyOS.idle = Some 1) by reflexivity.
  assert (H4 : zlookup (ptable WeensyOS.idle) 1 = Some WeensyOS.free_proc)
    by (vm_compute; reflexivity).
  assert (H5 : 0 <= pid WeensyOS.free_proc < NPROC)
    by (split; [vm_compute; intros H; discriminate H|vm_compute; reflexivity]).
  split; [exact (conj H1 (conj H2 (conj H3 (conj H4 (conj H5 idle_no_runnable)))))|].
  exact (proj1 (schedule_spins WeensyOS.idle 1 WeensyOS.free_proc
                  H1 H2 H3 H4 H5 idle_no_runnable)).
Defined.

Lemma user_fault_not_resumed_witness :
  (current WeensyOS.started = Some 1
   /\ zlookup (ptable WeensyOS.started) 1 = Some WeensyOS.alice
   /\ INT_PF <> INT_IRQ + IRQ_TIMER
   /\ reg_intno WeensyOS.user_fault = INT_PF
   /\ Z.land (reg_errcode WeensyOS.user_fault) PTE_U <> 0)
  /\ forall s', exception WeensyOS.user_fault WeensyOS.started = Resumed s' ->
       exists x, x <> 1 /\ runnable WeensyOS.started x
         /\ s' = set_current (Some x)
                   (with_proc 1 (set_state P_FAULTED
                                   (set_regs WeensyOS.user_fault WeensyOS.alice))
                      WeensyOS.started).
Proof.
  destruct started_alice as (H1 & H2 & _).
  assert (H3 : INT_PF <> INT_IRQ + IRQ_TIMER)
    by (vm_compute; intros H; discriminate H).
  assert (H4 : reg_intno WeensyOS.user_fault = INT_PF) by reflexivity.
  assert (H5 : Z.land (reg_errcode WeensyOS.user_fault) PTE_U <> 0)
    by (vm_compute; intros H; discriminate H).
  split; [exact (conj H1 (conj H2 (conj H3 (conj H4 H5))))|].
  exact (proj1 (user_fault_not_resumed WeensyOS.started 1 WeensyOS.alice
                  WeensyOS.user_fault H1 H2 H3 H4 H5)).
Defined.

Lemma syscall_dispatch_witness :
  (current WeensyOS.started = Some 1
   /\ zlookup (ptable WeensyOS.started) 1 = Some WeensyOS.alice
   /\ NoDup syscall_numbers)
  /\ syscall WeensyOS.getpid_regs WeensyOS.started
     = Ret (wrap64 (pid WeensyOS.alice))
         (with_proc 1 (set_regs WeensyOS.getpid_regs WeensyOS.alice) WeensyOS.started).
Proof.
  destruct started_alice as (H1 & H2 & _).
  split; [exact (conj H1 (conj H2 syscall_numbers_distinct))|].
  exact (proj1 (syscall_dispatch WeensyOS.started 1 WeensyOS.alice
                  WeensyOS.getpid_regs H1 H2 syscall_numbers_distinct) eq_refl).
Defined.


Lemma syscall_yield_witness :
  (0 < NPROC /\ Z.of_nat (length (ptable WeensyOS.started)) = NPROC
   /\ current WeensyOS.started = Some 1
   /\ zlookup (ptable WeensyOS.started) 1 = Some WeensyOS.alice
   /\ 0 <= pid WeensyOS.alice < NPROC
   /\ pagetables_checked WeensyOS.started
   /\ NoDup syscall_numbers
   /\ reg_rax WeensyOS.yield_regs = SYSCALL_YIELD)
  /\ forall v s', syscall WeensyOS.yield_regs WeensyOS.started <> Ret v s'.
Proof.
  destruct started_alice as (H3 & H4 & H2 & H6).
  assert (H1 : 0 < NPROC) by (vm_compute; reflexivity).
  assert (H5 : 0 <= pid WeensyOS.alice < NPROC)
    by (split; [vm_compute; intros H; discriminate H|vm_compute; reflexivity]).
  assert (H8 : reg_rax WeensyOS.yield_regs = SYSCALL_YIELD) by reflexivity.
  split.
  { exact (conj H1 (conj H2 (conj H3 (conj H4 (conj H5 (conj H6
             (conj syscall_numbers_distinct H8))))))). }
  exact (proj1 (syscall_yield WeensyOS.started 1 WeensyOS.alice WeensyOS.yield_regs
                  H1 H2 H3 H4 H5 H6 syscall_numbers_distinct H8)).
Defined.

Lemma config_sizes :
  0 < PAGESIZE /\ MEMSIZE_PHYSICAL = NPAGES * PAGESIZE
  /\ MEMSIZE_PHYSICAL + PAGESIZE <= 2 ^ 64.
Proof.
  split; [vm_compute; reflexivity|]. split; [vm_compute; reflexivity|].
  vm_compute. intros H. discriminate H.
Qed.

Lemma boot_wf_alloc : wf_alloc WeensyOS.boot.
Proof. split; [vm_compute; discriminate|split; vm_compute; reflexivity]. Qed.

Lemma exhausted_wf_alloc : wf_alloc WeensyOS.exhausted.
Proof. split; [vm_compute; discriminate|split; vm_compute; reflexivity]. Qed.

Lemma kalloc_boot : kalloc 100 WeensyOS.boot = Ret 0x100000 WeensyOS.after_kalloc.
Proof.
  assert (H : match kalloc 100 WeensyOS.boot with
              | Ret pa _ => pa =? 0x100000
              | _ => false
              end = true) by (vm_compute; reflexivity).
  unfold WeensyOS.after_kalloc.
  destruct (kalloc 100 WeensyOS.boot) as [pa s| | | | |]; try discriminate H.
  apply Z.eqb_eq in H. rewrite H. reflexivity.
Qed.

Lemma kalloc_at_end :
  exists s', kalloc 100 WeensyOS.exhausted = Ret 0 s'.
Proof.
  assert (H : match kalloc 100 WeensyOS.exhausted with
              | Ret pa _ => pa =? 0
              | _ => false
              end = true) by (vm_compute; reflexivity).
  destruct (kalloc 100 WeensyOS.exhausted) as [pa s| | | | |]; try discriminate H.
  apply Z.eqb_eq in H. rewrite H. exists s. reflexivity.
Qed.

Lemma fault_resumed :
  exception WeensyOS.user_fault WeensyOS.started = Resumed WeensyOS.faulted.
Proof.
  assert (H : is_resumed (exception WeensyOS.user_fault WeensyOS.started) = true)
    by (vm_compute; reflexivity).
  unfold WeensyOS.faulted.
  destruct (exception WeensyOS.user_fault WeensyOS.started); try discriminate H.
  reflexivity.
Qed.

Lemma kalloc_first_fit_witness :
  (0 < PAGESIZE /\ MEMSIZE_PHYSICAL = NPAGES * PAGESIZE
   /\ MEMSIZE_PHYSICAL + PAGESIZE <= 2 ^ 64
   /\ wf_alloc WeensyOS.boot
   /\ kalloc 100 WeensyOS.boot = Ret 0x100000 WeensyOS.after_kalloc
   /\ 0x100000 <> 0)
  /\ (forall a, next_alloc_pa WeensyOS.boot <= a < 0x100000 ->
        a mod PAGESIZE = 0 -> ~ qualifies WeensyOS.boot a)
  /\ next_alloc_pa WeensyOS.after_kalloc = 0x100000 + PAGESIZE.
Proof.
  destruct config_sizes as (H1 & H2 & H3).
  assert (H6 : 0x100000 <> 0) by (intros H; discriminate H).
  split; [exact (conj H1 (conj H2 (conj H3 (conj boot_wf_alloc (conj kalloc_boot H6)))))|].
  destruct (kalloc_first_fit H1 H2 H3 WeensyOS.boot 100 0x100000 WeensyOS.after_kalloc
              boot_wf_alloc kalloc_boot H6) as (Hfirst & Hnext & _).
  exact (conj Hfirst Hnext).
Defined.

Lemma kalloc_exhausted_witness :
  (0 < PAGESIZE /\ MEMSIZE_PHYSICAL = NPAGES * PAGESIZE
   /\ MEMSIZE_PHYSICAL + PAGESIZE <= 2 ^ 64
   /\ wf_alloc WeensyOS.exhausted
   /\ allocatable_physical_address 0 = false
   /\ 100 <= PAGESIZE)
  /\ exists s',
       kalloc 100 WeensyOS.exhausted = Ret 0 s'
       /\ physpages s' = physpages WeensyOS.exhausted
       /\ forall sz2, kalloc sz2 s' = Ret 0 s'.
Proof.
  destruct config_sizes as (H1 & H2 & H3).
  assert (H5 : allocatable_physical_address 0 = false) by (vm_compute; reflexivity).
  assert (H6 : 100 <= PAGESIZE) by (vm_compute; intros H; discriminate H).
  split; [exact (conj H1 (conj H2 (conj H3 (conj exhausted_wf_alloc (conj H5 H6)))))|].
  destruct kalloc_at_end as (s' & Hk).
  destruct (kalloc_exhausted H1 H2 H3 WeensyOS.exhausted 100 s'
              exhausted_wf_alloc H5 H6 Hk) as (_ & _ & Hpages & _ & Hagain).
  exists s'. exact (conj Hk (conj Hpages Hagain)).
Defined.

Lemma reachable_process_table_witness :
  reachable WeensyOS.started
  /\ Z.of_nat (length (ptable WeensyOS.started)) = NPROC
  /\ pids_are_indices WeensyOS.started
  /\ forall x p, zlookup (ptable WeensyOS.started) x = Some p ->
       x <> 1 -> x <> 2 -> state p = P_FREE.
Proof.
  split; [exact started_reachable|].
  destruct (reachable_process_table WeensyOS.started started_reachable)
    as (Hlen & Hpid & Hfree & _).
  exact (conj Hlen (conj Hpid Hfree)).
Defined.

Lemma reachable_refcounts_witness :
  reachable WeensyOS.faulted
  /\ forall pa rc, refcount_of WeensyOS.faulted pa = Some rc -> rc = 0 \/ rc = 1.
Proof.
  assert (Hreach : reachable WeensyOS.faulted)
    by exact (reach_exception WeensyOS.started WeensyOS.user_fault WeensyOS.faulted
                started_reachable fault_resumed).
  split; [exact Hreach|].
  exact (proj1 (proj2 (reachable_refcounts WeensyOS.faulted Hreach))).
Defined.

Lemma reachable_pipe_witness :
  (reachable WeensyOS.started /\ 5 <> 0 /\ 3 <> 0)
  /\ syscall_pipewrite 0x100041 5 WeensyOS.started
     = Ret 1 (set_pipebuf_len 1
                (set_pipebuf (mem WeensyOS.started 0x100041) WeensyOS.started))
  /\ syscall_piperead 0x140000 3 WeensyOS.started = Ret (-1) WeensyOS.started.
Proof.
  assert (Hw : 5 <> 0) by (intros H; discriminate H).
  assert (Hr : 3 <> 0) by (intros H; discriminate H).
  assert (Hlen : pipebuf_len WeensyOS.started <> 1)
    by (vm_compute; intros H; discriminate H).
  split; [exact (conj started_reachable (conj Hw Hr))|].
  destruct (reachable_pipe WeensyOS.started 0x100041 0x140000 5 3
              started_reachable Hw Hr) as [(_ & Hwr)|(Hfull & _)].
  - exact Hwr.
  - destruct (Hlen Hfull).
Defined.

Lemma exception_defined_witness :
  reachable WeensyOS.started
  /\ exists x, current WeensyOS.faulted = Some x /\ runnable WeensyOS.faulted x.
Proof.
  split; [exact started_reachable|].
  pose proof (exception_defined WeensyOS.started WeensyOS.user_fault
                started_reachable) as H.
  rewrite fault_resumed in H. exact H.
Defined.


Lemma steps_never_undo_witness :
  rtc kstep WeensyOS.started WeensyOS.faulted
  /\ (forall x, ~ runnable WeensyOS.started x -> ~ runnable WeensyOS.faulted x)
  /\ pagetables WeensyOS.faulted = pagetables WeensyOS.started.
Proof.
  assert (Hsteps : rtc kstep WeensyOS.started WeensyOS.faulted).
  { apply rtc_once.
    exact (step_exception WeensyOS.started WeensyOS.user_fault WeensyOS.faulted
             fault_resumed). }
  split; [exact Hsteps|].
  destruct (steps_never_undo WeensyOS.started WeensyOS.faulted Hsteps)
    as (Hrun & _ & Hpt & _).
  exact (conj Hrun Hpt).
Defined.

Lemma alice_setup_facts :
  PAGESIZE <= PROC_SIZE /\ 0 <= first_addr 1 /\ last_addr 1 <= MEMSIZE_PHYSICAL
  /\ wf_tables WeensyOS.boot
  /\ zlookup (ptable WeensyOS.boot) 1 = Some WeensyOS.free_proc
  /\ program_image "alice" = Some (WeensyOS.two_page_image 0x100000).
Proof.
  split; [vm_compute; intros H; discriminate H|].
  split; [vm_compute; intros H; discriminate H|].
  split; [vm_compute; intros H; discriminate H|].
  split.
  { split; [vm_compute; reflexivity|]. split; [vm_compute; reflexivity|].
    exists ∅. vm_compute. reflexivity. }
  split; vm_compute; reflexivity.
Qed.

Lemma getpid_returns :
  exists v s', syscall WeensyOS.getpid_regs WeensyOS.started = Ret v s'.
Proof.
  assert (H : match syscall WeensyOS.getpid_regs WeensyOS.started with
              | Ret _ _ => true
              | _ => false
              end = true) by (vm_compute; reflexivity).
  destruct (syscall WeensyOS.getpid_regs WeensyOS.started) as [v s'| | | | |];
    try discriminate H.
  exists v, s'. reflexivity.
Qed.

Lemma process_setup_loads_witness :
  (0 < PAGESIZE /\ MEMSIZE_PHYSICAL = NPAGES * PAGESIZE
   /\ MEMSIZE_PHYSICAL + PAGESIZE <= 2 ^ 64
   /\ PAGESIZE <= PROC_SIZE /\ 0 <= first_addr 1
   /\ last_addr 1 <= MEMSIZE_PHYSICAL /\ wf_tables WeensyOS.boot
   /\ zlookup (ptable WeensyOS.boot) 1 = Some WeensyOS.free_proc
   /\ program_image "alice" = Some (WeensyOS.two_page_image 0x100000)
   /\ process_setup 1 "alice" WeensyOS.boot = Ret tt WeensyOS.alice_loaded)
  /\ mem WeensyOS.alice_loaded 0x100001 = 0x48
  /\ mem WeensyOS.alice_loaded 0x100004 = 0
  /\ mem WeensyOS.alice_loaded 0x150000 = mem WeensyOS.boot 0x150000.
Proof.
  destruct config_sizes as (H1 & H2 & H3).
  destruct alice_setup_facts as (H4 & H5 & H6 & H7 & H8 & H9).
  pose proof (proj1 alice_then_eve) as H10.
  split.
  { exact (conj H1 (conj H2 (conj H3 (conj H4 (conj H5 (conj H6
             (conj H7 (conj H8 (conj H9 H10))))))))). }
  destruct (process_setup_loads H1 H2 H3 1 "alice" (WeensyOS.two_page_image 0x100000)
              WeensyOS.free_proc WeensyOS.boot WeensyOS.alice_loaded
              H4 H5 H6 H7 H8 H9 H10) as (Hbyte & _ & _ & Hother).
  assert (Ht1 : seg_touches (mkseg 0x100000 0x1800 [0x55; 0x48; 0x89; 0xe5]) 0x100001)
    by (left; split; [vm_compute; intros H; discriminate H|vm_compute; reflexivity]).
  assert (Ht4 : seg_touches (mkseg 0x100000 0x1800 [0x55; 0x48; 0x89; 0xe5]) 0x100004)
    by (left; split; [vm_compute; intros H; discriminate H|vm_compute; reflexivity]).
  assert (Hno : Forall (fun sg => ~ seg_touches sg 0x150000)
                  (img_segs (WeensyOS.two_page_image 0x100000))).
  { apply Forall_cons. split; [|apply Forall_nil; exact I].
    intros [[_ H]|[_ H]]; vm_compute in H; discriminate H. }
  split; [|split].
  - exact (Hbyte [] _ [] 0x100001 eq_refl Ht1 (Forall_nil_2 _)).
  - exact (Hbyte [] _ [] 0x100004 eq_refl Ht4 (Forall_nil_2 _)).
  - exact (Hother 0x150000 Hno).
Defined.

Lemma process_setup_frame_witness :
  (0 < PAGESIZE /\ MEMSIZE_PHYSICAL = NPAGES * PAGESIZE
   /\ MEMSIZE_PHYSICAL + PAGESIZE <= 2 ^ 64
   /\ PAGESIZE <= PROC_SIZE /\ 0 <= first_addr 1
   /\ last_addr 1 <= MEMSIZE_PHYSICAL /\ wf_tables WeensyOS.boot
   /\ zlookup (ptable WeensyOS.boot) 1 = Some WeensyOS.free_proc
   /\ program_image "alice" = Some (WeensyOS.two_page_image 0x100000)
   /\ process_setup 1 "alice" WeensyOS.boot = Ret tt WeensyOS.alice_loaded)
  /\ vmiter_lookup WeensyOS.alice_loaded kernel_pagetable 0x13F000
     = Some (0x13F000, PTE_PWU)
  /\ (forall x, x <> 1 ->
        zlookup (ptable WeensyOS.alice_loaded) x = zlookup (ptable WeensyOS.boot) x)
  /\ next_alloc_pa WeensyOS.alice_loaded = next_alloc_pa WeensyOS.boot.
Proof.
  destruct config_sizes as (H1 & H2 & H3).
  destruct alice_setup_facts as (H4 & H5 & H6 & H7 & H8 & H9).
  pose proof (proj1 alice_then_eve) as H10.
  split.
  { exact (conj H1 (conj H2 (conj H3 (conj H4 (conj H5 (conj H6
             (conj H7 (conj H8 (conj H9 H10))))))))). }
  destruct (process_setup_frame H1 H2 H3 1 "alice" (WeensyOS.two_page_image 0x100000)
              WeensyOS.free_proc WeensyOS.boot WeensyOS.alice_loaded
              H4 H5 H6 H7 H8 H9 H10)
    as (_ & Hmap & _ & _ & Hslots & _ & Hnext & _).
  split; [|exact (conj Hslots Hnext)].
  apply Hmap. apply (bool_decide_unpack _). vm_compute. exact I.
Defined.

Lemma kernel_start_boots_witness :
  kernel_start None WeensyOS.boot = Resumed WeensyOS.started
  /\ untouched (Some 1) WeensyOS.started
  /\ runnable WeensyOS.started 1
  /\ loaded_from 1 "alice" WeensyOS.started
  /\ loaded_from 2 "eve" WeensyOS.started.
Proof.
  split; [exact started_resumed|].
  exact (kernel_start_boots None ∅ (fun a => a mod 251) WeensyOS.started
           started_resumed).
Defined.

Lemma page_alloc_and_kalloc_witness :
  (0 < PAGESIZE /\ MEMSIZE_PHYSICAL = NPAGES * PAGESIZE
   /\ MEMSIZE_PHYSICAL + PAGESIZE <= 2 ^ 64 /\ wf_alloc WeensyOS.boot)
  /\ syscall_page_alloc 0x100000 WeensyOS.after_kalloc
     = Halted assert_page_alloc_refcount WeensyOS.after_kalloc.
Proof.
  destruct config_sizes as (H1 & H2 & H3).
  split; [exact (conj H1 (conj H2 (conj H3 boot_wf_alloc)))|].
  assert (H6 : 0x100000 <> 0) by (intros H; discriminate H).
  exact (proj1 (page_alloc_and_kalloc H1 H2 H3 WeensyOS.boot boot_wf_alloc)
           100 0x100000 WeensyOS.after_kalloc 0x100000 kalloc_boot H6 eq_refl).
Defined.

Lemma memshow_spec_witness :
  (0 < NPROC /\ Z.of_nat (length (ptable WeensyOS.started)) = NPROC
   /\ 0 <= showing WeensyOS.viewer < NPROC)
  /\ exists v' p,
       memshow 100 WeensyOS.viewer WeensyOS.started = Some (v', Some p)
       /\ last_ticks v' = ticks WeensyOS.started
       /\ 0 <= showing v' < NPROC.
Proof.
  assert (H1 : 0 < NPROC) by (vm_compute; reflexivity).
  assert (H2 : Z.of_nat (length (ptable WeensyOS.started)) = NPROC)
    by (vm_compute; reflexivity).
  assert (H3 : 0 <= showing WeensyOS.viewer < NPROC)
    by (split; [vm_compute; intros H; discriminate H|vm_compute; reflexivity]).
  split; [exact (conj H1 (conj H2 H3))|].
  destruct (proj2 (memshow_spec 100 WeensyOS.viewer WeensyOS.started H1 H2 H3) eq_refl)
    as (v' & p & Hrun & _ & Hticks & Hsh & _).
  exists v', p. exact (conj Hrun (conj Hticks Hsh)).
Defined.

Lemma two_processes_take_turns_witness :
  (reachable WeensyOS.started /\ pagetables_checked WeensyOS.started
   /\ current WeensyOS.started = Some 1
   /\ zlookup (ptable WeensyOS.started) 1 = Some WeensyOS.alice)
  /\ exception WeensyOS.timer_regs WeensyOS.started
     = Resumed (set_current (Some 2)
                  (set_ticks (wrap64 (ticks WeensyOS.started + 1))
                     (with_proc 1 (set_regs WeensyOS.timer_regs WeensyOS.alice)
                        WeensyOS.started))).
Proof.
  destruct started_alice as (H3 & H4 & _ & H2).
  assert (H7 : runnable WeensyOS.started (3 - 1)) by (vm_compute; reflexivity).
  split; [exact (conj started_reachable (conj H2 (conj H3 H4)))|].
  destruct (proj1 (two_processes_take_turns WeensyOS.started 1 WeensyOS.alice
                     WeensyOS.timer_regs started_reachable H2 H3 H4) eq_refl)
    as (x & (Hn & _) & Hrun).
  pose proof (Hn H7) as Hx. rewrite Hx in Hrun. exact Hrun.
Defined.

Lemma syscall_return_frame_witness :
  exists v s',
    syscall WeensyOS.getpid_regs WeensyOS.started = Ret v s'
    /\ current s' = current WeensyOS.started
    /\ pagetables s' = pagetables WeensyOS.started
    /\ forall x, slot_state s' x = slot_state WeensyOS.started x.
Proof.
  destruct getpid_returns as (v & s' & Hret).
  destruct (syscall_return_frame WeensyOS.started WeensyOS.getpid_regs v s' Hret)
    as (Hcur & Hpt & _ & _ & Hst & _).
  exists v, s'. exact (conj Hret (conj Hcur (conj Hpt Hst))).
Defined.

End Witnesses.
